(** * prover-rank-fetcher: a shallow embedding of [main.go]

    The program is one linear pipeline: parse the two date-times, POST
    the time window to the rank API, decode the JSON answer, load the
    label file, build one spreadsheet row per prover and save the sheet.

    Everything the program does is a call into a Go library, so the
    development first models the library behaviour the program relies
    on (binary64 arithmetic, [strconv], [encoding/json], [encoding/csv],
    [time], the [xlsx] cells) and then embeds the four functions of
    [main.go] on top of these models. *)

From stdpp Require Import gmap strings list.
From Stdlib Require Import ZArith Lia Ascii String DecimalString DecimalZ.

Open Scope Z_scope.

#[local] Set Warnings "-register-all".

(** ** binary64 floating point ([float64]) *)

Module Float64.

(** A [float64] value: a signed dyadic number [(-1)^neg * m * 2^e] with
    [0 <= m], an infinity, or a NaN.  The sign of a zero is kept. *)
Inductive float64 : Type :=
| FFin (neg : bool) (m : Z) (e : Z)
| FInf (neg : bool)
| FNaN.

Definition prec : Z := 53.
Definition emin : Z := -1074.
Definition emax : Z := 1024.

Definition fzero : float64 := FFin false 0 0.

(** [scaled_le d g n]: [d * 2^g <= n], for any sign of [g]. *)
Definition scaled_le (d g n : Z) : bool :=
  if 0 <=? g then d * 2 ^ g <=? n else d <=? n * 2 ^ (- g).

(** [floor (log2 (n / d))] for [0 < n], [0 < d]. *)
Definition ilog2_q (n d : Z) : Z :=
  let g := Z.log2 n - Z.log2 d in
  if scaled_le d g n then g else g - 1.

(** Nearest integer to [n / d], ties to even ([0 <= n], [0 < d]). *)
Definition round_half_even (n d : Z) : Z :=
  let q := n / d in
  match (2 * (n mod d)) ?= d with
  | Lt => q
  | Gt => q + 1
  | Eq => if Z.even q then q else q + 1
  end.

(** IEEE-754 round-to-nearest-even of the rational [n / d] ([0 <= n],
    [0 < d]) to binary64, with gradual underflow.  The result [(m, e)]
    stands for [m * 2^e] and is canonical: [2^52 <= m < 2^53] for a
    normal number, [e = emin] for a subnormal one, [(0, 0)] for zero.
    [None] is overflow. *)
Definition round_q (n d : Z) : option (Z * Z) :=
  if n =? 0 then Some (0, 0)
  else
    let e := Z.max emin (ilog2_q n d - (prec - 1)) in
    let m := if 0 <=? e then round_half_even n (d * 2 ^ e)
             else round_half_even (n * 2 ^ (- e)) d in
    let '(m, e) := if m =? 2 ^ prec then (2 ^ (prec - 1), e + 1) else (m, e) in
    if emax - prec <? e then None
    else Some (m, if m =? 0 then 0 else e).

Definition of_rounded (neg : bool) (r : option (Z * Z)) : float64 :=
  match r with
  | Some (m, e) => FFin neg m e
  | None => FInf neg
  end.

(** The float nearest to the integer [n] (the conversion of an integer
    constant such as [1e6], [15000] or [43000] to [float64]). *)
Definition of_Z (n : Z) : float64 := of_rounded (n <? 0) (round_q (Z.abs n) 1).

Definition is_zero (x : float64) : bool :=
  match x with FFin _ m _ => m =? 0 | _ => false end.

(** [x / y] in binary64. *)
Definition div (x y : float64) : float64 :=
  match x, y with
  | FNaN, _ | _, FNaN => FNaN
  | FInf _, FInf _ => FNaN
  | FInf s, FFin t _ _ => FInf (xorb s t)
  | FFin s _ _, FInf t => FFin (xorb s t) 0 0
  | FFin s m e, FFin t m' e' =>
      if m' =? 0 then (if m =? 0 then FNaN else FInf (xorb s t))
      else
        let k := e - e' in
        of_rounded (xorb s t)
          (if 0 <=? k then round_q (m * 2 ^ k) m'
           else round_q m (m' * 2 ^ (- k)))
  end.

(** Magnitude of a finite float rounded toward zero to an integer. *)
Definition trunc_abs (m e : Z) : Z :=
  if 0 <=? e then m * 2 ^ e else m / 2 ^ (- e).

Definition min_int64 : Z := - 2 ^ 63.
Definition max_int64 : Z := 2 ^ 63 - 1.

(** The conversion [int(f)] on a 64-bit target: the fraction is
    discarded (truncation toward zero).  When the value does not fit, or
    is an infinity or a NaN, the language leaves the result to the
    implementation; the amd64 result (the "integer indefinite" value) is
    used here, and the statement about the counts names it. *)
Definition to_int (x : float64) : Z :=
  match x with
  | FFin neg m e =>
      let t := trunc_abs m e in
      let v := if neg then - t else t in
      if (min_int64 <=? v) && (v <=? max_int64) then v else min_int64
  | _ => min_int64
  end.

Definition in_int_range (x : float64) : bool :=
  match x with
  | FFin neg m e =>
      let t := trunc_abs m e in
      let v := if neg then - t else t in
      (min_int64 <=? v) && (v <=? max_int64)
  | _ => false
  end.

End Float64.

(** ** Bytes and strings

    A Go [string] is a sequence of bytes; it is modelled by [string],
    whose characters are the 256 [ascii] values. *)

Module Chars.

Definition code (c : ascii) : Z := Z.of_N (N_of_ascii c).
Definition chr (n : Z) : ascii := ascii_of_N (Z.to_N n).

Definition dquote : ascii := "034"%char.
Definition bslash : ascii := "092"%char.
Definition newline : ascii := "010"%char.
Definition creturn : ascii := "013"%char.

Definition is_digit (c : ascii) : bool := (48 <=? code c) && (code c <=? 57).
Definition digit_val (c : ascii) : Z := code c - 48.

Definition is_upper (c : ascii) : bool := (65 <=? code c) && (code c <=? 90).
Definition is_lower (c : ascii) : bool := (97 <=? code c) && (code c <=? 122).

(** ASCII lower-casing of one byte. *)
Definition lower (c : ascii) : ascii :=
  if is_upper c then chr (code c + 32) else c.

Fixpoint lower_string (s : string) : string :=
  match s with
  | EmptyString => EmptyString
  | String c s' => String (lower c) (lower_string s')
  end.

(** Value of a hexadecimal digit. *)
Definition hex_val (c : ascii) : option Z :=
  if is_digit c then Some (digit_val c)
  else if (97 <=? code c) && (code c <=? 102) then Some (code c - 87)
  else if (65 <=? code c) && (code c <=? 70) then Some (code c - 55)
  else None.

(** [squote s] is [s] with every apostrophe replaced by a double quote;
    it only serves to write JSON texts legibly. *)
Fixpoint squote (s : string) : string :=
  match s with
  | EmptyString => EmptyString
  | String c s' =>
      String (if Ascii.eqb c "'"%char then dquote else c) (squote s')
  end.

(** A run of decimal digits at the head of [s]: its value on top of
    [acc], the number of digits read on top of [cnt], and the rest. *)
Fixpoint digits (s : string) (acc cnt : Z) : Z * Z * string :=
  match s with
  | String c s' =>
      if is_digit c then digits s' (acc * 10 + digit_val c) (cnt + 1)
      else (acc, cnt, s)
  | EmptyString => (acc, cnt, s)
  end.

End Chars.

(** ** [strconv] *)

Module Strconv.
Import Chars Float64.

(** [strconv.Itoa]. *)
Definition Itoa (n : Z) : string :=
  DecimalString.NilZero.string_of_int (Z.to_int n).

(** A number literal of the JSON grammar: an optional minus sign, an
    integer part (a single 0, or a non-zero digit and further digits), an
    optional fraction (a point and one or more digits) and an optional
    exponent (e or E, an optional sign, one or more digits).  Its value
    is [(-1)^neg * mant * 10^(exp10 - fracs)]. *)
Record numlit : Type := NumLit {
  n_neg : bool;
  n_mant : Z;
  n_fracs : Z;
  n_exp10 : Z
}.

Definition scan_int (s : string) : option (Z * string) :=
  match s with
  | String c s' =>
      if Ascii.eqb c "0"%char then Some (0, s')
      else if is_digit c then
        let '(v, _, r) := digits s' (digit_val c) 1 in Some (v, r)
      else None
  | EmptyString => None
  end.

Definition scan_frac (m : Z) (s : string) : option (Z * Z * string) :=
  match s with
  | String c s' =>
      if Ascii.eqb c "."%char then
        match s' with
        | String d _ => if is_digit d then Some (digits s' m 0) else None
        | EmptyString => None
        end
      else Some (m, 0, s)
  | EmptyString => Some (m, 0, s)
  end.

Definition scan_exp_digits (neg : bool) (s : string) : option (Z * string) :=
  match s with
  | String d _ =>
      if is_digit d then
        let '(v, _, r) := digits s 0 0 in Some (if neg then - v else v, r)
      else None
  | EmptyString => None
  end.

Definition scan_exp (s : string) : option (Z * string) :=
  match s with
  | String c s' =>
      if Ascii.eqb c "e"%char || Ascii.eqb c "E"%char then
        match s' with
        | String g s'' =>
            if Ascii.eqb g "+"%char then scan_exp_digits false s''
            else if Ascii.eqb g "-"%char then scan_exp_digits true s''
            else scan_exp_digits false s'
        | EmptyString => None
        end
      else Some (0, s)
  | EmptyString => Some (0, s)
  end.

(** Reads one number literal at the head of [s]. *)
Definition scan_number (s : string) : option (numlit * string) :=
  let '(neg, s1) :=
    match s with
    | String c s' => if Ascii.eqb c "-"%char then (true, s') else (false, s)
    | EmptyString => (false, s)
    end in
  match scan_int s1 with
  | None => None
  | Some (i, s2) =>
      match scan_frac i s2 with
      | None => None
      | Some (m, fr, s3) =>
          match scan_exp s3 with
          | None => None
          | Some (ex, s4) => Some (NumLit neg m fr ex, s4)
          end
      end
  end.

(** The whole of [s] is one number literal ([isValidNumber] of
    [encoding/json]). *)
Definition parse_number (s : string) : option numlit :=
  match scan_number s with
  | Some (n, EmptyString) => Some n
  | _ => None
  end.

Definition isValidNumber (s : string) : bool :=
  match parse_number s with Some _ => true | None => false end.

Inductive NumError : Type := ErrSyntax | ErrRange.

(** The binary64 value nearest to a number literal. *)
Definition float_of_numlit (n : numlit) : float64 :=
  let k := n_exp10 n - n_fracs n in
  of_rounded (n_neg n)
    (if 0 <=? k then round_q (n_mant n * 10 ^ k) 1
     else round_q (n_mant n) (10 ^ (- k))).

(** [strconv.ParseFloat (s, 64)] on the texts a [json.Number] of this
    program can hold: a number literal of the JSON grammar is rounded to
    the nearest binary64 value (ties to even), an overflow gives an
    infinity together with [ErrRange]; every other text (the empty text
    of an absent field among them) gives [0] together with [ErrSyntax].
    The further notations that [ParseFloat] reads (hexadecimal, [Inf],
    [NaN], a leading [+] or [.], underscores) never reach it here, since
    the decoder only stores texts that pass [isValidNumber]. *)
Definition ParseFloat (s : string) : float64 * option NumError :=
  match parse_number s with
  | None => (fzero, Some ErrSyntax)
  | Some n =>
      match float_of_numlit n with
      | FInf sg => (FInf sg, Some ErrRange)
      | f => (f, None)
      end
  end.

End Strconv.

(** ** [encoding/json]: the text of a JSON document *)

Module Json.
Import Chars.

Inductive json : Type :=
| JNull
| JBool (b : bool)
| JNum (lit : string)
| JStr (s : string)
| JArr (items : list json)
| JObj (fields : list (string * json)).

(** *** String literals *)

(** UTF-8 encoding of a code point ([utf8.EncodeRune]). *)
Definition utf8_encode (r : Z) : string :=
  if r <? 128 then String (chr r) EmptyString
  else if r <? 2048 then
    String (chr (192 + r / 64)) (String (chr (128 + r mod 64)) EmptyString)
  else if r <? 65536 then
    String (chr (224 + r / 4096))
      (String (chr (128 + (r / 64) mod 64))
         (String (chr (128 + r mod 64)) EmptyString))
  else
    String (chr (240 + r / 262144))
      (String (chr (128 + (r / 4096) mod 64))
         (String (chr (128 + (r / 64) mod 64))
            (String (chr (128 + r mod 64)) EmptyString))).

(** U+FFFD, written where the input is not well-formed. *)
Definition replacement : string := utf8_encode 65533.

Definition getu4 (a b c d : ascii) : option Z :=
  match hex_val a, hex_val b, hex_val c, hex_val d with
  | Some x, Some y, Some z, Some w => Some (((x * 16 + y) * 16 + z) * 16 + w)
  | _, _, _, _ => None
  end.

Definition is_surrogate (r : Z) : bool := (55296 <=? r) && (r <? 57344).

(** [utf16.DecodeRune]: a high surrogate followed by a low one. *)
Definition decode_pair (r1 r2 : Z) : option Z :=
  if (55296 <=? r1) && (r1 <? 56320) && (56320 <=? r2) && (r2 <? 57344)
  then Some ((r1 - 55296) * 1024 + (r2 - 56320) + 65536)
  else None.

Definition simple_escape (c : ascii) : ascii :=
  if Ascii.eqb c "b"%char then chr 8
  else if Ascii.eqb c "f"%char then chr 12
  else if Ascii.eqb c "n"%char then chr 10
  else if Ascii.eqb c "r"%char then chr 13
  else if Ascii.eqb c "t"%char then chr 9
  else c.

Definition is_cont (c : ascii) : bool := (128 <=? code c) && (code c <=? 191).

(** Number of bytes of the well-formed UTF-8 sequence that starts with
    the byte [c] followed by [s]; [0] when there is none
    ([utf8.DecodeRune] returning [RuneError] with width 1). *)
Definition utf8_width (c : ascii) (s : string) : nat :=
  let b := code c in
  let in_range lo hi (x : ascii) := (lo <=? code x) && (code x <=? hi) in
  match s with
  | String c1 s1 =>
      if (194 <=? b) && (b <=? 223) then (if is_cont c1 then 2%nat else 0%nat)
      else
        match s1 with
        | String c2 s2 =>
            let three :=
              ((b =? 224) && in_range 160 191 c1
               || (225 <=? b) && (b <=? 236) && is_cont c1
               || (b =? 237) && in_range 128 159 c1
               || (238 <=? b) && (b <=? 239) && is_cont c1) && is_cont c2 in
            if three then 3%nat
            else
              match s2 with
              | String c3 _ =>
                  if ((b =? 240) && in_range 144 191 c1
                      || (241 <=? b) && (b <=? 243) && is_cont c1
                      || (b =? 244) && in_range 128 143 c1)
                     && is_cont c2 && is_cont c3
                  then 4%nat else 0%nat
              | EmptyString => 0%nat
              end
        | EmptyString => 0%nat
        end
  | EmptyString => 0%nat
  end.

(** The value of a string literal, given the text between its quotes
    ([unquote]): escapes are replaced, a [\u] escape that is half of a
    surrogate pair without its other half becomes U+FFFD, and so does
    every byte that does not start a well-formed UTF-8 sequence. *)
Fixpoint unquote (s : string) : string :=
  match s with
  | EmptyString => EmptyString
  | String c s' =>
      if Ascii.eqb c bslash then
        match s' with
        | String x s'' =>
            if Ascii.eqb x "u"%char then
              match s'' with
              | String h1 (String h2 (String h3 (String h4 t))) =>
                  match getu4 h1 h2 h3 h4 with
                  | None => EmptyString
                  | Some r =>
                      if is_surrogate r then
                        match t with
                        | String b (String u (String g1 (String g2
                            (String g3 (String g4 t'))))) =>
                            match (if Ascii.eqb b bslash && Ascii.eqb u "u"%char
                                   then getu4 g1 g2 g3 g4 else None) with
                            | Some r2 =>
                                match decode_pair r r2 with
                                | Some r' => utf8_encode r' +:+ unquote t'
                                | None => replacement +:+ unquote t
                                end
                            | None => replacement +:+ unquote t
                            end
                        | _ => replacement +:+ unquote t
                        end
                      else utf8_encode r +:+ unquote t
                  end
              | _ => EmptyString
              end
            else String (simple_escape x) (unquote s'')
        | EmptyString => EmptyString
        end
      else if code c <? 128 then String c (unquote s')
      else
        match utf8_width c s', s' with
        | 2%nat, String c1 t => String c (String c1 (unquote t))
        | 3%nat, String c1 (String c2 t) =>
            String c (String c1 (String c2 (unquote t)))
        | 4%nat, String c1 (String c2 (String c3 t)) =>
            String c (String c1 (String c2 (String c3 (unquote t))))
        | _, _ => replacement +:+ unquote s'
        end
  end.

(** *** Tokens *)

Inductive token : Type :=
| TLBrace | TRBrace | TLBrack | TRBrack | TColon | TComma
| TString (s : string)
| TNumber (lit : string)
| TTrue | TFalse | TNull.

(** The scanner reads the text byte by byte.  Between tokens it is in
    [LStart]; [LWord] collects the bytes of a number or of one of the
    words [true], [false], [null]; the [LStr] states are inside a string
    literal ([n] hexadecimal digits of a [\u] escape are still due in
    [LStrU]). *)
Inductive lex_state : Type :=
| LStart
| LWord (w : string)
| LStr (raw : string)
| LStrEsc (raw : string)
| LStrU (raw : string) (n : nat).

Definition is_space (c : ascii) : bool :=
  (code c =? 32) || (code c =? 9) || (code c =? 13) || (code c =? 10).

Definition is_word_char (c : ascii) : bool :=
  is_digit c || is_lower c || is_upper c
  || Ascii.eqb c "-"%char || Ascii.eqb c "+"%char || Ascii.eqb c "."%char.

Definition word_token (w : string) : option token :=
  if String.eqb w "true" then Some TTrue
  else if String.eqb w "false" then Some TFalse
  else if String.eqb w "null" then Some TNull
  else if Strconv.isValidNumber w then Some (TNumber w)
  else None.

Definition snoc (s : string) (c : ascii) : string := s +:+ String c EmptyString.

(** One byte read between tokens: the next state and the token that the
    byte completes, if any. *)
Definition start_char (c : ascii) : option (lex_state * list token) :=
  if is_space c then Some (LStart, [])
  else if Ascii.eqb c dquote then Some (LStr EmptyString, [])
  else if Ascii.eqb c "{"%char then Some (LStart, [TLBrace])
  else if Ascii.eqb c "}"%char then Some (LStart, [TRBrace])
  else if Ascii.eqb c "["%char then Some (LStart, [TLBrack])
  else if Ascii.eqb c "]"%char then Some (LStart, [TRBrack])
  else if Ascii.eqb c ":"%char then Some (LStart, [TColon])
  else if Ascii.eqb c ","%char then Some (LStart, [TComma])
  else if is_word_char c then Some (LWord (String c EmptyString), [])
  else None.

Definition is_escape_char (c : ascii) : bool :=
  Ascii.eqb c "b"%char || Ascii.eqb c "f"%char || Ascii.eqb c "n"%char
  || Ascii.eqb c "r"%char || Ascii.eqb c "t"%char || Ascii.eqb c bslash
  || Ascii.eqb c "/"%char || Ascii.eqb c dquote.

Fixpoint lex (st : lex_state) (s : string) : option (list token) :=
  match s with
  | EmptyString =>
      match st with
      | LStart => Some []
      | LWord w => (fun t => [t]) <$> word_token w
      | _ => None
      end
  | String c s' =>
      match st with
      | LStart =>
          match start_char c with
          | Some (st', ts) => (fun r => ts ++ r) <$> lex st' s'
          | None => None
          end
      | LWord w =>
          if is_word_char c then lex (LWord (snoc w c)) s'
          else
            match word_token w, start_char c with
            | Some t, Some (st', ts) => (fun r => t :: ts ++ r) <$> lex st' s'
            | _, _ => None
            end
      | LStr raw =>
          if Ascii.eqb c dquote then
            (fun r => TString (unquote raw) :: r) <$> lex LStart s'
          else if Ascii.eqb c bslash then lex (LStrEsc (snoc raw c)) s'
          else if code c <? 32 then None
          else lex (LStr (snoc raw c)) s'
      | LStrEsc raw =>
          if is_escape_char c then lex (LStr (snoc raw c)) s'
          else if Ascii.eqb c "u"%char then lex (LStrU (snoc raw c) 4) s'
          else None
      | LStrU raw n =>
          match hex_val c, n with
          | Some _, S O => lex (LStr (snoc raw c)) s'
          | Some _, S n' => lex (LStrU (snoc raw c) n') s'
          | _, _ => None
          end
      end
  end.

(** *** Values *)

(** An array or an object that is still open: its items so far, and for
    an object possibly the key whose value is being read. *)
Inductive frame : Type :=
| FArr (items : list json)
| FObj (fields : list (string * json))
| FObjKey (fields : list (string * json)) (key : string).

Inductive pmode : Type :=
| MValue        (* a value must follow *)
| MValueOrEnd   (* just after an opening bracket *)
| MKeyOrEnd     (* just after an opening brace *)
| MKey          (* after a comma inside an object *)
| MColon        (* after a key *)
| MSep          (* after a value inside an array or an object *)
| MDone (v : json).

Definition maxNestingDepth : Z := 10000.

(** A value [v] is complete: it goes into the innermost open frame. *)
Definition complete (v : json) (stk : list frame) : option (list frame * pmode) :=
  match stk with
  | [] => Some ([], MDone v)
  | FArr items :: rest => Some (FArr (items ++ [v]) :: rest, MSep)
  | FObjKey fields k :: rest => Some (FObj (fields ++ [(k, v)]) :: rest, MSep)
  | FObj _ :: _ => None
  end.

Definition push (f : frame) (m : pmode) (stk : list frame)
  : option (list frame * pmode) :=
  if Z.of_nat (List.length (f :: stk)) <=? maxNestingDepth then Some (f :: stk, m)
  else None.

Definition begin_value (t : token) (stk : list frame)
  : option (list frame * pmode) :=
  match t with
  | TLBrack => push (FArr []) MValueOrEnd stk
  | TLBrace => push (FObj []) MKeyOrEnd stk
  | TString s => complete (JStr s) stk
  | TNumber l => complete (JNum l) stk
  | TTrue => complete (JBool true) stk
  | TFalse => complete (JBool false) stk
  | TNull => complete JNull stk
  | _ => None
  end.

Definition step (stk : list frame) (m : pmode) (t : token)
  : option (list frame * pmode) :=
  match m, t, stk with
  | MValue, _, _ => begin_value t stk
  | MValueOrEnd, TRBrack, FArr items :: rest => complete (JArr items) rest
  | MValueOrEnd, _, _ => begin_value t stk
  | MKeyOrEnd, TRBrace, FObj fields :: rest => complete (JObj fields) rest
  | (MKeyOrEnd | MKey), TString k, FObj fields :: rest =>
      Some (FObjKey fields k :: rest, MColon)
  | MColon, TColon, _ => Some (stk, MValue)
  | MSep, TComma, FArr _ :: _ => Some (stk, MValue)
  | MSep, TComma, FObj _ :: _ => Some (stk, MKey)
  | MSep, TRBrack, FArr items :: rest => complete (JArr items) rest
  | MSep, TRBrace, FObj fields :: rest => complete (JObj fields) rest
  | _, _, _ => None
  end.

Fixpoint parse_tokens (stk : list frame) (m : pmode) (ts : list token)
  : option json :=
  match ts with
  | [] => match m with MDone v => Some v | _ => None end
  | t :: ts' =>
      match step stk m t with
      | Some (stk', m') => parse_tokens stk' m' ts'
      | None => None
      end
  end.

(** The value of a JSON text; [None] when the text is not valid JSON
    (what [checkValid] rejects with a [SyntaxError]). *)
Definition parse (body : string) : option json :=
  match lex LStart body with
  | Some ts => parse_tokens [] MValue ts
  | None => None
  end.

End Json.

(** ** [encoding/csv]: the records of a comma-separated text

    [csv.NewReader] leaves every option at its default: the delimiter is
    a comma, there is no comment character, quotes are strict
    ([LazyQuotes] off), leading space is kept, and [FieldsPerRecord] is
    [0], which makes the first record fix the number of fields that
    every later record must have. *)

Module Csv.
Import Chars.

Inductive CsvError : Type :=
| ErrBareQuote    (* a quote inside a field that is not quoted *)
| ErrQuote        (* a stray or unterminated quote in a quoted field *)
| ErrFieldCount   (* not the number of fields of the first record *)
| ErrRead.        (* the underlying reader failed *)

(** What one call of [Read] returns when it is not [io.EOF]: the record
    and the error. *)
Definition ReadResult : Type := list string * option CsvError.

(** The lines of the text as [readLine] hands them out: each one ends
    with its newline, a carriage return before the newline is dropped,
    and so is a carriage return that ends a last line without newline. *)
Fixpoint lines_from (cur : string) (s : string) : list string :=
  match s with
  | EmptyString =>
      match cur with
      | EmptyString => []
      | _ => [cur]
      end
  | String c s' =>
      if Ascii.eqb c newline then String.append cur (String newline EmptyString)
                                  :: lines_from EmptyString s'
      else if Ascii.eqb c creturn then
        match s' with
        | EmptyString => [cur]
        | String c' _ =>
            if Ascii.eqb c' newline then lines_from cur s'
            else lines_from (String.append cur (String c EmptyString)) s'
        end
      else lines_from (String.append cur (String c EmptyString)) s'
  end.

Definition lines (s : string) : list string := lines_from EmptyString s.

(** Where the reader is inside a record. *)
Inductive field_state : Type :=
| FieldStart                (* at the first byte of a field *)
| InBare (acc : string)     (* inside a field that is not quoted *)
| InQuoted (acc : string)   (* inside a quoted field *)
| QuoteSeen (acc : string). (* just after a quote inside a quoted field *)

Inductive line_result : Type :=
| RecordDone (fields : list string)
| NeedMore (fields : list string) (acc : string)
| LineError (fields : list string) (e : CsvError).

(** Reads the bytes of one line, continuing the record [fields]. *)
Fixpoint parse_line (fields : list string) (st : field_state) (line : string)
  : line_result :=
  match line with
  | EmptyString =>
      match st with
      | FieldStart => RecordDone (fields ++ [EmptyString])
      | InBare acc => RecordDone (fields ++ [acc])
      | InQuoted acc => NeedMore fields acc
      | QuoteSeen acc => RecordDone (fields ++ [acc])
      end
  | String c rest =>
      let last := match rest with EmptyString => Ascii.eqb c newline | _ => false end in
      match st with
      | FieldStart =>
          if last then RecordDone (fields ++ [EmptyString])
          else if Ascii.eqb c dquote then parse_line fields (InQuoted EmptyString) rest
          else if Ascii.eqb c ","%char then
            parse_line (fields ++ [EmptyString]) FieldStart rest
          else parse_line fields (InBare (String c EmptyString)) rest
      | InBare acc =>
          if last then RecordDone (fields ++ [acc])
          else if Ascii.eqb c ","%char then parse_line (fields ++ [acc]) FieldStart rest
          else if Ascii.eqb c dquote then LineError fields ErrBareQuote
          else parse_line fields (InBare (String.append acc (String c EmptyString))) rest
      | InQuoted acc =>
          if Ascii.eqb c dquote then parse_line fields (QuoteSeen acc) rest
          else parse_line fields (InQuoted (String.append acc (String c EmptyString))) rest
      | QuoteSeen acc =>
          if Ascii.eqb c dquote then
            parse_line fields (InQuoted (String.append acc (String dquote EmptyString))) rest
          else if Ascii.eqb c ","%char then parse_line (fields ++ [acc]) FieldStart rest
          else if last then RecordDone (fields ++ [acc])
          else LineError fields ErrQuote
      end
  end.

Definition is_empty_line (l : string) : bool :=
  String.eqb l (String newline EmptyString) || String.eqb l EmptyString.

(** Checks the number of fields of a record against [FieldsPerRecord]
    ([fpr]; [0] until the first record has set it). *)
Definition check_count (fpr : nat) (record : list string) : ReadResult * nat :=
  if (fpr =? 0)%nat then ((record, None), List.length record)
  else if (List.length record =? fpr)%nat then ((record, None), fpr)
  else ((record, Some ErrFieldCount), fpr).

(** The results of the successive calls of [Read] on the lines [ls], up
    to the first error; after them [Read] returns [io.EOF].  [pending]
    holds the fields and the text read so far of a quoted field that
    runs over the end of a line. *)
Fixpoint read_lines (fpr : nat) (pending : option (list string * string))
    (ls : list string) : list ReadResult :=
  match ls with
  | [] =>
      match pending with
      | None => []
      | Some (fields, _) => [(fields, Some ErrQuote)]
      end
  | l :: ls' =>
      let r :=
        match pending with
        | None => if is_empty_line l then None
                  else Some (parse_line [] FieldStart l)
        | Some (fields, acc) => Some (parse_line fields (InQuoted acc) l)
        end in
      match r with
      | None => read_lines fpr None ls'
      | Some (RecordDone record) =>
          let '(res, fpr') := check_count fpr record in
          match res with
          | (_, Some _) => [res]
          | (_, None) => res :: read_lines fpr' None ls'
          end
      | Some (NeedMore fields acc) => read_lines fpr (Some (fields, acc)) ls'
      | Some (LineError fields e) => [(fields, Some e)]
      end
  end.

(** The reader over the whole text of a file; [fault] says that the
    file fails to be read once its bytes are used up (it then reports an
    error other than [io.EOF]). *)
Definition read_results (text : string) (fault : bool) : list ReadResult :=
  let rs := read_lines 0 None (lines text) in
  match last rs with
  | Some (_, Some _) => rs
  | _ => if fault then rs ++ [([], Some ErrRead)] else rs
  end.

End Csv.

(** ** [time]: the calendar, zone offsets and the layout
    [2006-01-02 15:04:05] *)

Module Time.
Import Chars.

(** *** The proleptic Gregorian calendar *)

Definition is_leap (y : Z) : bool :=
  (y mod 4 =? 0) && (negb (y mod 100 =? 0) || (y mod 400 =? 0)).

Definition daysIn (m y : Z) : Z :=
  if m =? 2 then (if is_leap y then 29 else 28)
  else if (m =? 4) || (m =? 6) || (m =? 9) || (m =? 11) then 30
  else 31.

(** Days of the year before the first day of month [m]. *)
Definition days_before_month (y m : Z) : Z :=
  match m with
  | 1 => 0 | 2 => 31 | 3 => 59 | 4 => 90 | 5 => 120 | 6 => 151
  | 7 => 181 | 8 => 212 | 9 => 243 | 10 => 273 | 11 => 304 | _ => 334
  end + (if (2 <? m) && is_leap y then 1 else 0).

(** Days from 0001-01-01 to 1970-01-01. *)
Definition unix_epoch_days : Z := 719162.

Definition daysPer400Years : Z := 146097.
Definition daysPer100Years : Z := 36524.
Definition daysPer4Years : Z := 1461.

(** Days from 1970-01-01 to the given date. *)
Definition days_from_civil (y m d : Z) : Z :=
  let p := y - 1 in
  365 * p + p / 4 - p / 100 + p / 400
  + days_before_month y m + (d - 1) - unix_epoch_days.

(** Month and day of the [yday]-th day (from 0) of a year. *)
Definition month_day (leap : bool) (yday : Z) : Z * Z :=
  let l := if leap then 1 else 0 in
  if yday <? 31 then (1, yday + 1)
  else if yday <? 59 + l then (2, yday - 31 + 1)
  else
    let x := yday - l in
    if x <? 90 then (3, x - 59 + 1)
    else if x <? 120 then (4, x - 90 + 1)
    else if x <? 151 then (5, x - 120 + 1)
    else if x <? 181 then (6, x - 151 + 1)
    else if x <? 212 then (7, x - 181 + 1)
    else if x <? 243 then (8, x - 212 + 1)
    else if x <? 273 then (9, x - 243 + 1)
    else if x <? 304 then (10, x - 273 + 1)
    else if x <? 334 then (11, x - 304 + 1)
    else (12, x - 334 + 1).

(** Year (counted from year 1 as 0), and day of the year, of day [r] of a
    cycle of 400 years that starts on a 1 January. *)
Definition cycle_year (r : Z) : Z * Z :=
  let n100 := Z.min (r / daysPer100Years) 3 in
  let r1 := r - daysPer100Years * n100 in
  let n4 := r1 / daysPer4Years in
  let r2 := r1 - daysPer4Years * n4 in
  let n1 := Z.min (r2 / 365) 3 in
  (100 * n100 + 4 * n4 + n1, r2 - 365 * n1).

(** The date of the day that is [n] days after 1970-01-01. *)
Definition civil_from_days (n : Z) : Z * Z * Z :=
  let D := n + unix_epoch_days in
  let '(yc, yday) := cycle_year (D mod daysPer400Years) in
  let y := 400 * (D / daysPer400Years) + yc + 1 in
  let '(m, d) := month_day (is_leap y) yday in
  (y, m, d).

(** A wall-clock reading. *)
Record Clock : Type := MkClock {
  year : Z; month : Z; day : Z; hour : Z; minute : Z; second : Z
}.

(** Seconds from 1970-01-01 00:00:00 to the reading, both taken in the
    same zone. *)
Definition clock_seconds (c : Clock) : Z :=
  days_from_civil (year c) (month c) (day c) * 86400
  + hour c * 3600 + minute c * 60 + second c.

Definition clock_of_seconds (w : Z) : Clock :=
  let '(y, m, d) := civil_from_days (w / 86400) in
  let s := w mod 86400 in
  MkClock y m d (s / 3600) ((s mod 3600) / 60) (s mod 60).

(** The ranges that [Parse] enforces. *)
Definition valid_clock (c : Clock) : bool :=
  (0 <=? year c) && (year c <=? 9999)
  && (1 <=? month c) && (month c <=? 12)
  && (1 <=? day c) && (day c <=? daysIn (month c) (year c))
  && (0 <=? hour c) && (hour c <? 24)
  && (0 <=? minute c) && (minute c <? 60)
  && (0 <=? second c) && (second c <? 60).

(** *** Zones *)

(** A location: the offset (seconds east of UTC) in force before the
    first transition, and the transitions in increasing order of their
    instant, each with the offset in force from then on. *)
Record Location : Type := MkLocation {
  zone_first : Z;
  zone_trans : list (Z * Z)
}.

Definition UTC : Location := MkLocation 0 [].

Definition alpha : Z := - 2 ^ 63.
Definition omega : Z := 2 ^ 63 - 1.

Fixpoint lookup_from (off start : Z) (tx : list (Z * Z)) (sec : Z) : Z * Z * Z :=
  match tx with
  | [] => (off, start, omega)
  | (w, o) :: tx' =>
      if sec <? w then (off, start, w) else lookup_from o w tx' sec
  end.

(** [Location.lookup]: the offset in force at the instant [sec] and the
    bounds [start <= sec < end] of the period in which it is in force. *)
Definition lookup (l : Location) (sec : Z) : Z * Z * Z :=
  lookup_from (zone_first l) alpha (zone_trans l) sec.

Definition offset_at (l : Location) (sec : Z) : Z := fst (fst (lookup l sec)).

(** [Date (...).Unix ()]: the instant of a wall-clock reading in [l].
    The reading is first taken as if it were UTC, then moved by the zone
    offset found there, or by the offset found at the moved instant when
    that instant falls outside the period of the first one.  (Releases
    differ in how they pick the second offset next to a transition; a
    reading that a transition skips is mapped to another wall-clock time
    by all of them.) *)
Definition Date_unix (l : Location) (c : Clock) : Z :=
  let unix := clock_seconds c in
  let '(offset, start, end_) := lookup l unix in
  if offset =? 0 then unix
  else
    let utc := unix - offset in
    let offset' :=
      if (utc <? start) || (end_ <=? utc) then offset_at l utc else offset in
    unix - offset'.

(** The wall clock of [l] at the instant [sec] ([time.Unix (sec, 0)]
    read in [l]). *)
Definition local_clock (l : Location) (sec : Z) : Clock :=
  clock_of_seconds (sec + offset_at l sec).

(** *** Parsing with the layout [2006-01-02 15:04:05] *)

(** [getnum]: a number of two digits, or of one digit when [fixed] is
    off and no second digit follows. *)
Definition getnum (s : string) (fixed : bool) : option (Z * string) :=
  match s with
  | String a s' =>
      if is_digit a then
        match s' with
        | String b s'' =>
            if is_digit b then Some (digit_val a * 10 + digit_val b, s'')
            else if fixed then None else Some (digit_val a, s')
        | EmptyString => if fixed then None else Some (digit_val a, s')
        end
      else None
  | EmptyString => None
  end.

(** The year: exactly four digits. *)
Definition getyear (s : string) : option (Z * string) :=
  match s with
  | String a (String b (String c (String d s'))) =>
      if is_digit a && is_digit b && is_digit c && is_digit d then
        Some (((digit_val a * 10 + digit_val b) * 10 + digit_val c) * 10
              + digit_val d, s')
      else None
  | _ => None
  end.

(** [skip] of one literal byte of the layout other than a space. *)
Definition skip_char (c : ascii) (s : string) : option string :=
  match s with
  | String a s' => if Ascii.eqb a c then Some s' else None
  | EmptyString => None
  end.

Fixpoint cutspace (s : string) : string :=
  match s with
  | String a s' => if Ascii.eqb a " "%char then cutspace s' else s
  | EmptyString => s
  end.

(** [skip] of a space of the layout: the value may not go on with
    another byte, and all the spaces at its head are dropped. *)
Definition skip_space (s : string) : option string :=
  match s with
  | String a _ => if Ascii.eqb a " "%char then Some (cutspace s) else None
  | EmptyString => Some s
  end.

Fixpoint cutdigits (s : string) : string :=
  match s with
  | String a s' => if is_digit a then cutdigits s' else s
  | EmptyString => s
  end.

(** After the seconds, a fraction of a second is read although the
    layout has none: a point or a comma followed by digits. *)
Definition skip_fraction (s : string) : string :=
  match s with
  | String a (String b s') =>
      if (Ascii.eqb a "."%char || Ascii.eqb a ","%char) && is_digit b
      then cutdigits s' else s
  | _ => s
  end.

Definition in_range (lo hi x : Z) : bool := (lo <=? x) && (x <? hi).

(** [Parse] with the layout [2006-01-02 15:04:05]: the fields of the
    value, or [None] for a value that the layout rejects or whose fields
    are out of range.  The fraction of a second is dropped, as [Unix]
    drops it. *)
Definition parse_layout (s : string) : option Clock :=
  '(y, s) ← getyear s;
  s ← skip_char "-"%char s;
  '(mo, s) ← getnum s true;
  if negb (in_range 1 13 mo) then None else
  s ← skip_char "-"%char s;
  '(d, s) ← getnum s true;
  s ← skip_space s;
  '(h, s) ← getnum s false;
  if negb (in_range 0 24 h) then None else
  s ← skip_char ":"%char s;
  '(mi, s) ← getnum s true;
  if negb (in_range 0 60 mi) then None else
  s ← skip_char ":"%char s;
  '(se, s) ← getnum s true;
  if negb (in_range 0 60 se) then None else
  match skip_fraction s with
  | EmptyString =>
      if (1 <=? d) && (d <=? daysIn mo y) then Some (MkClock y mo d h mi se)
      else None
  | _ => None
  end.

(** Two digits, and four digits, with leading zeros. *)
Definition digit_char (n : Z) : ascii := chr (48 + n).

Definition pad2 (n : Z) : string :=
  String (digit_char (n / 10)) (String (digit_char (n mod 10)) EmptyString).

Definition pad4 (n : Z) : string :=
  String (digit_char (n / 1000))
    (String (digit_char ((n / 100) mod 10))
       (String (digit_char ((n / 10) mod 10))
          (String (digit_char (n mod 10)) EmptyString))).

(** [Format] with the layout [2006-01-02]. *)
Definition format_date (c : Clock) : string :=
  pad4 (year c) +:+ "-" +:+ pad2 (month c) +:+ "-" +:+ pad2 (day c).

(** [Format] with the layout [2006-01-02 15:04:05]: the literal form
    [YYYY-MM-DD HH:MM:SS] of a reading. *)
Definition format_clock (c : Clock) : string :=
  format_date c +:+ " " +:+ pad2 (hour c) +:+ ":" +:+ pad2 (minute c)
  +:+ ":" +:+ pad2 (second c).

End Time.

(** ** The program: [main.go] *)

(** [type Prover struct]; a [json.Number] is the text of the number. *)
Record Prover : Type := MkProver {
  Address : string;
  TotalPuzzleCredits : string;
  TotalPuzzleCreditsPercentage : string;
  DailyPuzzleCredits : string;
  DailyPuzzleCreditsPercentage : string;
  NetworkSpeed : string;
  NetworkSpeedPercentage : string
}.

Definition zeroProver : Prover :=
  MkProver EmptyString EmptyString EmptyString EmptyString EmptyString
    EmptyString EmptyString.

(** [json.Number.Float64]. *)
Definition Float64 (n : string) : Float64.float64 * option Strconv.NumError :=
  Strconv.ParseFloat n.

(** ** [json.Unmarshal] into [struct { Data []Prover `json:"data"` }] *)

Module Decode.
Import Chars Json.

Inductive DecodeError : Type :=
| SyntaxError
| UnmarshalTypeError (value : string) (target : string)
| InvalidNumberLiteral (lit : string).

(** The decoder goes on after a value that does not suit its target (a
    value of the wrong JSON type, or a string that is no number where a
    number is due) and leaves the target as it is; at the end it reports
    the first error that it met ([saved]).  (Older releases of the
    library stop at a string that is no number and report it even after
    an error of type; which of the errors of a text is reported is the
    only difference, since the records are dropped with any error.) *)
Inductive dres (A : Type) : Type :=
| Soft (a : A) (saved : option DecodeError).
Arguments Soft {A} a saved.

Definition first_error (s1 s2 : option DecodeError) : option DecodeError :=
  match s1 with Some e => Some e | None => s2 end.

(** One decoding step after another. *)
Definition seq {A B} (r : dres A) (k : A -> dres B) : dres B :=
  let 'Soft a sv := r in
  let 'Soft b sv' := k a in
  Soft b (first_error sv sv').

Definition kind_name (v : json) : string :=
  match v with
  | JNull => "null"
  | JBool _ => "bool"
  | JNum _ => "number"
  | JStr _ => "string"
  | JArr _ => "array"
  | JObj _ => "object"
  end.

(** A JSON value stored into a field of type [string]. *)
Definition store_string (old : string) (v : json) : dres string :=
  match v with
  | JStr s => Soft s None
  | JNull => Soft old None
  | _ => Soft old (Some (UnmarshalTypeError (kind_name v) "string"))
  end.

(** A JSON value stored into a field of type [json.Number]: a number
    keeps its text, and so does a string whose text is a number. *)
Definition store_number (old : string) (v : json) : dres string :=
  match v with
  | JNum lit => Soft lit None
  | JStr s =>
      if Strconv.isValidNumber s then Soft s None
      else Soft old (Some (InvalidNumberLiteral s))
  | JNull => Soft old None
  | _ => Soft old (Some (UnmarshalTypeError (kind_name v) "json.Number"))
  end.

(** Keys are matched to field names without regard to case; besides the
    ASCII letters, U+017F folds to [s] and U+212A to [k]. *)
Fixpoint fold_key (s : string) : string :=
  match s with
  | EmptyString => EmptyString
  | String c s' =>
      match s' with
      | String c1 s1 =>
          if (code c =? 197) && (code c1 =? 191) then String "s"%char (fold_key s1)
          else
            match s1 with
            | String c2 s2 =>
                if (code c =? 226) && (code c1 =? 132) && (code c2 =? 170)
                then String "k"%char (fold_key s2)
                else String (lower c) (fold_key s')
            | EmptyString => String (lower c) (fold_key s')
            end
      | EmptyString => String (lower c) (fold_key s')
      end
  end.

Definition key_is (name key : string) : bool :=
  String.eqb (fold_key key) (lower_string name).

Definition set_string (f : string -> Prover) (old : string) (v : json)
  : dres Prover :=
  let 'Soft s sv := store_string old v in Soft (f s) sv.

Definition set_number (f : string -> Prover) (old : string) (v : json)
  : dres Prover :=
  let 'Soft s sv := store_number old v in Soft (f s) sv.

(** One member [key : v] of a JSON object decoded into the struct [p];
    a key that names no field is passed over. *)
Definition decode_field (p : Prover) (key : string) (v : json) : dres Prover :=
  let '(MkProver a tc tcp dc dcp ns nsp) := p in
  if key_is "Address" key then
    set_string (fun x => MkProver x tc tcp dc dcp ns nsp) a v
  else if key_is "TotalPuzzleCredits" key then
    set_number (fun x => MkProver a x tcp dc dcp ns nsp) tc v
  else if key_is "TotalPuzzleCreditsPercentage" key then
    set_string (fun x => MkProver a tc x dc dcp ns nsp) tcp v
  else if key_is "DailyPuzzleCredits" key then
    set_number (fun x => MkProver a tc tcp x dcp ns nsp) dc v
  else if key_is "DailyPuzzleCreditsPercentage" key then
    set_string (fun x => MkProver a tc tcp dc x ns nsp) dcp v
  else if key_is "NetworkSpeed" key then
    set_number (fun x => MkProver a tc tcp dc dcp x nsp) ns v
  else if key_is "NetworkSpeedPercentage" key then
    set_string (fun x => MkProver a tc tcp dc dcp ns x) nsp v
  else Soft p None.

Fixpoint decode_fields (p : Prover) (fields : list (string * json))
  : dres Prover :=
  match fields with
  | [] => Soft p None
  | (k, v) :: rest =>
      seq (decode_field p k v) (fun p' => decode_fields p' rest)
  end.

(** A JSON value decoded into a [Prover] that holds [old]. *)
Definition decode_prover (old : Prover) (v : json) : dres Prover :=
  match v with
  | JObj fields => decode_fields old fields
  | JNull => Soft old None
  | _ => Soft old (Some (UnmarshalTypeError (kind_name v) "main.Prover"))
  end.

(** A slice [[]Prover]: its length and what its backing array holds,
    from the first element on; the elements of the array beyond the end
    of [backing], and those of an array that the slice grows into, are
    zero.  The elements of the slice are the first [slen] ones. *)
Record slice : Type := MkSlice {
  backing : list Prover;
  slen : nat
}.

Definition nil_slice : slice := MkSlice [] 0.

Definition elements (s : slice) : list Prover := take (slen s) (backing s).

(** The items of a JSON array decoded one by one into the elements of
    the backing array [store]: item [i] is decoded into element [i],
    which keeps the fields that the item does not give.  This is so also
    for an element beyond the length that the slice had, which holds
    what an earlier array left there. *)
Fixpoint decode_items (store : list Prover) (items : list json)
  : dres (list Prover) :=
  match items with
  | [] => Soft [] None
  | v :: rest =>
      seq (decode_prover (hd zeroProver store) v)
        (fun p => seq (decode_items (tl store) rest)
                    (fun ps => Soft (p :: ps) None))
  end.

(** A JSON value decoded into the field [Data []Prover]: an array gives
    the slice the length of the array and leaves the elements of the
    backing array beyond that length as they are; an empty array gives a
    new empty slice, and [null] gives [nil]. *)
Definition decode_slice (s : slice) (v : json) : dres slice :=
  match v with
  | JArr [] => Soft nil_slice None
  | JArr items =>
      seq (decode_items (backing s) items)
        (fun ps =>
           Soft (MkSlice (ps ++ drop (List.length items) (backing s))
                   (List.length items)) None)
  | JNull => Soft nil_slice None
  | _ => Soft s (Some (UnmarshalTypeError (kind_name v) "[]main.Prover"))
  end.

Fixpoint decode_envelope_fields (data : slice)
    (fields : list (string * json)) : dres slice :=
  match fields with
  | [] => Soft data None
  | (k, v) :: rest =>
      seq (if key_is "data" k then decode_slice data v else Soft data None)
        (fun data' => decode_envelope_fields data' rest)
  end.

(** A JSON value decoded into the envelope, whose [Data] is [nil]. *)
Definition decode_envelope (v : json) : dres (list Prover) :=
  match v with
  | JObj fields =>
      seq (decode_envelope_fields nil_slice fields)
        (fun s => Soft (elements s) None)
  | JNull => Soft [] None
  | _ => Soft [] (Some (UnmarshalTypeError (kind_name v) "struct"))
  end.

(** [json.Unmarshal (body, &data)] followed by [data.Data]. *)
Definition Unmarshal (body : string) : DecodeError + list Prover :=
  match parse body with
  | None => inl SyntaxError
  | Some v =>
      match decode_envelope v with
      | Soft _ (Some e) => inl e
      | Soft data None => inr data
      end
  end.

End Decode.

(** ** [xlsx]: the cells of the sheet *)

Module Xlsx.
Import Float64.

(** A cell as the program fills it: a text ([cell.Value = s], in bold
    when the header style is set), a number with a format
    ([SetFloatWithFormat]) or an integer ([SetInt]). *)
Inductive Cell : Type :=
| TextCell (Value : string) (bold : bool)
| FloatCell (n : float64) (NumFmt : string)
| IntCell (n : Z).

Definition Row : Type := list Cell.
Definition Sheet : Type := list Row.

(** The display of a number cell with the number format [0.00], two
    decimal places.  The program only stores the value and the format;
    the spreadsheet application renders them.  Here the exact binary
    value is rounded to hundredths, halves away from zero. *)
Definition hundredths (m e : Z) : Z :=
  if 0 <=? e then m * 2 ^ e * 100
  else (2 * (m * 100) + 2 ^ (- e)) / (2 * 2 ^ (- e)).

Definition show_fixed2 (x : float64) : string :=
  match x with
  | FFin neg m e =>
      let h := hundredths m e in
      (if neg && negb (m =? 0) then "-" else "")
      +:+ Strconv.Itoa (h / 100) +:+ "." +:+ Time.pad2 (h mod 100)
  | FInf neg => if neg then "-Inf" else "+Inf"
  | FNaN => "NaN"
  end.

End Xlsx.

(** ** The outside world and the effects of a run *)

(** What the call of [client.Do] comes to.  The client is the default
    one, which follows redirects on its own: the response is the one
    that it returns in the end, after the redirects that it followed. *)
Inductive HttpOutcome : Type :=
| RequestInvalid        (* [http.NewRequest] fails: nothing is sent *)
| TransportFailure      (* [client.Do] fails *)
| Response (StatusCode : Z) (Status : string) (body : option string).
                        (* [body = None]: [ioutil.ReadAll] fails *)

(** A request that the client sends on its own, after an answer that
    redirects the request before it: a [GET] without body after the
    status 301, 302 or 303, the [POST] again with the same body after
    307 or 308. *)
Inductive Hop : Type :=
| HopGet (url : string)
| HopPost (url : string).

(** What opening and reading a file comes to. *)
Inductive FileOutcome : Type :=
| OpenFails
| Opens (text : string) (fault : bool).

(** Everything a run depends on besides its command line. *)
Record World : Type := MkWorld {
  local_zone : option Time.Location;   (* [time.LoadLocation ("Local")] *)
  http_post : string -> string -> HttpOutcome;  (* by URL and body sent *)
  redirects : string -> string -> list Hop;
                     (* the redirects that the client follows in this call,
                        as the servers and its policy decide *)
  open_file : string -> FileOutcome;
  now : Z;                              (* [time.Now ()], in seconds *)
  save_fails : string -> bool           (* [file.Save] by file name *)
}.

Inductive Error : Type :=
| ErrLoadLocation
| ErrParseTime (value : string)
| ErrNewRequest
| ErrTransport
| ErrStatus (Status : string)
| ErrReadBody
| ErrDecode (e : Decode.DecodeError)
| ErrOpen (path : string)
| ErrCsv (e : Csv.CsvError)
| ErrSave (name : string)
| Wrap (context : string) (e : Error).   (* [fmt.Errorf ("...: %v", err)] *)

(** The effects of a run that can be observed from outside, in the
    order in which they happen. *)
Inductive Event : Type :=
| EvPrint (text : string)
| EvPost (url payload : string)     (* the request given to [client.Do] *)
| EvFollow (hops : list Hop)        (* the further requests of that call,
                                       one or more, in order *)
| EvOpen (path : string)
| EvRead (path : string)
| EvClose (path : string)
| EvSave (name : string) (sheet : Xlsx.Sheet)
| EvSaveFailed (name : string)
| EvFatal (e : Error).

(** A computation with effects: the events it causes and its error or
    its result. *)
Definition M (A : Type) : Type := list Event * (Error + A).

Definition ret {A} (a : A) : M A := ([], inr a).
Definition fail {A} (e : Error) : M A := ([], inl e).
Definition emit (ev : Event) : M unit := ([ev], inr tt).

Definition bind {A B} (m : M A) (k : A -> M B) : M B :=
  match m with
  | (t, inl e) => (t, inl e)
  | (t, inr a) => let '(t', r) := k a in (t ++ t', r)
  end.

(** [if err != nil { return fmt.Errorf (context, err) }]. *)
Definition wrap {A} (context : string) (m : M A) : M A :=
  match m with
  | (t, inl e) => (t, inl (Wrap context e))
  | (t, inr a) => (t, inr a)
  end.

Notation "x <-- m ;; k" := (bind m (fun x => k))
  (at level 100, m at next level, right associativity).
Notation "m ;;; k" := (bind m (fun _ => k))
  (at level 100, right associativity).

(** ** [fetchProverRankList] *)

Definition StatusOK : Z := 200.

Definition payload (startTime endTime : Z) : string :=
  "{" +:+ Chars.squote "'start_time': " +:+ Strconv.Itoa startTime
  +:+ Chars.squote ", 'end_time': " +:+ Strconv.Itoa endTime +:+ "}".

(** The requests that the client sends after the first one, while it
    follows redirects. *)
Definition followed (w : World) (url body : string) : list Event :=
  match redirects w url body with
  | [] => []
  | hops => [EvFollow hops]
  end.

(** [client.Do (req)]: the request goes out, and so do the requests
    that the client makes of the redirects. *)
Definition Do (w : World) (url body : string) : M unit :=
  (EvPost url body :: followed w url body, inr tt).

Definition fetchProverRankList (w : World) (apiURL : string)
    (startTime endTime : Z) : M (list Prover) :=
  let body := payload startTime endTime in
  match http_post w apiURL body with
  | RequestInvalid => fail ErrNewRequest
  | TransportFailure => Do w apiURL body ;;; fail ErrTransport
  | Response StatusCode Status rbody =>
      Do w apiURL body ;;;
      if negb (StatusCode =? StatusOK) then fail (ErrStatus Status)
      else
        match rbody with
        | None => fail ErrReadBody
        | Some text =>
            match Decode.Unmarshal text with
            | inl e => fail (ErrDecode e)
            | inr data => ret data
            end
        end
  end.

(** ** [readClusterNames] *)

(** The loop over the results of [reader.Read]; the list is used up
    when [Read] returns [io.EOF]. *)
Fixpoint clusterLoop (results : list Csv.ReadResult)
    (clusterMap : gmap string string) : Error + gmap string string :=
  match results with
  | [] => inr clusterMap
  | (_, Some err) :: _ => inl (ErrCsv err)
  | (record, None) :: rest =>
      match record with
      | name :: address :: _ => clusterLoop rest (<[address := name]> clusterMap)
      | _ => clusterLoop rest clusterMap
      end
  end.

Definition readClusterNames (w : World) (filePath : string)
  : M (gmap string string) :=
  match open_file w filePath with
  | OpenFails => fail (ErrOpen filePath)
  | Opens text fault =>
      ([EvOpen filePath; EvRead filePath; EvClose filePath],
       clusterLoop (Csv.read_results text fault) ∅)
  end.

(** ** [parseDateTime] *)

Definition parseDateTime (w : World) (dateTimeStr : string) : M Z :=
  match local_zone w with
  | None => fail ErrLoadLocation
  | Some loc =>
      match Time.parse_layout dateTimeStr with
      | None => fail (ErrParseTime dateTimeStr)
      | Some c => ret (Time.Date_unix loc c)
      end
  end.

(** ** [main] *)

Import Xlsx.

Definition header : list string :=
  ["排名"; "标记"; "地址"; "累计出块奖励(Puzzle Credits)"; "占全网比例";
   "昨日奖励"; "单日奖励占比"; "节点速率(M s/s)"; "速率占比";
   "GPU数量/3080"; "GPU数量/4090"].

Definition headerRow : Row := (fun h => TextCell h true) <$> header.

(** The body of the loop [for i, prover := range provers]: the row of
    the prover at index [i]. *)
Definition proverRow (clusterNames : gmap string string) (i : nat)
    (prover : Prover) : Row :=
  let totalPuzzleCredits := fst (Float64 (TotalPuzzleCredits prover)) in
  let dailyPuzzleCredits := fst (Float64 (DailyPuzzleCredits prover)) in
  let networkSpeed := fst (Float64 (NetworkSpeed prover)) in
  [ TextCell (Strconv.Itoa (Z.of_nat i + 1)) false;
    TextCell (default EmptyString (clusterNames !! Address prover)) false;
    TextCell (Address prover) false;
    FloatCell totalPuzzleCredits "0.00";
    TextCell (TotalPuzzleCreditsPercentage prover) false;
    FloatCell dailyPuzzleCredits "0.00";
    TextCell (DailyPuzzleCreditsPercentage prover) false;
    FloatCell (Float64.div networkSpeed (Float64.of_Z 1000000)) "0.00";
    TextCell (NetworkSpeedPercentage prover) false;
    IntCell (Float64.to_int (Float64.div networkSpeed (Float64.of_Z 15000)));
    IntCell (Float64.to_int (Float64.div networkSpeed (Float64.of_Z 43000))) ].

Definition dataRows (clusterNames : gmap string string)
    (provers : list Prover) : list Row :=
  imap (proverRow clusterNames) provers.

Definition buildSheet (clusterNames : gmap string string)
    (provers : list Prover) : Sheet :=
  headerRow :: dataRows clusterNames provers.

Definition outputFileName (w : World) : string :=
  let loc := default Time.UTC (local_zone w) in
  "aleo大矿工统计-" +:+ Time.format_date (Time.local_clock loc (now w))
  +:+ ".xlsx".

Definition save (w : World) (name : string) (sheet : Sheet) : M unit :=
  if save_fails w name then emit (EvSaveFailed name) ;;; fail (ErrSave name)
  else emit (EvSave name sheet).

Definition nl : string := String Chars.newline EmptyString.

(** The command line: the values of the four flags. *)
Record Flags : Type := MkFlags {
  start_datetime : string;
  end_datetime : string;
  cluster_file : string;
  api_url : string
}.

(** The [Action] of the application.  [file.AddSheet ("Sheet1")] on a
    new file cannot fail (the name is valid and not yet taken), so its
    error branch is left out; the sheet is built in memory and reaches
    the outside only through [file.Save]. *)
Definition action (w : World) (c : Flags) : M unit :=
  startTime <-- wrap "error parsing start date and time"
                  (parseDateTime w (start_datetime c)) ;;
  endTime <-- wrap "error parsing end date and time"
                (parseDateTime w (end_datetime c)) ;;
  emit (EvPrint ("Start timestamp: " +:+ Strconv.Itoa startTime +:+ nl)) ;;;
  emit (EvPrint ("End timestamp: " +:+ Strconv.Itoa endTime +:+ nl)) ;;;
  provers <-- wrap "error fetching prover rank list"
                (fetchProverRankList w (api_url c) startTime endTime) ;;
  clusterNames <-- wrap "error reading cluster names"
                     (readClusterNames w (cluster_file c)) ;;
  let sheet := buildSheet clusterNames provers in
  let outputFileName := outputFileName w in
  wrap "error saving file" (save w outputFileName sheet) ;;;
  emit (EvPrint ("数据已保存到 " +:+ outputFileName +:+ nl)).

(** [main]: the action, and [log.Fatal] on its error.  The result is
    the trace of the run. *)
Definition main (w : World) (c : Flags) : list Event :=
  match action w c with
  | (t, inl e) => t ++ [EvFatal e]
  | (t, inr _) => t
  end.

(** * Definitions for the statements *)

Import Json.

(** Reading a decimal text back ([strconv.Atoi] on the texts that
    [Itoa] writes). *)
Definition Atoi (s : string) : option Z :=
  Z.of_int <$> DecimalString.NilZero.int_of_string s.

(** Two records, for the examples. *)
Definition sample_provers : list Prover :=
  [ MkProver "addr1" "100.5" "10%" "1.5" "2%" "30000" "3%";
    MkProver "addr2" "7" "1%" "0.5" "1%" "-45000" "0%" ].

(** The events that write the output file, or try to. *)
Definition is_save (ev : Event) : bool :=
  match ev with EvSave _ _ | EvSaveFailed _ => true | _ => false end.

(** The HTTP requests. *)
Definition is_post (ev : Event) : bool :=
  match ev with EvPost _ _ | EvFollow _ => true | _ => false end.

(** The same world with other files. *)
Definition with_files (w : World) (f : string -> FileOutcome) : World :=
  MkWorld (local_zone w) (http_post w) (redirects w) f (now w) (save_fails w).

(** The HTTP requests of a run, computed without looking at any file. *)
Definition posts_of (w : World) (c : Flags) : list Event :=
  match local_zone w with
  | None => []
  | Some loc =>
      match Time.parse_layout (start_datetime c),
            Time.parse_layout (end_datetime c) with
      | Some c0, Some c1 =>
          let body := payload (Time.Date_unix loc c0) (Time.Date_unix loc c1) in
          match http_post w (api_url c) body with
          | RequestInvalid => []
          | _ => EvPost (api_url c) body :: followed w (api_url c) body
          end
      | _, _ => []
      end
  end.

(** Splits a run into the cases of its control flow: the outcome of each
    stage that is reached. *)
Ltac run_cases :=
  unfold main, action, parseDateTime, fetchProverRankList, Do, followed,
    readClusterNames, save, wrap, bind, emit, fail, ret;
  repeat (match goal with
          | |- context [match ?x with _ => _ end] =>
              lazymatch x with
              | context [match _ with _ => _ end] => fail
              | _ => destruct x eqn:?
              end
          | |- context [if ?x then _ else _] => destruct x eqn:?
          end; cbn [app fst snd]).

(** Replays the outcomes found by [run_cases] inside a stage. *)
Ltac replay_outcomes :=
  repeat match goal with
         | Hx : ?x = _ |- context [match ?x with _ => _ end] => rewrite Hx
         | Hx : ?x = _ |- context [if ?x then _ else _] => rewrite Hx
         end.

(** Finds the index at which a trace that is known holds an event. *)
Ltac at_index H :=
  repeat match type of H with
         | (_ :: _) !! ?i = Some _ =>
             destruct i; cbn [lookup list_lookup] in H;
             [ try (injection H as H; try subst) | ]
         | [] !! _ = Some _ => discriminate H
         end.

(** The response of the specification, with one record. *)
Definition sample_body : string :=
  Chars.squote
    "{'data':[{'Address':'addr1','TotalPuzzleCredits':'100.5','TotalPuzzleCreditsPercentage':'10%','DailyPuzzleCredits':'1.5','DailyPuzzleCreditsPercentage':'2%','NetworkSpeed':'30000','NetworkSpeedPercentage':'3%'}]}".

(** The label file of the specification. *)
Definition sample_labels : string := "Alice,addr1" +:+ nl +:+ "Bob,addr2" +:+ nl.

(** A world in which every stage succeeds. *)
Definition sample_world : World :=
  MkWorld (Some Time.UTC)
    (fun _ _ => Response 200 "200 OK" (Some sample_body))
    (fun _ _ => [])
    (fun _ => Opens sample_labels false)
    1700000000
    (fun _ => false).

(** A command line. *)
Definition sample_flags : Flags :=
  MkFlags "2023-01-01 00:00:00" "2023-01-02 00:00:00" "cluster.csv"
    "http://localhost:8088/api/v1/provers/prover_rank_list".

(** The same run against a service that answers 503. *)
Definition unavailable_world : World :=
  MkWorld (Some Time.UTC)
    (fun _ _ => Response 503 "503 Service Unavailable" (Some "busy"))
    (fun _ _ => [])
    (fun _ => Opens sample_labels false)
    1700000000
    (fun _ => false).

(** The events on the label file. *)
Definition touches_label_file (ev : Event) : bool :=
  match ev with EvOpen _ | EvRead _ | EvClose _ => true | _ => false end.

(** The JSON value of a response with one record whose decimal fields
    are given as strings and whose network speed is 30000. *)
Definition one_record (a tc tcp dc dcp nsp : string) : json :=
  JObj [("data",
         JArr [JObj [("Address", JStr a);
                     ("TotalPuzzleCredits", JStr tc);
                     ("TotalPuzzleCreditsPercentage", JStr tcp);
                     ("DailyPuzzleCredits", JStr dc);
                     ("DailyPuzzleCreditsPercentage", JStr dcp);
                     ("NetworkSpeed", JStr "30000");
                     ("NetworkSpeedPercentage", JStr nsp)]])].

(** A response with a number beyond the range of [float64] and with
    fields that are absent. *)
Definition odd_body : string :=
  Chars.squote "{'data':[{'Address':'addr1','TotalPuzzleCredits':1e999}]}".

(** A service that answers with it. *)
Definition odd_world : World :=
  MkWorld (Some Time.UTC)
    (fun _ _ => Response 200 "200 OK" (Some odd_body))
    (fun _ _ => [])
    (fun _ => Opens sample_labels false)
    1700000000
    (fun _ => false).

(** A world whose files all hold [text]. *)
Definition labels_world (text : string) : World :=
  MkWorld (Some Time.UTC) (fun _ _ => TransportFailure) (fun _ _ => [])
    (fun _ => Opens text false) 0 (fun _ => false).

Module Shape.
Import Decode.

(** The shape that the specification names: an envelope with the single
    member [data], an array whose items are objects. *)
Definition is_object (v : json) : bool :=
  match v with JObj _ => true | _ => false end.

Definition expected_shape (v : json) : bool :=
  match v with
  | JObj [(k, JArr items)] => String.eqb k "data" && forallb is_object items
  | _ => false
  end.

(** The values that the decoder stores into a field without error. *)
Definition string_ok (v : json) : bool :=
  match v with JStr _ | JNull => true | _ => false end.

Definition number_ok (v : json) : bool :=
  match v with
  | JNum _ | JNull => true
  | JStr s => Strconv.isValidNumber s
  | _ => false
  end.

(** A member of a record: when its key names a field (without regard
    to case), its value has to suit the type of the field. *)
Definition member_ok (kv : string * json) : bool :=
  let '(k, v) := kv in
  if key_is "Address" k then string_ok v
  else if key_is "TotalPuzzleCredits" k then number_ok v
  else if key_is "TotalPuzzleCreditsPercentage" k then string_ok v
  else if key_is "DailyPuzzleCredits" k then number_ok v
  else if key_is "DailyPuzzleCreditsPercentage" k then string_ok v
  else if key_is "NetworkSpeed" k then number_ok v
  else if key_is "NetworkSpeedPercentage" k then string_ok v
  else true.

Definition record_ok (v : json) : bool :=
  match v with
  | JObj fields => forallb member_ok fields
  | JNull => true
  | _ => false
  end.

Definition data_ok (v : json) : bool :=
  match v with
  | JArr items => forallb record_ok items
  | JNull => true
  | _ => false
  end.

Definition envelope_member_ok (kv : string * json) : bool :=
  let '(k, v) := kv in if key_is "data" k then data_ok v else true.

(** The JSON values that are decoded without error: [null] or an
    object; each member named [data] is [null] or an array; each item of
    such an array is [null] or an object; each member of such an object
    that names a field suits the type of the field.  Members with other
    keys are free, and no member is required. *)
Definition compatible (v : json) : bool :=
  match v with
  | JObj fields => forallb envelope_member_ok fields
  | JNull => true
  | _ => false
  end.

Definition dres_ok {A} (r : dres A) : bool :=
  match r with Soft _ None => true | _ => false end.

End Shape.

(** The values of the members named [data] (without regard to case)
    among the members [fields] of an envelope, in the order of the text,
    and those of a JSON value. *)
Definition data_values (fields : list (string * json)) : list json :=
  snd <$> filter (fun kv => Decode.key_is "data" kv.1 = true) fields.

Definition data_members (v : json) : list json :=
  match v with
  | JObj fields => data_values fields
  | _ => []
  end.

(** The items of the last member named [data], when it is an array;
    none when it is [null] or when there is no such member. *)
Definition last_items (v : json) : list json :=
  match last (data_members v) with
  | Some (JArr items) => items
  | _ => []
  end.

(** None of the values [ds] is an array with an item at index [i]. *)
Definition unreached (i : nat) (ds : list json) : Prop :=
  Forall (fun d => match d with
                   | JArr items => (List.length items <= i)%nat
                   | _ => True
                   end) ds.

(** A response whose envelope names [data] three times: two records, then
    one, then two again, the last of them empty. *)
Definition thrice_body : string :=
  Chars.squote
    "{'data':[{'Address':'a','NetworkSpeed':1},{'Address':'c','NetworkSpeed':2}],'data':[{'Address':'x'}],'data':[{'Address':'b'},{}]}".

(** A service that answers 200 with the given text. *)
Definition answering (text : string) : World :=
  MkWorld (Some Time.UTC) (fun _ _ => Response 200 "200 OK" (Some text))
    (fun _ _ => [])
    (fun _ => OpenFails) 0 (fun _ => false).

(** [m * 2^e] is the integer [v]. *)
Definition represents (m e v : Z) : Prop :=
  (0 <= e /\ m * 2 ^ e = v) \/ (e < 0 /\ m = v * 2 ^ (- e)).

(** [t] is the integer part of [m * 2^e], for [0 <= m]. *)
Definition integer_part (m e t : Z) : Prop :=
  (0 <= e /\ t = m * 2 ^ e)
  \/ (e < 0 /\ t * 2 ^ (- e) <= m < (t + 1) * 2 ^ (- e)).

(** [n] is the count that the quotient [q] gives: for a finite quotient
    the integer part of its magnitude with its sign, when this integer
    is in the range of [int64]; for every other quotient, what the
    conversion gives on amd64, the least [int64]. *)
Definition count_of (q : Float64.float64) (n : Z) : Prop :=
  match q with
  | Float64.FFin neg m e =>
      0 <= m
      /\ exists t,
           integer_part m e t
           /\ n = (let v := if neg then - t else t in
                   if (- 2 ^ 63 <=? v) && (v <=? 2 ^ 63 - 1) then v
                   else - 2 ^ 63)
  | _ => n = - 2 ^ 63
  end.

(** The value of an integer literal. *)
Definition integer_literal (text : string) (s : Z) : Prop :=
  exists neg a,
    Strconv.parse_number text = Some (Strconv.NumLit neg a 0 0)
    /\ 0 <= a /\ s = (if neg then - a else a).

(** Day of the cycle on which year [r] (counted from 0) of a cycle of
    400 years starts. *)
Definition cycle_start (r : Z) : Z := 365 * r + r / 4 - r / 100.

(** Number of days of year [y]. *)
Definition year_length (y : Z) : Z := if Time.is_leap y then 366 else 365.

(** Splits on the integer comparisons of the goal. *)
Ltac bool_cases :=
  repeat match goal with
         | |- context [?a =? ?b] => destruct (Z.eqb_spec a b)
         | |- context [?a <? ?b] => destruct (Z.ltb_spec a b)
         | |- context [?a <=? ?b] => destruct (Z.leb_spec a b)
         end.

(** The zone offset is the same at the reading taken as UTC and at the
    instant that this offset gives: no transition of the zone lies
    between the two. *)
Definition steady (loc : Time.Location) (c : Time.Clock) : Prop :=
  Time.offset_at loc
    (Time.clock_seconds c - Time.offset_at loc (Time.clock_seconds c))
  = Time.offset_at loc (Time.clock_seconds c).

(** The offsets that a zone can be in. *)
Definition zone_offsets (loc : Time.Location) : list Z :=
  Time.zone_first loc :: (snd <$> Time.zone_trans loc).

(** The transitions come in increasing order of their instant, as the
    zone files have them. *)
Fixpoint increasing (tx : list (Z * Z)) : bool :=
  match tx with
  | [] => true
  | (w, _) :: tx' =>
      match tx' with
      | [] => true
      | (w', _) :: _ => (w <? w') && increasing tx'
      end
  end.

(** The instants of the transitions of a zone that are at most [B]
    seconds away from [x]. *)
Definition transitions_near (B : Z) (loc : Time.Location) (x : Z) : list Z :=
  List.filter (fun w => (x - B <=? w) && (w <=? x + B))
    (fst <$> Time.zone_trans loc).

(** Texts made of spaces only, and of digits only. *)
Fixpoint all_spaces (s : string) : bool :=
  match s with
  | EmptyString => true
  | String a s' => Ascii.eqb a " "%char && all_spaces s'
  end.

Fixpoint all_digits (s : string) : bool :=
  match s with
  | EmptyString => true
  | String a s' => Chars.is_digit a && all_digits s'
  end.

(** Nothing, or a point or a comma followed by one or more digits. *)
Definition is_fraction (s : string) : bool :=
  match s with
  | EmptyString => true
  | String sep ds =>
      (Ascii.eqb sep "."%char || Ascii.eqb sep ","%char)
      && match ds with EmptyString => false | _ => all_digits ds end
  end.

(** The hour in two digits, or in one digit when it is below ten. *)
Definition hour_text (h : Z) (t : string) : Prop :=
  t = Time.pad2 h
  \/ (0 <= h <= 9 /\ t = String (Time.digit_char h) EmptyString).

(** The values that the layout accepts for the reading [c]: the literal
    form, in which further spaces may follow the space after the date,
    the hour may have one digit, and a fraction of a second may come
    last. *)
Definition layout_shape (s : string) (c : Time.Clock) : Prop :=
  exists gap hh frac,
    s = Time.format_date c +:+ " " +:+ gap +:+ hh +:+ ":"
        +:+ Time.pad2 (Time.minute c) +:+ ":" +:+ Time.pad2 (Time.second c)
        +:+ frac
    /\ all_spaces gap = true /\ hour_text (Time.hour c) hh
    /\ is_fraction frac = true.

(** The literal form [YYYY-MM-DD HH:MM:SS]: nineteen bytes, digits
    where the letters stand. *)
Definition literal_format (s : string) : bool :=
  match s with
  | String y1 (String y2 (String y3 (String y4 (String a
      (String m1 (String m2 (String b (String d1 (String d2 (String sp
        (String h1 (String h2 (String c1 (String n1 (String n2 (String c2
          (String s1 (String s2 EmptyString)))))))))))))))))) =>
      let digit := Chars.is_digit in
      digit y1 && digit y2 && digit y3 && digit y4
      && Ascii.eqb a "-"%char
      && digit m1 && digit m2 && Ascii.eqb b "-"%char
      && digit d1 && digit d2 && Ascii.eqb sp " "%char
      && digit h1 && digit h2 && Ascii.eqb c1 ":"%char
      && digit n1 && digit n2 && Ascii.eqb c2 ":"%char
      && digit s1 && digit s2
  | _ => false
  end.

(** New York in 2023: UTC-5, UTC-4 from 12 March 07:00 UTC, and UTC-5
    again from 5 November 06:00 UTC. *)
Definition new_york : Time.Location :=
  Time.MkLocation (-18000) [(1678604400, -14400); (1699164000, -18000)].

(** A zone with two transitions a thousand seconds apart: UTC, one hour
    east from the epoch on, two hours east from 00:16:40 UTC on. *)
Definition crowded : Time.Location :=
  Time.MkLocation 0 [(0, 3600); (1000, 7200)].

(** A world of which only the local zone matters. *)
Definition zone_world (loc : Time.Location) : World :=
  MkWorld (Some loc) (fun _ _ => TransportFailure) (fun _ _ => [])
    (fun _ => OpenFails) 0 (fun _ => false).

(** ** Definitions for the further properties *)

(** The event that ends a failed run, and the event that writes the
    output file. *)
Definition is_fatal (ev : Event) : bool :=
  match ev with EvFatal _ => true | _ => false end.

Definition is_written (ev : Event) : bool :=
  match ev with EvSave _ _ => true | _ => false end.

(** The stage that reports an error: the context that the action puts
    in front of it. *)
Definition reported_as (context : string) (e : Error) : bool :=
  match e with
  | ErrLoadLocation | ErrParseTime _ =>
      String.eqb context "error parsing start date and time"
      || String.eqb context "error parsing end date and time"
  | ErrNewRequest | ErrTransport | ErrStatus _ | ErrReadBody | ErrDecode _ =>
      String.eqb context "error fetching prover rank list"
  | ErrOpen _ | ErrCsv _ => String.eqb context "error reading cluster names"
  | ErrSave _ => String.eqb context "error saving file"
  | Wrap _ _ => false
  end.

(** Splits a trace that is known into its last event and the events
    before it. *)
Ltac split_last :=
  match goal with
  | |- exists pre final, ?l = pre ++ [final] /\ _ =>
      let l' := eval cbn [app] in l in
      let p := eval cbn [removelast] in (removelast l') in
      let f := eval cbn [List.last] in (List.last l' (EvPrint EmptyString)) in
      exists p, f; split; [reflexivity|]
  end.

(** A window whose end lies before its start. *)
Definition reversed_flags : Flags :=
  MkFlags "2023-01-02 00:00:00" "2023-01-01 00:00:00" "cluster.csv"
    "http://localhost:8088/api/v1/provers/prover_rank_list".

(** A service behind a redirect: the answer to the first request is the
    status 307, and the client sends the [POST] again to the new place. *)
Definition redirecting_world : World :=
  MkWorld (Some Time.UTC)
    (fun _ _ => Response 200 "200 OK" (Some sample_body))
    (fun _ _ => [HopPost "http://localhost:8088/final"])
    (fun _ => Opens sample_labels false)
    1700000000
    (fun _ => false).

(** A command line whose start is no date. *)
Definition bad_start_flags : Flags :=
  MkFlags "2023-13-01 00:00:00" "2023-01-02 00:00:00" "cluster.csv"
    "http://localhost:8088/api/v1/provers/prover_rank_list".

(** The label that a file gives to an address: the first field of the
    last record with two fields or more whose second field is the
    address ([found] is the label that the records before give). *)
Fixpoint label_from (found : option string) (results : list Csv.ReadResult)
    (address : string) : option string :=
  match results with
  | [] => found
  | (name :: a :: _, _) :: rest =>
      label_from (if String.eqb a address then Some name else found)
        rest address
  | _ :: rest => label_from found rest address
  end.

Definition label_of (results : list Csv.ReadResult) (address : string)
  : option string :=
  label_from None results address.

(** A label file in which an address comes twice and a row has a third
    field. *)
Definition relabelled : string :=
  "Alice,addr1,x" +:+ nl +:+ "Bob,addr2,y" +:+ nl +:+ "Carol,addr1,z" +:+ nl.

(** A file that can be opened but fails while it is read. *)
Definition faulty_world (text : string) : World :=
  MkWorld (Some Time.UTC) (fun _ _ => TransportFailure) (fun _ _ => [])
    (fun _ => Opens text true) 0 (fun _ => false).

(** The order of wall-clock readings: by year, then month, day, hour,
    minute and second. *)
Definition clock_before (a b : Time.Clock) : Prop :=
  Time.year a < Time.year b
  \/ (Time.year a = Time.year b
      /\ (Time.month a < Time.month b
          \/ (Time.month a = Time.month b
              /\ (Time.day a < Time.day b
                  \/ (Time.day a = Time.day b
                      /\ (Time.hour a < Time.hour b
                          \/ (Time.hour a = Time.hour b
                              /\ (Time.minute a < Time.minute b
                                  \/ (Time.minute a = Time.minute b
                                      /\ Time.second a < Time.second b))))))))).

(** What kind of cell a column holds: a text, a number shown with a
    format, or an integer. *)
Inductive CellKind : Type :=
| KText (bold : bool)
| KFloat (NumFmt : string)
| KInt.

Definition kind_of (cell : Cell) : CellKind :=
  match cell with
  | TextCell _ b => KText b
  | FloatCell _ f => KFloat f
  | IntCell _ => KInt
  end.

(** The local date at which a run takes place. *)
Definition run_date (w : World) : Z * Z * Z :=
  let c := Time.local_clock (default Time.UTC (local_zone w)) (now w) in
  (Time.year c, Time.month c, Time.day c).

(** The sample world one hour later, on the same day. *)
Definition later_world : World :=
  MkWorld (Some Time.UTC)
    (fun _ _ => Response 200 "200 OK" (Some sample_body))
    (fun _ _ => [])
    (fun _ => Opens sample_labels false)
    1700003600
    (fun _ => false).

(** The texts that a field of type [json.Number] can hold after a
    response has been decoded: the empty text of a field that was never
    set, or a number literal. *)
Definition number_text (s : string) : bool :=
  String.eqb s EmptyString || Strconv.isValidNumber s.

Definition numbers_ok (p : Prover) : bool :=
  number_text (TotalPuzzleCredits p) && number_text (DailyPuzzleCredits p)
  && number_text (NetworkSpeed p).

(** JSON values, tokens and open frames whose number texts are all
    number literals. *)
Fixpoint wf_json (v : json) : bool :=
  match v with
  | JNum lit => Strconv.isValidNumber lit
  | JArr items => forallb wf_json items
  | JObj fields => forallb (fun kv => wf_json (snd kv)) fields
  | _ => true
  end.

Definition wf_token (t : token) : bool :=
  match t with TNumber lit => Strconv.isValidNumber lit | _ => true end.

Definition wf_frame (f : frame) : bool :=
  match f with
  | FArr items => forallb wf_json items
  | FObj fields | FObjKey fields _ => forallb (fun kv => wf_json (snd kv)) fields
  end.

Definition wf_mode (m : pmode) : bool :=
  match m with MDone v => wf_json v | _ => true end.

(** Texts made of the bytes of numbers and words only, and texts that
    stand for themselves between the quotes of a string literal. *)
Fixpoint all_word (s : string) : bool :=
  match s with
  | EmptyString => true
  | String a s' => is_word_char a && all_word s'
  end.

Fixpoint all_plain (s : string) : bool :=
  match s with
  | EmptyString => true
  | String a s' =>
      negb (Ascii.eqb a Chars.dquote) && negb (Ascii.eqb a Chars.bslash)
      && negb (Chars.code a <? 32) && all_plain s'
  end.

(** The same text with the line endings of Windows: a carriage return
    before every newline. *)
Fixpoint crlf (s : string) : string :=
  match s with
  | EmptyString => EmptyString
  | String c s' =>
      if Ascii.eqb c Chars.newline
      then String Chars.creturn (String Chars.newline (crlf s'))
      else String c (crlf s')
  end.

Fixpoint no_cr (s : string) : bool :=
  match s with
  | EmptyString => true
  | String c s' => negb (Ascii.eqb c Chars.creturn) && no_cr s'
  end.

(** A text of the literal form whose day does not exist. *)
Definition no_such_day : Time.Clock := Time.MkClock 2023 2 29 12 0 0.

(** A zone at a fixed distance from UTC: China Standard Time. *)
Definition shanghai : Time.Location := Time.MkLocation 28800 [].

(** * Properties *)

(** ** Decimal texts *)

Lemma Atoi_Itoa (n : Z) : Atoi (Strconv.Itoa n) = Some n.
Proof.
  unfold Atoi, Strconv.Itoa.
  rewrite DecimalString.NilZero.isi.
  - simpl. f_equal. apply DecimalZ.of_to.
  - destruct n; simpl; try discriminate.
    intros H. injection H as H. exact (DecimalPos.Unsigned.to_uint_nonnil _ H).
  - destruct n; simpl; try discriminate.
    intros H. injection H as H. exact (DecimalPos.Unsigned.to_uint_nonnil _ H).
Qed.

Lemma Itoa_inj (n n' : Z) : Strconv.Itoa n = Strconv.Itoa n' -> n = n'.
Proof.
  intros H. apply (f_equal Atoi) in H. rewrite !Atoi_Itoa in H. congruence.
Qed.

(** ** The rows of the report *)

Section Rows.

Variable clusterNames : gmap string string.

Lemma dataRows_length (provers : list Prover) :
  List.length (dataRows clusterNames provers) = List.length provers.
Proof. unfold dataRows. apply length_imap. Qed.

Lemma dataRows_lookup (provers : list Prover) (i : nat) :
  dataRows clusterNames provers !! i = proverRow clusterNames i <$> provers !! i.
Proof. unfold dataRows. apply list_lookup_imap. Qed.

End Rows.

(** C8. The label of a record is looked up by its address and the
    lookup cannot fail: the label cell always exists, it holds the label
    of the address when the map has one and the empty text when the
    address is absent from the map. *)
Theorem label_lookup_total
    (clusterNames : gmap string string) (i : nat) (p : Prover) :
  (exists label, proverRow clusterNames i p !! 1%nat = Some (TextCell label false))
  /\ (clusterNames !! Address p = None ->
      proverRow clusterNames i p !! 1%nat = Some (TextCell EmptyString false))
  /\ (forall label, clusterNames !! Address p = Some label ->
      proverRow clusterNames i p !! 1%nat = Some (TextCell label false)).
Proof.
  repeat split.
  - eexists. reflexivity.
  - intros H. simpl. rewrite H. reflexivity.
  - intros label H. simpl. rewrite H. reflexivity.
Qed.

Lemma label_lookup_total_witness :
  ({[ "addr1" := "Alice" ]} : gmap string string) !! "addr9" = None
  /\ proverRow {[ "addr1" := "Alice" ]} 0
       (MkProver "addr9" "1" "" "1" "" "1" "") !! 1%nat
     = Some (TextCell EmptyString false).
Proof.
  split; [vm_compute; reflexivity|].
  destruct (label_lookup_total {[ "addr1" := "Alice" ]} 0
              (MkProver "addr9" "1" "" "1" "" "1" "")) as (_ & H & _).
  apply H. vm_compute. reflexivity.
Defined.

(** ** The order of the effects of a run *)

Lemma posts_of_run (w : World) (c : Flags) :
  filter (fun ev => is_post ev = true) (main w c) = posts_of w c.
Proof.
  unfold posts_of. run_cases; reflexivity.
Qed.

(** The sheet that a run saves is the one built from what the fetch
    stage and the label loader returned. *)
Lemma saved_sheet (w : World) (c : Flags) (i : nat) (name : string)
    (sheet : Sheet) :
  main w c !! i = Some (EvSave name sheet) ->
  exists startTime endTime t provers t' clusterNames,
    fetchProverRankList w (api_url c) startTime endTime = (t, inr provers)
    /\ readClusterNames w (cluster_file c) = (t', inr clusterNames)
    /\ sheet = buildSheet clusterNames provers
    /\ name = outputFileName w
    /\ i = (5 + List.length t)%nat.
Proof.
  run_cases; intros H; at_index H; try discriminate.
  all: match goal with
       | Hp : http_post _ _ (payload ?s ?e) = _ |- _ => exists s, e
       end.
  all: unfold fetchProverRankList, Do, followed, readClusterNames, bind, emit,
         fail, ret.
  all: replay_outcomes; cbn [app fst snd]; replay_outcomes.
  all: do 4 eexists; repeat split; reflexivity.
Qed.

(** The output is written once in a run. *)
Lemma saved_once (w : World) (c : Flags) (i j : nat) (name name' : string)
    (sheet sheet' : Sheet) :
  main w c !! i = Some (EvSave name sheet) ->
  main w c !! j = Some (EvSave name' sheet') -> j = i.
Proof.
  run_cases; intros H H'; at_index H; try discriminate;
    at_index H'; try discriminate; reflexivity.
Qed.

(** The effects of the two stages that talk to the outside, when they
    succeed. *)
Lemma fetch_ok_trace (w : World) (url : string) (startTime endTime : Z)
    (t : list Event) (provers : list Prover) :
  fetchProverRankList w url startTime endTime = (t, inr provers) ->
  t = EvPost url (payload startTime endTime)
      :: followed w url (payload startTime endTime).
Proof.
  unfold fetchProverRankList, Do, bind, emit, fail, ret.
  destruct (http_post w url (payload startTime endTime))
    as [| |code status [text|]]; try discriminate.
  - destruct (negb (code =? StatusOK)); [discriminate|].
    destruct (Decode.Unmarshal text); [discriminate|].
    intros H. injection H as <- _. simpl. rewrite app_nil_r. reflexivity.
  - destruct (negb (code =? StatusOK)); discriminate.
Qed.

Lemma read_ok_trace (w : World) (path : string) (t : list Event)
    (clusterNames : gmap string string) :
  readClusterNames w path = (t, inr clusterNames) ->
  t = [EvOpen path; EvRead path; EvClose path].
Proof.
  unfold readClusterNames, fail.
  destruct (open_file w path); [discriminate|].
  intros H. injection H as <- _. reflexivity.
Qed.

(** C5. The report has one data row per fetched record, in the order of
    the records: row [i] is built from record [i] (its address cell is
    the address of that record) and its rank cell is the decimal text of
    [i + 1], whatever the label map holds.  The sheet that a run saves
    is the header followed by these rows for the records that the fetch
    stage returned. *)
Theorem rows_follow_records
    (clusterNames : gmap string string) (provers : list Prover) :
  List.length (dataRows clusterNames provers) = List.length provers
  /\ (forall (i : nat) (p : Prover),
       provers !! i = Some p ->
       exists row,
         dataRows clusterNames provers !! i = Some row
         /\ row = proverRow clusterNames i p
         /\ row !! 0%nat = Some (TextCell (Strconv.Itoa (Z.of_nat i + 1)) false)
         /\ (exists rank, row !! 0%nat = Some (TextCell rank false)
                          /\ Atoi rank = Some (Z.of_nat i + 1))
         /\ row !! 2%nat = Some (TextCell (Address p) false))
  /\ (forall w c k name sheet,
       main w c !! k = Some (EvSave name sheet) ->
       exists startTime endTime t fetched labels,
         fetchProverRankList w (api_url c) startTime endTime = (t, inr fetched)
         /\ sheet = headerRow :: dataRows labels fetched).
Proof.
  split; [apply dataRows_length|]. split.
  - intros i p Hp.
    exists (proverRow clusterNames i p).
    rewrite dataRows_lookup, Hp. simpl.
    repeat split.
    eexists; split; [reflexivity | apply Atoi_Itoa].
  - intros w c k name sheet H.
    destruct (saved_sheet w c k name sheet H)
      as (st & en & t & fetched & _ & labels & Hf & _ & Hs & _).
    exists st, en, t, fetched, labels. split; [exact Hf | exact Hs].
Qed.

Lemma rows_follow_records_witness :
  sample_provers !! 1%nat = Some (MkProver "addr2" "7" "1%" "0.5" "1%" "-45000" "0%")
  /\ exists row,
       dataRows ∅ sample_provers !! 1%nat = Some row
       /\ row !! 0%nat = Some (TextCell "2" false)
       /\ row !! 2%nat = Some (TextCell "addr2" false).
Proof.
  split; [reflexivity|].
  destruct (rows_follow_records ∅ sample_provers) as (_ & H & _).
  destruct (H 1%nat _ eq_refl) as (row & H1 & _ & H3 & _ & H5).
  exists row. repeat split; assumption.
Defined.






(** ** The row of the sample response *)

Import Json.



(** ** Conversions that fail *)

(** C10. The error of [Float64] is dropped: the three number cells of a
    row hold the value that the conversion returned (an infinity for a
    number out of range, zero for a text that is no number), and a run
    whose stages succeed saves the sheet and ends without [log.Fatal]
    whatever the number texts of the records are. *)
Theorem conversion_errors_are_dropped (w : World) (c : Flags) :
  (forall clusterNames i p,
     proverRow clusterNames i p !! 3%nat
     = Some (FloatCell (fst (Float64 (TotalPuzzleCredits p))) "0.00")
     /\ proverRow clusterNames i p !! 5%nat
        = Some (FloatCell (fst (Float64 (DailyPuzzleCredits p))) "0.00")
     /\ proverRow clusterNames i p !! 7%nat
        = Some (FloatCell (Float64.div (fst (Float64 (NetworkSpeed p)))
                             (Float64.of_Z 1000000)) "0.00"))
  /\ Float64 "1e999" = (Float64.FInf false, Some Strconv.ErrRange)
  /\ Float64 "-1e999" = (Float64.FInf true, Some Strconv.ErrRange)
  /\ Float64 EmptyString = (Float64.fzero, Some Strconv.ErrSyntax)
  /\ (forall startTime endTime t provers t' clusterNames,
        parseDateTime w (start_datetime c) = ([], inr startTime) ->
        parseDateTime w (end_datetime c) = ([], inr endTime) ->
        fetchProverRankList w (api_url c) startTime endTime = (t, inr provers) ->
        readClusterNames w (cluster_file c) = (t', inr clusterNames) ->
        save_fails w (outputFileName w) = false ->
        (exists pre,
           main w c
           = pre ++ [EvSave (outputFileName w) (buildSheet clusterNames provers);
                     EvPrint ("数据已保存到 " +:+ outputFileName w +:+ nl)])
        /\ forall i e, main w c !! i <> Some (EvFatal e)).
Proof.
  split; [intros; repeat split|].
  split; [vm_compute; reflexivity|].
  split; [vm_compute; reflexivity|].
  split; [vm_compute; reflexivity|].
  intros st en t provers t' cn Hs He Hf Hr Hsave.
  unfold main, action. rewrite Hs. cbn [wrap bind emit app].
  rewrite He. cbn [wrap bind emit app]. rewrite Hf. cbn [wrap bind emit app].
  rewrite Hr. cbn [wrap bind emit app]. unfold save. rewrite Hsave.
  cbn [wrap bind emit app].
  split.
  - match goal with
    | |- exists _, ?a :: ?b :: ?u ++ ?u' ++ _ = _ =>
        exists (a :: b :: u ++ u'); simpl; rewrite <- app_assoc; reflexivity
    end.
  - intros i e H.
    rewrite (fetch_ok_trace _ _ _ _ _ _ Hf), (read_ok_trace _ _ _ _ Hr) in H.
    unfold followed in H.
    destruct (redirects w (api_url c) (payload st en)); cbn in H;
      at_index H; discriminate.
Qed.

Lemma conversion_errors_are_dropped_witness :
  parseDateTime odd_world (start_datetime sample_flags) = ([], inr 1672531200)
  /\ Decode.Unmarshal odd_body
     = inr [MkProver "addr1" "1e999" "" "" "" "" ""]
  /\ exists pre row,
       main odd_world sample_flags
       = pre ++ [EvSave (outputFileName odd_world)
                   [headerRow; row];
                 EvPrint ("数据已保存到 " +:+ outputFileName odd_world +:+ nl)]
       /\ row !! 3%nat = Some (FloatCell (Float64.FInf false) "0.00")
       /\ row !! 5%nat = Some (FloatCell Float64.fzero "0.00").
Proof.
  split; [vm_compute; reflexivity|].
  split; [vm_compute; reflexivity|].
  destruct (conversion_errors_are_dropped odd_world sample_flags)
    as (_ & _ & _ & _ & Hrun).
  destruct (Hrun 1672531200 1672617600
              [EvPost (api_url sample_flags) (payload 1672531200 1672617600)]
              [MkProver "addr1" "1e999" "" "" "" "" ""]
              [EvOpen "cluster.csv"; EvRead "cluster.csv"; EvClose "cluster.csv"]
              {[ "addr1" := "Alice"; "addr2" := "Bob" ]})
    as [[pre Hpre] _]; try (vm_compute; reflexivity).
  exists pre. eexists. split; [exact Hpre|].
  split; vm_compute; reflexivity.
Defined.

(** ** The label map *)

(** A record with fewer than two fields that [Read] returns without an
    error leaves the map as it is. *)
Lemma clusterLoop_short_record (record : list string)
    (rest : list Csv.ReadResult) (m : gmap string string) :
  (List.length record < 2)%nat ->
  clusterLoop ((record, None) :: rest) m = clusterLoop rest m.
Proof.
  destruct record as [|a [|b record]]; simpl; intros H; try reflexivity; lia.
Qed.

(** A record with two fields or more maps its second field to its
    first. *)
Lemma clusterLoop_full_record (name address : string) (more : list string)
    (rest : list Csv.ReadResult) (m : gmap string string) :
  clusterLoop ((name :: address :: more, None) :: rest) m
  = clusterLoop rest (<[address := name]> m).
Proof. reflexivity. Qed.

(** The last record of an address decides its label. *)
Lemma clusterLoop_last_wins (before : list Csv.ReadResult)
    (name address : string) (more : list string)
    (m m' : gmap string string) :
  clusterLoop (before ++ [(name :: address :: more, None)]) m = inr m' ->
  m' !! address = Some name.
Proof.
  revert m. induction before as [|[record [e|]] before IH]; intros m; simpl.
  - intros H. injection H as <-. apply lookup_insert_eq.
  - discriminate.
  - destruct record as [|a [|b record]]; apply IH.
Qed.

(** The sample file of the specification gives the map of its two
    addresses. *)
Lemma sample_labels_map :
  readClusterNames (labels_world ("Alice,addr1" +:+ nl +:+ "Bob,addr2" +:+ nl))
    "cluster.csv"
  = ([EvOpen "cluster.csv"; EvRead "cluster.csv"; EvClose "cluster.csv"],
     inr {[ "addr1" := "Alice"; "addr2" := "Bob" ]}).
Proof. vm_compute. reflexivity. Qed.

(** A later record of the same address replaces the earlier one. *)
Lemma duplicate_address_last_wins :
  readClusterNames (labels_world ("Alice,addr1" +:+ nl +:+ "Bob,addr1" +:+ nl))
    "cluster.csv"
  = ([EvOpen "cluster.csv"; EvRead "cluster.csv"; EvClose "cluster.csv"],
     inr {[ "addr1" := "Bob" ]}).
Proof. vm_compute. reflexivity. Qed.

(** When every row has a single field, every row is passed over. *)
Lemma single_field_rows_skipped :
  readClusterNames (labels_world ("Alice" +:+ nl +:+ "Bob" +:+ nl))
    "cluster.csv"
  = ([EvOpen "cluster.csv"; EvRead "cluster.csv"; EvClose "cluster.csv"],
     inr ∅).
Proof. vm_compute. reflexivity. Qed.

(** C7 at the input on which the loader departs from it: a row with one
    field that follows a row with two is not passed over.  The reader
    was left with [FieldsPerRecord = 0], so [Read] returns the short row
    together with [ErrFieldCount], and the loader returns that error
    before its test of the length of the record is reached. *)
Theorem short_row_after_full_row_fails :
  Csv.read_results ("Alice,addr1" +:+ nl +:+ "Bob" +:+ nl) false
  = [(["Alice"; "addr1"], None); (["Bob"], Some Csv.ErrFieldCount)]
  /\ readClusterNames (labels_world ("Alice,addr1" +:+ nl +:+ "Bob" +:+ nl))
       "cluster.csv"
     = ([EvOpen "cluster.csv"; EvRead "cluster.csv"; EvClose "cluster.csv"],
        inl (ErrCsv Csv.ErrFieldCount)).
Proof. split; vm_compute; reflexivity. Qed.

(** ** What the decoder accepts *)

Import Shape.

Lemma store_string_ok (old : string) (v : json) :
  dres_ok (Decode.store_string old v) = string_ok v.
Proof. destruct v; reflexivity. Qed.

Lemma store_number_ok (old : string) (v : json) :
  dres_ok (Decode.store_number old v) = number_ok v.
Proof.
  destruct v; try reflexivity. simpl.
  destruct (Strconv.isValidNumber s); reflexivity.
Qed.

Lemma set_string_ok (f : string -> Prover) (old : string) (v : json) :
  dres_ok (Decode.set_string f old v) = string_ok v.
Proof.
  unfold Decode.set_string. rewrite <- (store_string_ok old v).
  destruct (Decode.store_string old v); reflexivity.
Qed.

Lemma set_number_ok (f : string -> Prover) (old : string) (v : json) :
  dres_ok (Decode.set_number f old v) = number_ok v.
Proof.
  unfold Decode.set_number. rewrite <- (store_number_ok old v).
  destruct (Decode.store_number old v); reflexivity.
Qed.

Lemma decode_field_ok (p : Prover) (k : string) (v : json) :
  dres_ok (Decode.decode_field p k v) = member_ok (k, v).
Proof.
  unfold Decode.decode_field, member_ok. destruct p.
  repeat match goal with
         | |- context [if ?b then _ else _] => destruct b
         end;
    first [apply set_string_ok | apply set_number_ok | reflexivity].
Qed.

(** Sequencing two decoding steps: the whole is without error exactly
    when both steps are. *)
Lemma dres_ok_seq {A B} (r : Decode.dres A) (k : A -> Decode.dres B) (b : bool) :
  (forall a, dres_ok (k a) = b) ->
  dres_ok (Decode.seq r k) = dres_ok r && b.
Proof.
  intros Hk. destruct r as [a [e|]]; simpl.
  - destruct (k a); reflexivity.
  - rewrite <- (Hk a). destruct (k a) as [x [e|]]; reflexivity.
Qed.

Lemma seq_ok {A B} (r : Decode.dres A) (k : A -> Decode.dres B) (b : B) :
  Decode.seq r k = Decode.Soft b None ->
  exists a, r = Decode.Soft a None /\ k a = Decode.Soft b None.
Proof.
  destruct r as [a [e|]]; simpl; destruct (k a) as [x [e'|]] eqn:Hk;
    intros H; try discriminate; injection H as <-; eauto.
Qed.

Lemma decode_fields_ok (fields : list (string * json)) (p : Prover) :
  dres_ok (Decode.decode_fields p fields) = forallb member_ok fields.
Proof.
  revert p. induction fields as [|[k v] fields IH]; intros p; [reflexivity|].
  cbn [Decode.decode_fields forallb].
  rewrite (dres_ok_seq _ _ (forallb member_ok fields)) by (intros; apply IH).
  rewrite decode_field_ok. reflexivity.
Qed.

Lemma decode_prover_ok (old : Prover) (v : json) :
  dres_ok (Decode.decode_prover old v) = record_ok v.
Proof. destruct v; try reflexivity. apply decode_fields_ok. Qed.

Lemma decode_items_ok (items : list json) (store : list Prover) :
  dres_ok (Decode.decode_items store items) = forallb record_ok items.
Proof.
  revert store. induction items as [|v items IH]; intros store; [reflexivity|].
  cbn [Decode.decode_items forallb].
  rewrite (dres_ok_seq _ _ (forallb record_ok items)).
  - rewrite decode_prover_ok. reflexivity.
  - intros p. rewrite (dres_ok_seq _ _ true) by reflexivity.
    rewrite IH. apply andb_true_r.
Qed.

Lemma decode_slice_ok (s : Decode.slice) (v : json) :
  dres_ok (Decode.decode_slice s v) = data_ok v.
Proof.
  destruct v as [| | | |[|x items]|]; try reflexivity.
  cbn [Decode.decode_slice data_ok].
  rewrite (dres_ok_seq _ _ true) by reflexivity.
  rewrite decode_items_ok. apply andb_true_r.
Qed.

Lemma decode_envelope_fields_ok (fields : list (string * json))
    (data : Decode.slice) :
  dres_ok (Decode.decode_envelope_fields data fields)
  = forallb envelope_member_ok fields.
Proof.
  revert data. induction fields as [|[k v] fields IH]; intros data;
    [reflexivity|].
  cbn [Decode.decode_envelope_fields forallb envelope_member_ok].
  rewrite (dres_ok_seq _ _ (forallb envelope_member_ok fields))
    by (intros; apply IH).
  destruct (Decode.key_is "data" k); [rewrite decode_slice_ok|]; reflexivity.
Qed.

Lemma decode_envelope_ok (v : json) :
  dres_ok (Decode.decode_envelope v) = compatible v.
Proof.
  destruct v; try reflexivity. cbn [Decode.decode_envelope compatible].
  rewrite (dres_ok_seq _ _ true) by reflexivity.
  rewrite decode_envelope_fields_ok. apply andb_true_r.
Qed.

(** An envelope without a member [data] leaves the slice as it is. *)
Lemma decode_envelope_fields_no_data (fields : list (string * json))
    (data : Decode.slice) :
  data_values fields = [] ->
  Decode.decode_envelope_fields data fields = Decode.Soft data None.
Proof.
  unfold data_values. induction fields as [|[k v] fields IH]; [reflexivity|].
  rewrite filter_cons. cbn [fst Decode.decode_envelope_fields].
  destruct (decide (Decode.key_is "data" k = true)) as [Hk|Hk]; [discriminate|].
  intros Hf. apply not_true_is_false in Hk. rewrite Hk. simpl.
  rewrite (IH Hf). reflexivity.
Qed.

(** The members of an envelope are decoded one after the other. *)
Lemma decode_envelope_fields_app (pre post : list (string * json))
    (s s' : Decode.slice) :
  Decode.decode_envelope_fields s (pre ++ post) = Decode.Soft s' None ->
  exists s1,
    Decode.decode_envelope_fields s pre = Decode.Soft s1 None
    /\ Decode.decode_envelope_fields s1 post = Decode.Soft s' None.
Proof.
  revert s. induction pre as [|[k v] pre IH]; intros s; simpl.
  - intros H. exists s. split; [reflexivity | exact H].
  - intros H. apply seq_ok in H. destruct H as (s0 & H0 & H).
    destruct (IH _ H) as (s1 & H1 & H2).
    exists s1. split; [|exact H2]. rewrite H0. simpl. rewrite H1. reflexivity.
Qed.

(** The items of an array are decoded in order, each into the element
    of its index. *)
Lemma decode_items_in_order (items : list json) (store ps : list Prover) :
  Decode.decode_items store items = Decode.Soft ps None ->
  List.length ps = List.length items
  /\ forall (i : nat) (item : json),
       items !! i = Some item ->
       exists p, ps !! i = Some p
                 /\ Decode.decode_prover (nth i store zeroProver) item
                    = Decode.Soft p None.
Proof.
  revert store ps. induction items as [|v items IH]; intros store ps.
  - intros H. injection H as <-. split; [reflexivity|]. intros i item Hi.
    discriminate.
  - cbn [Decode.decode_items]. intros H.
    apply seq_ok in H. destruct H as (p & Hp & H).
    apply seq_ok in H. destruct H as (ps' & Hps & H). injection H as <-.
    destruct (IH _ _ Hps) as [Hlen Hnth].
    split; [simpl; f_equal; exact Hlen|].
    intros [|i] item Hi; simpl in Hi.
    + injection Hi as <-. exists p. split; [reflexivity|].
      destruct store; exact Hp.
    + destruct (Hnth i item Hi) as (q & Hq & Hd).
      exists q. split; [exact Hq|]. destruct store; [|exact Hd].
      destruct i; exact Hd.
Qed.

(** What an array leaves in the backing array reaches no further than
    the longest array so far. *)
Lemma backing_bound (fields : list (string * json)) (s s' : Decode.slice)
    (i : nat) :
  Decode.decode_envelope_fields s fields = Decode.Soft s' None ->
  (List.length (Decode.backing s) <= i)%nat ->
  unreached i (data_values fields) ->
  (List.length (Decode.backing s') <= i)%nat.
Proof.
  unfold unreached, data_values.
  revert s. induction fields as [|[k v] fields IH]; intros s.
  - intros H. injection H as <-. auto.
  - cbn [Decode.decode_envelope_fields]. rewrite filter_cons. cbn [fst].
    intros H Hs Hu. apply seq_ok in H. destruct H as (s1 & H1 & H).
    destruct (decide (Decode.key_is "data" k = true)) as [Hk|Hk].
    + rewrite Hk in H1. rewrite fmap_cons in Hu. cbn [snd] in Hu.
      apply Forall_cons in Hu. destruct Hu as [Hv Hu].
      apply (IH s1 H); [|exact Hu].
      destruct v as [| | | |[|x items]|]; cbn [Decode.decode_slice] in H1;
        try discriminate; try (injection H1 as <-; simpl; lia).
      apply seq_ok in H1. destruct H1 as (ps & Hps & H1). injection H1 as <-.
      apply decode_items_in_order in Hps. destruct Hps as [Hlen _].
      cbn [Decode.backing]. rewrite length_app, length_drop, Hlen.
      cbn [List.length] in *. lia.
    + apply not_true_is_false in Hk. rewrite Hk in H1. injection H1 as <-.
      exact (IH s H Hs Hu).
Qed.

(** The envelope up to its last member [data], that member, and the
    members after it. *)
Lemma split_at_last_data (fields : list (string * json)) (ds : list json)
    (d : json) :
  data_values fields = ds ++ [d] ->
  exists pre k post,
    fields = pre ++ (k, d) :: post
    /\ Decode.key_is "data" k = true
    /\ data_values pre = ds /\ data_values post = [].
Proof.
  unfold data_values.
  revert ds. induction fields as [|[k v] fields IH]; intros ds.
  - destruct ds; discriminate.
  - rewrite filter_cons. cbn [fst].
    destruct (decide (Decode.key_is "data" k = true)) as [Hk|Hk].
    + rewrite fmap_cons. cbn [snd]. destruct ds as [|d0 ds]; simpl.
      * intros H. injection H as -> H.
        exists [], k, fields. repeat split; assumption.
      * intros H. injection H as -> H.
        destruct (IH ds H) as (pre & k' & post & -> & Hk' & Hpre & Hpost).
        exists ((k, d0) :: pre), k', post. repeat split; try assumption.
        rewrite filter_cons. cbn [fst].
        destruct (decide (Decode.key_is "data" k = true)); [|contradiction].
        rewrite fmap_cons, Hpre. reflexivity.
    + intros H.
      destruct (IH ds H) as (pre & k' & post & -> & Hk' & Hpre & Hpost).
      exists ((k, v) :: pre), k', post. repeat split; try assumption.
      rewrite filter_cons. cbn [fst].
      destruct (decide (Decode.key_is "data" k = true)); [contradiction|].
      exact Hpre.
Qed.

(** What the envelope decodes to: the records of the array of its last
    member [data]. *)
Lemma decode_envelope_last (v : json) (data : list Prover) :
  Decode.decode_envelope v = Decode.Soft data None ->
  List.length data = List.length (last_items v)
  /\ forall (i : nat) (item : json),
       last_items v !! i = Some item ->
       exists old p,
         data !! i = Some p
         /\ Decode.decode_prover old item = Decode.Soft p None
         /\ (unreached i (removelast (data_members v)) -> old = zeroProver).
Proof.
  unfold last_items.
  destruct v as [| | | | |fields]; simpl; intros H; try discriminate;
    try (injection H as <-; split; [reflexivity | discriminate]).
  apply seq_ok in H. destruct H as (s' & Hs & H). injection H as <-.
  destruct (last (data_values fields)) as [d|] eqn:Hlast.
  - apply last_Some in Hlast. destruct Hlast as [ds Hds].
    destruct (split_at_last_data _ _ _ Hds)
      as (pre & k & post & -> & Hk & Hpre & Hpost).
    rewrite Hds, removelast_last.
    apply decode_envelope_fields_app in Hs. destruct Hs as (s1 & H1 & H2).
    cbn [Decode.decode_envelope_fields] in H2. rewrite Hk in H2.
    apply seq_ok in H2. destruct H2 as (s2 & Hd & H2).
    rewrite (decode_envelope_fields_no_data _ _ Hpost) in H2.
    injection H2 as <-.
    destruct d as [| | | |[|x items]|]; cbn [Decode.decode_slice] in Hd;
      try discriminate;
      try (injection Hd as <-; split; [reflexivity | discriminate]).
    apply seq_ok in Hd. destruct Hd as (ps & Hps & Hd). injection Hd as <-.
    destruct (decode_items_in_order _ _ _ Hps) as [Hlen Hnth].
    unfold Decode.elements. cbn [Decode.slen Decode.backing].
    change (S (List.length items)) with (List.length (x :: items)).
    rewrite <- Hlen, take_app_length.
    split; [reflexivity|].
    intros i item Hi. destruct (Hnth i item Hi) as (p & Hp & Hdec).
    exists (nth i (Decode.backing s1) zeroProver), p.
    split; [exact Hp|]. split; [exact Hdec|].
    intros Hu. apply nth_overflow.
    apply (backing_bound pre Decode.nil_slice s1 i H1); [simpl; lia|].
    rewrite Hpre. exact Hu.
  - rewrite decode_envelope_fields_no_data in Hs.
    + injection Hs as <-. split; [reflexivity | discriminate].
    + destruct (data_values fields) as [|d ds] eqn:Hv; [reflexivity|].
      exfalso. clear -Hlast. revert d Hlast.
      induction ds as [|d' ds IH]; intros d; simpl; [discriminate|].
      apply IH.
Qed.

(** The records that a later array does not reach stay in the backing
    array, and a still later array is decoded into them: of the three
    arrays of [thrice_body], the last one gives its first record the
    network speed of the first array, and its empty second item the
    whole second record of the first array. *)
Lemma spare_elements_are_reused :
  Decode.Unmarshal thrice_body
  = inr [MkProver "b" "" "" "" "" "1" ""; MkProver "c" "" "" "" "" "2" ""].
Proof. vm_compute. reflexivity. Qed.

(** C3, as stated, fails: the text of an empty object is valid JSON that
    has no member [data], so it is not of the shape that the
    specification names; it is decoded without error all the same, to
    the empty list of records.  So are [null] and an envelope whose
    [data] is [null]. *)
Lemma empty_object_is_decoded :
  Json.parse "{}" = Some (JObj [])
  /\ expected_shape (JObj []) = false
  /\ Decode.Unmarshal "{}" = inr []
  /\ fetchProverRankList (answering "{}") "http://localhost:8088" 0 1
     = ([EvPost "http://localhost:8088" (payload 0 1)], inr [])
  /\ Decode.Unmarshal "null" = inr []
  /\ Decode.Unmarshal (Chars.squote "{'data':null,'total':3}") = inr [].
Proof. repeat split; vm_compute; reflexivity. Qed.

(** C3, amended.  Decoding fails exactly when the text is not valid
    JSON or its value is not compatible with the envelope: a value is
    compatible when it is [null] or an object whose members named [data]
    are [null] or arrays of [null]s and objects, in which the members
    that name a field of a record suit its type; other members, and the
    absence of any member, are accepted.  For every compatible value the
    decoder returns one record per item of the array of the last member
    named [data], in the order of the items (no record when there is no
    such member or the last one is [null]): record [i] is item [i]
    decoded into a record, and this record is the zero one, so that the
    fields that the item does not give are empty, unless an earlier
    member named [data] is an array with an item at index [i].  The Rank
    Fetcher returns what the decoder returns. *)
Theorem decode_fails_iff_incompatible (body : string) :
  ((exists e, Decode.Unmarshal body = inl e) <->
   (Json.parse body = None
    \/ exists v, Json.parse body = Some v /\ compatible v = false))
  /\ (forall v, Json.parse body = Some v -> compatible v = true ->
      exists data,
        Decode.Unmarshal body = inr data
        /\ List.length data = List.length (last_items v)
        /\ forall (i : nat) (item : json),
             last_items v !! i = Some item ->
             exists old p,
               data !! i = Some p
               /\ Decode.decode_prover old item = Decode.Soft p None
               /\ (unreached i (removelast (data_members v)) ->
                   old = zeroProver))
  /\ (forall w url startTime endTime status,
        http_post w url (payload startTime endTime)
        = Response StatusOK status (Some body) ->
        fetchProverRankList w url startTime endTime
        = (EvPost url (payload startTime endTime)
           :: followed w url (payload startTime endTime),
           match Decode.Unmarshal body with
           | inl e => inl (ErrDecode e)
           | inr data => inr data
           end)).
Proof.
  split; [|split].
  - unfold Decode.Unmarshal.
    destruct (Json.parse body) as [v|]; [|split; eauto].
    pose proof (decode_envelope_ok v) as Hok.
    destruct (Decode.decode_envelope v) as [d [e|]]; simpl in Hok; split;
      try (intros _; first [right; exists v; split; [reflexivity | congruence]
                           | eexists; reflexivity]).
    + intros [e H]. discriminate.
    + intros [H|(v' & Hv & H)]; [discriminate|]. injection Hv as <-.
      congruence.
  - intros v Hv Hc. unfold Decode.Unmarshal. rewrite Hv.
    rewrite <- decode_envelope_ok in Hc.
    destruct (Decode.decode_envelope v) as [data [e|]] eqn:Hd;
      try discriminate.
    exists data. split; [reflexivity|].
    exact (decode_envelope_last v data Hd).
  - intros w url st en status Hp.
    unfold fetchProverRankList, Do, bind, emit, fail, ret. rewrite Hp.
    simpl. destruct (Decode.Unmarshal body); simpl; rewrite app_nil_r;
      reflexivity.
Qed.

Lemma decode_fails_iff_incompatible_witness :
  Json.parse sample_body
  = Some (one_record "addr1" "100.5" "10%" "1.5" "2%" "3%")
  /\ compatible (one_record "addr1" "100.5" "10%" "1.5" "2%" "3%") = true
  /\ exists data, Decode.Unmarshal sample_body = inr data
                  /\ List.length data = 1%nat.
Proof.
  assert (Hp : Json.parse sample_body
               = Some (one_record "addr1" "100.5" "10%" "1.5" "2%" "3%"))
    by (vm_compute; reflexivity).
  assert (Hc : compatible (one_record "addr1" "100.5" "10%" "1.5" "2%" "3%")
               = true) by (vm_compute; reflexivity).
  split; [exact Hp|]. split; [exact Hc|].
  destruct (decode_fails_iff_incompatible sample_body) as (_ & Hok & _).
  destruct (Hok _ Hp Hc) as (data & Hd & Hlen & _).
  exists data. split; [exact Hd | exact Hlen].
Defined.

(** ** Truncated float quotients *)

Import Float64.

Lemma round_half_even_lower (n d : Z) :
  0 <= n -> 0 < d -> n / d <= round_half_even n d.
Proof.
  intros Hn Hd. unfold round_half_even.
  destruct (2 * (n mod d) ?= d); [destruct (Z.even (n / d))| |]; lia.
Qed.

Lemma round_half_even_upper (n d : Z) :
  0 <= n -> 0 < d -> 2 * d * round_half_even n d <= 2 * n + d.
Proof.
  intros Hn Hd. unfold round_half_even.
  pose proof (Z.div_mod n d ltac:(lia)) as Hdm.
  pose proof (Z.mod_pos_bound n d Hd) as Hm.
  destruct (2 * (n mod d) ?= d) eqn:Hc.
  - apply Z.compare_eq in Hc. destruct (Z.even (n / d)); nia.
  - nia.
  - apply Z.compare_gt_iff in Hc. nia.
Qed.

Lemma scaled_le_spec (d g n : Z) :
  0 < d -> 0 <= n -> 0 <= g -> scaled_le d g n = true -> d * 2 ^ g <= n.
Proof.
  intros Hd Hn Hg. unfold scaled_le.
  destruct (0 <=? g) eqn:E; [|lia]. intros H. lia.
Qed.

Lemma ilog2_q_upper (n d j : Z) :
  0 < n -> 0 < d -> 0 <= j -> n < d * 2 ^ j -> ilog2_q n d < j.
Proof.
  intros Hn Hd Hj Hlt. unfold ilog2_q.
  set (g := Z.log2 n - Z.log2 d).
  assert (Hg : g < 1 + j).
  { pose proof (Z.log2_spec d Hd) as [_ Hd2].
    assert (n < 2 ^ (Z.succ (Z.log2 d) + j)).
    { rewrite Z.pow_add_r by (pose proof (Z.log2_nonneg d); lia).
      assert (0 < 2 ^ j) by (apply Z.pow_pos_nonneg; lia). nia. }
    assert (Z.log2 n < Z.succ (Z.log2 d) + j).
    { apply Z.log2_lt_pow2; [lia | assumption]. }
    subst g. lia. }
  destruct (scaled_le d g n) eqn:Hs; [|lia].
  destruct (Z_lt_le_dec g j) as [|Hge]; [assumption|].
  exfalso. assert (g = j) by lia. subst j.
  apply scaled_le_spec in Hs; lia.
Qed.

Lemma round_q_floor (n d g : Z) :
  0 <= n -> 0 < d -> 2 <= g <= 53 ->
  n < d * 2 ^ (53 - g) ->
  d < 2 ^ (g + 1) * ((n / d + 1) * d - n) ->
  exists m e, round_q n d = Some (m, e) /\ 0 <= m /\ trunc_abs m e = n / d.
Proof.
  intros Hn Hd Hg Hlt Hgap. unfold round_q.
  destruct (n =? 0) eqn:Hn0.
  { apply Z.eqb_eq in Hn0. subst n. exists 0, 0. rewrite Z.div_0_l by lia.
    repeat split; try reflexivity; lia. }
  apply Z.eqb_neq in Hn0.
  set (e0 := Z.max emin (ilog2_q n d - (prec - 1))).
  assert (He0 : emin <= e0 <= - g).
  { pose proof (ilog2_q_upper n d (53 - g) ltac:(lia) Hd ltac:(lia) Hlt).
    subst e0. unfold emin, prec in *. lia. }
  destruct (0 <=? e0) eqn:Hpos; [apply Z.leb_le in Hpos; lia|].
  set (P := 2 ^ (- e0)).
  set (k := n / d) in *.
  assert (HP : 2 ^ g <= P).
  { subst P. apply Z.pow_le_mono_r; lia. }
  assert (HP0 : 0 < 2 ^ g) by (apply Z.pow_pos_nonneg; lia).
  assert (Hg1 : 2 ^ (g + 1) = 2 * 2 ^ g).
  { rewrite Z.pow_add_r by lia. lia. }
  pose proof (Z.div_mod n d ltac:(lia)) as Hdm. fold k in Hdm.
  pose proof (Z.mod_pos_bound n d Hd) as Hr.
  assert (Hk : 0 <= k) by (subst k; apply Z.div_pos; lia).
  set (m0 := round_half_even (n * P) d).
  assert (Hlow : k * P <= m0).
  { subst m0. etransitivity; [|apply round_half_even_lower; nia].
    apply Z.div_le_lower_bound; nia. }
  assert (Hup : m0 < (k + 1) * P).
  { pose proof (round_half_even_upper (n * P) d ltac:(nia) Hd) as Hu.
    fold m0 in Hu. nia. }
  assert (Hdiv : m0 / P = k).
  { symmetry. apply (Z.div_unique m0 P k (m0 - k * P)); lia. }
  destruct (m0 =? 2 ^ prec) eqn:Hm.
  - apply Z.eqb_eq in Hm.
    assert (Hover : (emax - prec <? e0 + 1) = false).
    { apply Z.ltb_ge. unfold emax, prec. lia. }
    rewrite Hover. exists (2 ^ (prec - 1)), (e0 + 1).
    assert (H52 : (2 ^ (prec - 1) =? 0) = false) by reflexivity.
    rewrite H52. split; [reflexivity|]. split; [unfold prec; lia|].
    unfold trunc_abs.
    destruct (0 <=? e0 + 1) eqn:E; [apply Z.leb_le in E; lia|].
    rewrite <- Hdiv, Hm.
    assert (HPP : P = 2 * 2 ^ (- (e0 + 1))).
    { subst P. replace (- e0) with (1 + - (e0 + 1)) by lia.
      rewrite Z.pow_add_r by lia. lia. }
    rewrite HPP.
    replace (2 ^ prec) with (2 * 2 ^ (prec - 1)) by reflexivity.
    rewrite Z.div_mul_cancel_l; [reflexivity| |lia].
    apply Z.pow_nonzero; lia.
  - assert (Hover : (emax - prec <? e0) = false).
    { apply Z.ltb_ge. unfold emax, prec. lia. }
    rewrite Hover. exists m0. eexists. split; [reflexivity|].
    split; [lia|].
    destruct (m0 =? 0) eqn:Hz.
    + apply Z.eqb_eq in Hz. unfold trunc_abs. simpl. nia.
    + unfold trunc_abs. rewrite Hpos. exact Hdiv.
Qed.

Lemma ilog2_q_int (n : Z) : 0 < n -> ilog2_q n 1 = Z.log2 n.
Proof.
  intros Hn. unfold ilog2_q, scaled_le. simpl (Z.log2 1).
  rewrite Z.sub_0_r.
  pose proof (Z.log2_nonneg n) as Hl.
  pose proof (Z.log2_spec n Hn) as [Hlo _].
  destruct (0 <=? Z.log2 n) eqn:E; [|apply Z.leb_gt in E; lia].
  destruct (1 * 2 ^ Z.log2 n <=? n) eqn:E'; [reflexivity|].
  apply Z.leb_gt in E'. lia.
Qed.

Lemma round_q_int (n : Z) :
  0 <= n <= 2 ^ 53 ->
  exists m e, round_q n 1 = Some (m, e) /\ represents m e n /\ -52 <= e <= 1.
Proof.
  intros [Hn Hle]. unfold round_q.
  destruct (n =? 0) eqn:Hn0.
  { apply Z.eqb_eq in Hn0. subst n. exists 0, 0.
    split; [reflexivity|]. split; [left; lia | lia]. }
  apply Z.eqb_neq in Hn0.
  rewrite ilog2_q_int by lia.
  pose proof (Z.log2_spec n ltac:(lia)) as [Hlo Hhi].
  pose proof (Z.log2_nonneg n) as Hl0.
  assert (Hl : Z.log2 n <= 53).
  { change 53 with (Z.log2 (2 ^ 53)). apply Z.log2_le_mono. lia. }
  replace (Z.max emin (Z.log2 n - (prec - 1))) with (Z.log2 n - 52)
    by (unfold emin, prec; lia).
  set (e0 := Z.log2 n - 52).
  assert (Hround1 : forall x, 0 <= x -> round_half_even x 1 = x).
  { intros x Hx. unfold round_half_even. rewrite Z.mod_1_r, Z.div_1_r.
    reflexivity. }
  destruct (0 <=? e0) eqn:Hpos.
  - apply Z.leb_le in Hpos.
    assert (He : e0 = 0 \/ e0 = 1) by lia. destruct He as [He|He].
    + rewrite He. change (1 * 2 ^ 0) with 1. rewrite Hround1 by lia.
      assert (Hlt : n < 2 ^ 53).
      { replace 53 with (Z.succ (Z.log2 n)) by lia. exact Hhi. }
      destruct (n =? 2 ^ prec) eqn:E; [apply Z.eqb_eq in E; unfold prec in E; lia|].
      change (emax - prec <? 0) with false. cbv iota.
      destruct (n =? 0) eqn:E0; [apply Z.eqb_eq in E0; lia|].
      exists n, 0. split; [reflexivity|]. split; [left; lia | lia].
    + assert (n = 2 ^ 53).
      { assert (Z.log2 n = 53) by lia.
        replace (2 ^ 53) with (2 ^ Z.log2 n) in * by (f_equal; lia). lia. }
      subst n. rewrite He. exists (2 ^ 52), 1.
      split; [vm_compute; reflexivity|]. split; [left; split; [lia|reflexivity] | lia].
  - apply Z.leb_gt in Hpos.
    rewrite Hround1 by (assert (0 < 2 ^ (- e0)) by (apply Z.pow_pos_nonneg; lia); nia).
    set (m0 := n * 2 ^ (- e0)).
    assert (Hm0 : 0 < m0 < 2 ^ 53).
    { subst m0.
      assert (0 < 2 ^ (- e0)) by (apply Z.pow_pos_nonneg; lia).
      split; [nia|].
      replace (2 ^ 53) with (2 ^ Z.succ (Z.log2 n) * 2 ^ (- e0)).
      - nia.
      - rewrite <- Z.pow_add_r by lia. f_equal. subst e0. lia. }
    destruct (m0 =? 2 ^ prec) eqn:E; [apply Z.eqb_eq in E; unfold prec in E; lia|].
    assert (Hov : (emax - prec <? e0) = false) by (apply Z.ltb_ge; unfold emax, prec; lia).
    rewrite Hov.
    destruct (m0 =? 0) eqn:E0; [apply Z.eqb_eq in E0; lia|].
    exists m0, e0. split; [reflexivity|]. split; [right; split; [lia|reflexivity]|].
    subst e0. lia.
Qed.

(** Dividing the float of an integer [a] by the float of a divisor [dv]
    and dropping the fraction gives the integer quotient, as long as the
    rounding of the quotient cannot reach the next integer. *)
Lemma div_trunc (neg : bool) (m e a dv e' g : Z) :
  represents m e a -> 0 <= a -> 0 < dv ->
  e' < 0 -> 2 <= g <= 53 ->
  a < dv * 2 ^ (53 - g) -> dv < 2 ^ (g + 1) ->
  exists m2 e2,
    div (FFin neg m e) (FFin false (dv * 2 ^ (- e')) e') = FFin neg m2 e2
    /\ 0 <= m2 /\ trunc_abs m2 e2 = a / dv.
Proof.
  intros Hrep Ha Hdv He' Hg Hlt Hgap.
  assert (HP' : 0 < 2 ^ (- e')) by (apply Z.pow_pos_nonneg; lia).
  unfold div.
  destruct (dv * 2 ^ (- e') =? 0) eqn:E; [apply Z.eqb_eq in E; nia|].
  rewrite xorb_false_r.
  assert (Hscaled : exists c, 0 < c /\
            (if 0 <=? e - e' then round_q (m * 2 ^ (e - e')) (dv * 2 ^ (- e'))
             else round_q m (dv * 2 ^ (- e') * 2 ^ (- (e - e'))))
            = round_q (a * c) (dv * c)).
  { destruct Hrep as [[He Hm]|[He Hm]].
    - exists (2 ^ (- e')). split; [assumption|].
      destruct (0 <=? e - e') eqn:Ek; [|apply Z.leb_gt in Ek; lia].
      f_equal. rewrite <- Hm. replace (e - e') with (e + - e') by lia.
      rewrite Z.pow_add_r by lia. ring.
    - destruct (0 <=? e - e') eqn:Ek.
      + apply Z.leb_le in Ek. exists (2 ^ (- e')). split; [assumption|].
        f_equal. rewrite Hm.
        replace (2 ^ (- e')) with (2 ^ (- e) * 2 ^ (e - e'))
          by (rewrite <- Z.pow_add_r by lia; f_equal; lia).
        ring.
      + apply Z.leb_gt in Ek. exists (2 ^ (- e)).
        split; [apply Z.pow_pos_nonneg; lia|].
        rewrite Hm. f_equal.
        replace (2 ^ (- e)) with (2 ^ (- e') * 2 ^ (- (e - e')))
          by (rewrite <- Z.pow_add_r by lia; f_equal; lia).
        ring. }
  destruct Hscaled as (c & Hc & ->).
  assert (Hq : a * c / (dv * c) = a / dv) by (apply Z.div_mul_cancel_r; lia).
  pose proof (Z.div_mod a dv ltac:(lia)) as Hdm.
  pose proof (Z.mod_pos_bound a dv Hdv) as Hr.
  assert (H1 : 0 <= a * c) by nia.
  assert (H2 : 0 < dv * c) by nia.
  assert (H3 : a * c < dv * c * 2 ^ (53 - g)).
  { assert (0 < 2 ^ (53 - g)) by (apply Z.pow_pos_nonneg; lia). nia. }
  assert (H4 : dv * c < 2 ^ (g + 1) * ((a * c / (dv * c) + 1) * (dv * c) - a * c)).
  { rewrite Hq.
    assert (1 <= (a / dv + 1) * dv - a) by nia.
    assert (0 < 2 ^ (g + 1)) by (apply Z.pow_pos_nonneg; lia). nia. }
  destruct (round_q_floor (a * c) (dv * c) g H1 H2 Hg H3 H4)
    as (m2 & e2 & Hrq & Hm2 & Ht).
  exists m2, e2. rewrite Hrq. simpl. rewrite <- Hq. auto.
Qed.


Lemma to_int_quot (neg : bool) (m e a dv : Z) :
  0 <= a <= 2 ^ 53 -> 0 < dv -> 0 <= m -> trunc_abs m e = a / dv ->
  to_int (FFin neg m e) = Z.quot (if neg then - a else a) dv.
Proof.
  intros Ha Hdv Hm Ht. unfold to_int. rewrite Ht.
  assert (Hq : 0 <= a / dv <= 2 ^ 53).
  { split; [apply Z.div_pos; lia|].
    apply Z.le_trans with a; [|lia]. apply Z.div_le_upper_bound; nia. }
  assert (Hrange : (min_int64 <=? (if neg then - (a / dv) else a / dv))
                   && ((if neg then - (a / dv) else a / dv) <=? max_int64)
                   = true).
  { unfold min_int64, max_int64. apply andb_true_iff.
    split; apply Z.leb_le; destruct neg; lia. }
  rewrite Hrange.
  destruct neg.
  - rewrite Z.quot_opp_l by lia. rewrite Z.quot_div_nonneg by lia. reflexivity.
  - rewrite Z.quot_div_nonneg by lia. reflexivity.
Qed.

(** The count of a speed that is an integer of magnitude at most
    [2^53], for a divisor [dv] between [2^g] and [2^(g+1)]. *)
Lemma count_of_integer_speed (neg : bool) (a dv e' g : Z) :
  0 <= a <= 2 ^ 53 -> e' < 0 -> 2 <= g <= 40 ->
  2 ^ g < dv < 2 ^ (g + 1) ->
  of_Z dv = FFin false (dv * 2 ^ (- e')) e' ->
  to_int (div (of_rounded neg (round_q a 1)) (of_Z dv))
  = Z.quot (if neg then - a else a) dv.
Proof.
  intros Ha He' Hg [Hlo Hup] Hof.
  assert (Hdv : 0 < dv).
  { assert (0 < 2 ^ g) by (apply Z.pow_pos_nonneg; lia). lia. }
  destruct (round_q_int a Ha) as (m & e & Hr & Hrep & He).
  rewrite Hr, Hof. simpl of_rounded.
  assert (Hlt : a < dv * 2 ^ (53 - g)).
  { assert (H53 : 2 ^ 53 = 2 ^ g * 2 ^ (53 - g))
      by (rewrite <- Z.pow_add_r by lia; f_equal; lia).
    assert (0 < 2 ^ (53 - g)) by (apply Z.pow_pos_nonneg; lia).
    rewrite H53 in Ha. nia. }
  destruct (div_trunc neg m e a dv e' g Hrep ltac:(lia) Hdv He' ltac:(lia)
              Hlt Hup) as (m2 & e2 & Hd & Hm2 & Ht).
  rewrite Hd. apply to_int_quot; assumption.
Qed.

Lemma of_Z_15000 : of_Z 15000 = FFin false (15000 * 2 ^ (- -39)) (-39).
Proof. vm_compute. reflexivity. Qed.

Lemma of_Z_43000 : of_Z 43000 = FFin false (43000 * 2 ^ (- -37)) (-37).
Proof. vm_compute. reflexivity. Qed.


(** The magnitude of every float that the program computes is not
    negative. *)
Lemma digits_nonneg (s : string) (acc cnt : Z) :
  0 <= acc -> 0 <= (Chars.digits s acc cnt).1.1.
Proof.
  revert acc cnt. induction s as [|c s IH]; intros acc cnt Hacc; simpl;
    [exact Hacc|].
  destruct (Chars.is_digit c) eqn:Hc; [|exact Hacc].
  apply IH. unfold Chars.is_digit in Hc. apply andb_true_iff in Hc.
  destruct Hc as [Hc _]. apply Z.leb_le in Hc. unfold Chars.digit_val. lia.
Qed.

Lemma parse_number_nonneg (s : string) (n : Strconv.numlit) :
  Strconv.parse_number s = Some n -> 0 <= Strconv.n_mant n.
Proof.
  unfold Strconv.parse_number, Strconv.scan_number.
  destruct (match s with
            | String c s' => if Ascii.eqb c "-"%char then (true, s') else (false, s)
            | EmptyString => (false, s)
            end) as [neg s1].
  destruct (Strconv.scan_int s1) as [[i s2]|] eqn:Hi; [|discriminate].
  assert (H0 : 0 <= i).
  { unfold Strconv.scan_int in Hi. destruct s1 as [|c s1]; [discriminate|].
    destruct (Ascii.eqb c "0"%char); [injection Hi as <- _; lia|].
    destruct (Chars.is_digit c) eqn:Hc; [|discriminate].
    pose proof (digits_nonneg s1 (Chars.digit_val c) 1) as Hd.
    destruct (Chars.digits s1 (Chars.digit_val c) 1) as [[v k] r].
    injection Hi as <- _. apply Hd.
    unfold Chars.is_digit in Hc. apply andb_true_iff in Hc.
    destruct Hc as [Hc _]. apply Z.leb_le in Hc. unfold Chars.digit_val. lia. }
  destruct (Strconv.scan_frac i s2) as [[[m fr] s3]|] eqn:Hf; [|discriminate].
  assert (Hm : 0 <= m).
  { unfold Strconv.scan_frac in Hf. destruct s2 as [|c s2].
    - injection Hf as <- _ _. exact H0.
    - destruct (Ascii.eqb c "."%char).
      + destruct s2 as [|d s2]; [discriminate|].
        destruct (Chars.is_digit d); [|discriminate].
        pose proof (digits_nonneg (String d s2) i 0 H0) as Hd.
        assert (E : Chars.digits (String d s2) i 0 = (m, fr, s3))
          by congruence.
        rewrite E in Hd. exact Hd.
      + injection Hf as <- _ _. exact H0. }
  destruct (Strconv.scan_exp s3) as [[ex s4]|]; [|discriminate].
  destruct s4; [|discriminate]. intros H. injection H as <-. exact Hm.
Qed.

Lemma round_q_nonneg (n d m e : Z) :
  0 <= n -> 0 < d -> round_q n d = Some (m, e) -> 0 <= m.
Proof.
  intros Hn Hd. unfold round_q.
  destruct (n =? 0); [intros H; injection H as <- _; lia|].
  set (e0 := Z.max emin (ilog2_q n d - (prec - 1))).
  set (m0 := if 0 <=? e0 then round_half_even n (d * 2 ^ e0)
             else round_half_even (n * 2 ^ (- e0)) d).
  assert (H0 : 0 <= m0).
  { subst m0. destruct (Z.leb_spec 0 e0).
    - assert (0 < d * 2 ^ e0)
        by (apply Z.mul_pos_pos; [lia | apply Z.pow_pos_nonneg; lia]).
      pose proof (round_half_even_lower n (d * 2 ^ e0) Hn ltac:(lia)).
      pose proof (Z.div_pos n (d * 2 ^ e0) Hn ltac:(lia)). lia.
    - assert (0 <= n * 2 ^ (- e0))
        by (apply Z.mul_nonneg_nonneg; [lia | apply Z.pow_nonneg; lia]).
      pose proof (round_half_even_lower (n * 2 ^ (- e0)) d ltac:(lia) Hd).
      pose proof (Z.div_pos (n * 2 ^ (- e0)) d ltac:(lia) Hd). lia. }
  destruct (m0 =? 2 ^ prec).
  - destruct (emax - prec <? e0 + 1); [discriminate|].
    intros H. injection H as <- _. unfold prec. lia.
  - destruct (emax - prec <? e0); [discriminate|].
    intros H. injection H as <- _. exact H0.
Qed.

Lemma Float64_nonneg (text : string) (neg : bool) (m e : Z) :
  fst (Float64 text) = FFin neg m e -> 0 <= m.
Proof.
  unfold Float64, Strconv.ParseFloat.
  destruct (Strconv.parse_number text) as [n|] eqn:Hn.
  - apply parse_number_nonneg in Hn.
    unfold Strconv.float_of_numlit.
    set (k := Strconv.n_exp10 n - Strconv.n_fracs n).
    destruct (if 0 <=? k then round_q (Strconv.n_mant n * 10 ^ k) 1
              else round_q (Strconv.n_mant n) (10 ^ (- k)))
      as [[m0 e0]|] eqn:Hr; simpl; [|discriminate].
    intros H. injection H as _ <- _.
    destruct (Z.leb_spec 0 k).
    + eapply round_q_nonneg; [| |exact Hr]; [|lia].
      apply Z.mul_nonneg_nonneg; [exact Hn | apply Z.pow_nonneg; lia].
    + eapply round_q_nonneg; [exact Hn| |exact Hr].
      apply Z.pow_pos_nonneg; lia.
  - simpl. intros H. injection H as _ <- _. lia.
Qed.

Lemma div_nonneg (x : float64) (dv e' : Z) (neg : bool) (m e : Z) :
  (forall s mx ex, x = FFin s mx ex -> 0 <= mx) ->
  0 < dv -> e' < 0 ->
  div x (FFin false (dv * 2 ^ (- e')) e') = FFin neg m e -> 0 <= m.
Proof.
  intros Hx Hdv He'.
  assert (Hpos : 0 < dv * 2 ^ (- e'))
    by (apply Z.mul_pos_pos; [lia | apply Z.pow_pos_nonneg; lia]).
  destruct x as [s mx ex| |]; simpl; try discriminate.
  specialize (Hx s mx ex eq_refl).
  destruct (Z.eqb_spec (dv * 2 ^ (- e')) 0); [lia|].
  destruct (if 0 <=? ex - e'
            then round_q (mx * 2 ^ (ex - e')) (dv * 2 ^ (- e'))
            else round_q mx (dv * 2 ^ (- e') * 2 ^ (- (ex - e'))))
    as [[m0 e0]|] eqn:Hr; simpl; [|discriminate].
  intros H. injection H as _ <- _.
  destruct (Z.leb_spec 0 (ex - e')).
  - eapply round_q_nonneg; [| |exact Hr]; [|lia].
    apply Z.mul_nonneg_nonneg; [lia | apply Z.pow_nonneg; lia].
  - eapply round_q_nonneg; [exact Hx| |exact Hr].
    apply Z.mul_pos_pos; [lia | apply Z.pow_pos_nonneg; lia].
Qed.

(** The conversion to an integer gives the count of the quotient. *)
Lemma to_int_count (q : float64) :
  (forall s m e, q = FFin s m e -> 0 <= m) -> count_of q (to_int q).
Proof.
  intros Hq. destruct q as [neg m e| |]; simpl; try reflexivity.
  split; [exact (Hq neg m e eq_refl)|].
  exists (trunc_abs m e). split; [|reflexivity].
  unfold integer_part, trunc_abs. destruct (Z.leb_spec 0 e); [left; lia|].
  right. split; [lia|].
  assert (Hk : 0 < 2 ^ (- e)) by (apply Z.pow_pos_nonneg; lia).
  pose proof (Z.mul_div_le m (2 ^ (- e)) Hk).
  pose proof (Z.mul_succ_div_gt m (2 ^ (- e)) Hk). lia.
Qed.



(** ** Dates, zones and the layout *)

Import Time Chars.

Lemma cycle_year_start (r yd : Z) :
  0 <= r < 400 -> 0 <= yd < year_length (r + 1) ->
  cycle_year (cycle_start r + yd) = (r, yd).
Proof.
  intros Hr Hyd. unfold cycle_year, cycle_start, year_length, is_leap in *.
  unfold daysPer100Years, daysPer4Years.
  revert Hyd. bool_cases; simpl; intros Hyd.
  all: f_equal; Z.div_mod_to_equations; lia.
Qed.

(** A property of the integers of a short range is checked on each of
    them. *)
Lemma Z_between (lo : Z) (k : nat) (P : Z -> Prop) :
  (forall i : nat, (i < k)%nat -> P (lo + Z.of_nat i)) ->
  forall n, lo <= n < lo + Z.of_nat k -> P n.
Proof.
  intros H n Hn. replace n with (lo + Z.of_nat (Z.to_nat (n - lo))) by lia.
  apply H. lia.
Qed.

Lemma month_day_before (leap : bool) (m d : Z) :
  1 <= m <= 12 ->
  1 <= d <= (if m =? 2 then (if leap then 29 else 28)
             else if (m =? 4) || (m =? 6) || (m =? 9) || (m =? 11) then 30
             else 31) ->
  month_day leap
    (match m with
     | 1 => 0 | 2 => 31 | 3 => 59 | 4 => 90 | 5 => 120 | 6 => 151
     | 7 => 181 | 8 => 212 | 9 => 243 | 10 => 273 | 11 => 304 | _ => 334
     end + (if (2 <? m) && leap then 1 else 0) + (d - 1))
  = (m, d).
Proof.
  intros Hm. revert d. pattern m. apply (Z_between 1 12); [|lia].
  intros i Hi d. unfold month_day.
  do 12 (destruct i as [|i];
         [destruct leap; simpl; intros Hd; bool_cases; try lia; f_equal; lia|]).
  lia.
Qed.

Lemma is_leap_cycle (q r : Z) :
  is_leap (400 * q + r + 1) = is_leap (r + 1).
Proof.
  unfold is_leap.
  replace ((400 * q + r + 1) mod 4) with ((r + 1) mod 4)
    by (Z.div_mod_to_equations; lia).
  replace ((400 * q + r + 1) mod 100) with ((r + 1) mod 100)
    by (Z.div_mod_to_equations; lia).
  replace ((400 * q + r + 1) mod 400) with ((r + 1) mod 400)
    by (Z.div_mod_to_equations; lia).
  reflexivity.
Qed.

Lemma days_before_month_bound (y m d : Z) :
  1 <= m <= 12 -> 1 <= d <= daysIn m y ->
  0 <= days_before_month y m + (d - 1) < year_length y.
Proof.
  intros Hm. revert d. pattern m. apply (Z_between 1 12); [|lia].
  intros i Hi d. unfold days_before_month, daysIn, year_length.
  do 12 (destruct i as [|i]; [destruct (is_leap y); simpl; lia|]).
  lia.
Qed.

Lemma civil_round_trip (y m d : Z) :
  1 <= m <= 12 -> 1 <= d <= daysIn m y ->
  civil_from_days (days_from_civil y m d) = (y, m, d).
Proof.
  intros Hm Hd.
  set (q := (y - 1) / 400). set (r := (y - 1) mod 400).
  assert (Hy : y = 400 * q + r + 1).
  { subst q r. pose proof (Z.div_mod (y - 1) 400 ltac:(lia)). lia. }
  assert (Hr : 0 <= r < 400) by (subst r; apply Z.mod_pos_bound; lia).
  set (yd := days_before_month y m + (d - 1)).
  pose proof (days_before_month_bound y m d Hm Hd) as Hyd. fold yd in Hyd.
  assert (HD : days_from_civil y m d + unix_epoch_days
               = 146097 * q + (cycle_start r + yd)).
  { unfold days_from_civil, cycle_start. subst yd.
    replace (y - 1) with (400 * q + r) by lia.
    generalize (days_before_month y m). intros z.
    Z.div_mod_to_equations. lia. }
  assert (Hrange : 0 <= cycle_start r + yd < 146097).
  { unfold cycle_start. unfold year_length in Hyd.
    destruct (is_leap y); Z.div_mod_to_equations; lia. }
  unfold civil_from_days. rewrite HD. unfold daysPer400Years.
  replace ((146097 * q + (cycle_start r + yd)) mod 146097)
    with (cycle_start r + yd)
    by (apply (Z.mod_unique _ _ q); lia).
  replace ((146097 * q + (cycle_start r + yd)) / 146097) with q
    by (apply (Z.div_unique _ _ q (cycle_start r + yd)); lia).
  pose proof (is_leap_cycle q r) as Hleap. rewrite <- Hy in Hleap.
  rewrite cycle_year_start;
    [|assumption|unfold year_length in *; rewrite <- Hleap; exact Hyd].
  replace (400 * q + r + 1) with y by lia.
  subst yd. unfold days_before_month.
  rewrite <- Z.add_assoc.
  rewrite Z.add_assoc.
  rewrite month_day_before; [reflexivity | assumption | exact Hd].
Qed.

Lemma valid_clock_fields (c : Clock) :
  valid_clock c = true ->
  0 <= year c <= 9999 /\ 1 <= month c <= 12
  /\ 1 <= day c <= daysIn (month c) (year c)
  /\ 0 <= hour c < 24 /\ 0 <= minute c < 60 /\ 0 <= second c < 60.
Proof.
  unfold valid_clock. rewrite !andb_true_iff.
  rewrite !Z.leb_le, !Z.ltb_lt. tauto.
Qed.

Lemma clock_round_trip (c : Clock) :
  valid_clock c = true -> clock_of_seconds (clock_seconds c) = c.
Proof.
  intros Hv. apply valid_clock_fields in Hv.
  destruct Hv as (Hy & Hm & Hd & Hh & Hmi & Hs).
  destruct c as [y m d h mi s]. simpl in *.
  unfold clock_of_seconds, clock_seconds. simpl.
  set (n := days_from_civil y m d).
  set (t := h * 3600 + mi * 60 + s).
  assert (Ht : 0 <= t < 86400) by (subst t; lia).
  replace (n * 86400 + h * 3600 + mi * 60 + s) with (86400 * n + t)
    by (subst t; lia).
  replace ((86400 * n + t) / 86400) with n
    by (apply (Z.div_unique _ _ n t); lia).
  replace ((86400 * n + t) mod 86400) with t
    by (apply (Z.mod_unique _ _ n); lia).
  subst n. rewrite civil_round_trip by assumption.
  f_equal; subst t; Z.div_mod_to_equations; lia.
Qed.

Lemma Date_unix_steady (loc : Location) (c : Clock) :
  steady loc c ->
  Date_unix loc c = clock_seconds c - offset_at loc (clock_seconds c)
  /\ clock_seconds c
     = Date_unix loc c + offset_at loc (Date_unix loc c).
Proof.
  unfold steady, Date_unix, offset_at.
  destruct (lookup loc (clock_seconds c)) as [[off start] end_] eqn:Hl.
  simpl. intros Hs.
  destruct (off =? 0) eqn:H0.
  - apply Z.eqb_eq in H0. subst off. rewrite Hl. simpl. lia.
  - destruct ((clock_seconds c - off <? start)
              || (end_ <=? clock_seconds c - off)); rewrite ?Hs; lia.
Qed.

(** A zone without transitions is steady at every reading. *)
Lemma steady_without_transitions (loc : Location) (c : Clock) :
  zone_trans loc = [] -> steady loc c.
Proof.
  intros Hnil. unfold steady, offset_at, lookup. rewrite Hnil. reflexivity.
Qed.

Lemma local_clock_round_trip (loc : Location) (c : Clock) :
  valid_clock c = true -> steady loc c ->
  local_clock loc (Date_unix loc c) = c.
Proof.
  intros Hv Hs. unfold local_clock.
  destruct (Date_unix_steady loc c Hs) as [_ <-].
  apply clock_round_trip. exact Hv.
Qed.

Lemma digit_char_facts (n : Z) :
  0 <= n <= 9 ->
  is_digit (digit_char n) = true /\ digit_val (digit_char n) = n
  /\ Ascii.eqb (digit_char n) " "%char = false.
Proof.
  intros Hn. pattern n. apply (Z_between 0 10); [|lia].
  intros i Hi. do 10 (destruct i as [|i]; [repeat split|]). lia.
Qed.

Lemma is_digit_inv (a : ascii) :
  is_digit a = true -> a = digit_char (digit_val a) /\ 0 <= digit_val a <= 9.
Proof.
  destruct a as [[] [] [] [] [] [] [] []]; intros H; try discriminate H;
    split; try reflexivity; cbv; split; discriminate.
Qed.

Lemma app_String (a : ascii) (s r : string) :
  String a s +:+ r = String a (s +:+ r).
Proof. reflexivity. Qed.

Lemma app_Empty (r : string) : EmptyString +:+ r = r.
Proof. reflexivity. Qed.

Ltac norm_app := rewrite ?app_String, ?app_Empty.

Lemma getyear_pad4 (y : Z) (rest : string) :
  0 <= y <= 9999 -> getyear (pad4 y +:+ rest) = Some (y, rest).
Proof.
  intros Hy. unfold pad4. norm_app. unfold getyear.
  destruct (digit_char_facts (y / 1000)) as (-> & -> & _);
    [Z.div_mod_to_equations; lia|].
  destruct (digit_char_facts ((y / 100) mod 10)) as (-> & -> & _);
    [Z.div_mod_to_equations; lia|].
  destruct (digit_char_facts ((y / 10) mod 10)) as (-> & -> & _);
    [Z.div_mod_to_equations; lia|].
  destruct (digit_char_facts (y mod 10)) as (-> & -> & _);
    [Z.div_mod_to_equations; lia|].
  cbn [andb]. do 2 f_equal. Z.div_mod_to_equations; lia.
Qed.

Lemma getnum_pad2 (n : Z) (fixed : bool) (rest : string) :
  0 <= n <= 99 -> getnum (pad2 n +:+ rest) fixed = Some (n, rest).
Proof.
  intros Hn. unfold pad2. norm_app. unfold getnum.
  destruct (digit_char_facts (n / 10)) as (-> & -> & _);
    [Z.div_mod_to_equations; lia|].
  destruct (digit_char_facts (n mod 10)) as (-> & -> & _);
    [Z.div_mod_to_equations; lia|].
  do 2 f_equal. Z.div_mod_to_equations; lia.
Qed.

Lemma string_app_assoc (a b c : string) : (a +:+ b) +:+ c = a +:+ (b +:+ c).
Proof. induction a as [|x a IH]; [reflexivity | rewrite !app_String, IH; reflexivity]. Qed.

Lemma skip_char_here (c : ascii) (r : string) :
  skip_char c (String c EmptyString +:+ r) = Some r.
Proof. norm_app. unfold skip_char. rewrite Ascii.eqb_refl. reflexivity. Qed.

Lemma skip_space_pad2 (n : Z) (r : string) :
  0 <= n <= 99 -> skip_space (" " +:+ pad2 n +:+ r) = Some (pad2 n +:+ r).
Proof.
  intros Hn. unfold pad2. norm_app. unfold skip_space.
  change (Ascii.eqb " " " ") with true. cbv iota. f_equal.
  cbn [cutspace]. change (Ascii.eqb " " " ") with true. cbv iota.
  destruct (digit_char_facts (n / 10)) as (_ & _ & ->);
    [Z.div_mod_to_equations; lia|].
  reflexivity.
Qed.

Lemma in_range_true (lo hi x : Z) : lo <= x < hi -> in_range lo hi x = true.
Proof.
  intros H. unfold in_range. apply andb_true_iff.
  split; [apply Z.leb_le | apply Z.ltb_lt]; lia.
Qed.

Lemma parse_format (c : Clock) :
  valid_clock c = true -> parse_layout (format_clock c) = Some c.
Proof.
  intros Hv. pose proof Hv as Hf. apply valid_clock_fields in Hf.
  destruct Hf as (Hy & Hm & Hd & Hh & Hmi & Hs).
  destruct c as [y mo d h mi se]. cbn [year month day hour minute second] in *.
  assert (Hd99 : 0 <= d <= 99).
  { unfold daysIn in Hd.
    repeat match type of Hd with
           | context [if ?b then _ else _] => destruct b
           end; lia. }
  unfold format_clock, format_date. cbn [year month day hour minute second].
  rewrite !string_app_assoc. unfold parse_layout.
  rewrite getyear_pad4 by lia. cbn [mbind option_bind].
  rewrite skip_char_here. cbn [mbind option_bind].
  rewrite getnum_pad2 by lia. cbn [mbind option_bind].
  rewrite in_range_true by lia. cbn [negb].
  rewrite skip_char_here. cbn [mbind option_bind].
  rewrite getnum_pad2 by lia. cbn [mbind option_bind].
  rewrite skip_space_pad2 by lia. cbn [mbind option_bind].
  rewrite getnum_pad2 by lia. cbn [mbind option_bind].
  rewrite in_range_true by lia. cbn [negb].
  rewrite skip_char_here. cbn [mbind option_bind].
  rewrite getnum_pad2 by lia. cbn [mbind option_bind].
  rewrite in_range_true by lia. cbn [negb].
  rewrite skip_char_here. cbn [mbind option_bind].
  replace (pad2 se) with (pad2 se +:+ "") by (unfold pad2; reflexivity).
  rewrite getnum_pad2 by lia. cbn [mbind option_bind].
  rewrite in_range_true by lia. cbn [negb skip_fraction].
  destruct Hd as [Hd1 Hd2].
  apply Z.leb_le in Hd1, Hd2. rewrite Hd1, Hd2. reflexivity.
Qed.

Lemma getyear_inv (s r : string) (y : Z) :
  getyear s = Some (y, r) -> s = pad4 y +:+ r /\ 0 <= y <= 9999.
Proof.
  destruct s as [|a [|b [|c [|d s]]]]; try discriminate.
  unfold getyear.
  destruct (is_digit a) eqn:Ha; [|discriminate].
  destruct (is_digit b) eqn:Hb; [|discriminate].
  destruct (is_digit c) eqn:Hc; [|discriminate].
  destruct (is_digit d) eqn:Hd; [|discriminate].
  cbn [andb]. intros H. injection H as <- <-.
  apply is_digit_inv in Ha, Hb, Hc, Hd.
  destruct Ha as [Ha Ha'], Hb as [Hb Hb'], Hc as [Hc Hc'], Hd as [Hd Hd'].
  set (y := ((digit_val a * 10 + digit_val b) * 10 + digit_val c) * 10
            + digit_val d).
  split; [|subst y; lia].
  unfold pad4. norm_app.
  replace (y / 1000) with (digit_val a) by (subst y; Z.div_mod_to_equations; lia).
  replace ((y / 100) mod 10) with (digit_val b)
    by (subst y; Z.div_mod_to_equations; lia).
  replace ((y / 10) mod 10) with (digit_val c)
    by (subst y; Z.div_mod_to_equations; lia).
  replace (y mod 10) with (digit_val d) by (subst y; Z.div_mod_to_equations; lia).
  congruence.
Qed.

Lemma getnum_inv (s r : string) (fixed : bool) (n : Z) :
  getnum s fixed = Some (n, r) ->
  0 <= n <= 99
  /\ (s = pad2 n +:+ r
      \/ (fixed = false /\ 0 <= n <= 9 /\ s = String (digit_char n) r)).
Proof.
  destruct s as [|a s]; [discriminate|]. unfold getnum.
  destruct (is_digit a) eqn:Ha; [|discriminate].
  apply is_digit_inv in Ha. destruct Ha as [Ha Ha'].
  assert (Hone : (if fixed then None else Some (digit_val a, s)) = Some (n, r) ->
                 0 <= n <= 99
                 /\ (String a s = pad2 n +:+ r
                     \/ (fixed = false /\ 0 <= n <= 9
                         /\ String a s = String (digit_char n) r))).
  { destruct fixed; [discriminate|]. intros H. injection H as <- <-.
    split; [lia|]. right. repeat split; try lia. congruence. }
  destruct s as [|b s]; [exact Hone|].
  destruct (is_digit b) eqn:Hb; [|exact Hone].
  apply is_digit_inv in Hb. destruct Hb as [Hb Hb'].
  intros H. injection H as <- <-.
  split; [lia|]. left. unfold pad2. norm_app.
  replace ((digit_val a * 10 + digit_val b) / 10) with (digit_val a)
    by (Z.div_mod_to_equations; lia).
  replace ((digit_val a * 10 + digit_val b) mod 10) with (digit_val b)
    by (Z.div_mod_to_equations; lia).
  congruence.
Qed.

Lemma skip_char_inv (c : ascii) (s r : string) :
  skip_char c s = Some r -> s = String c EmptyString +:+ r.
Proof.
  destruct s as [|a s]; [discriminate|]. unfold skip_char.
  destruct (Ascii.eqb a c) eqn:E; [|discriminate].
  apply Ascii.eqb_eq in E. intros H. injection H as <-. subst a. reflexivity.
Qed.

Lemma cutspace_spec (s : string) :
  exists gap, s = gap +:+ cutspace s /\ all_spaces gap = true.
Proof.
  induction s as [|a s IH]; [exists EmptyString; split; reflexivity|].
  cbn [cutspace]. destruct (Ascii.eqb a " ") eqn:E.
  - destruct IH as (gap & Hs & Hg). exists (String a gap).
    norm_app. split; [congruence|]. cbn [all_spaces]. rewrite E, Hg. reflexivity.
  - exists EmptyString. split; reflexivity.
Qed.

Lemma skip_space_inv (s r : string) :
  skip_space s = Some r ->
  (s = EmptyString /\ r = EmptyString)
  \/ exists gap, s = " " +:+ gap +:+ r /\ all_spaces gap = true.
Proof.
  destruct s as [|a s]; [intros H; injection H as <-; left; split; reflexivity|].
  unfold skip_space. destruct (Ascii.eqb a " ") eqn:E; [|discriminate].
  apply Ascii.eqb_eq in E. subst a. intros H. injection H as <-.
  right. cbn [cutspace]. change (Ascii.eqb " " " ") with true. cbv iota.
  destruct (cutspace_spec s) as (gap & Hs & Hg).
  exists gap. split; [|exact Hg]. norm_app. congruence.
Qed.

Lemma cutdigits_spec (s : string) :
  cutdigits s = EmptyString -> all_digits s = true.
Proof.
  induction s as [|a s IH]; [reflexivity|]. cbn [cutdigits all_digits].
  destruct (is_digit a); [exact IH | discriminate].
Qed.

Lemma skip_fraction_inv (s : string) :
  skip_fraction s = EmptyString -> is_fraction s = true.
Proof.
  destruct s as [|a [|b s]]; try reflexivity; try discriminate.
  unfold skip_fraction, is_fraction.
  destruct ((Ascii.eqb a "." || Ascii.eqb a ",") && is_digit b) eqn:E;
    [|discriminate].
  apply andb_true_iff in E. destruct E as [-> Hb].
  intros H. apply cutdigits_spec in H. cbn [all_digits andb].
  rewrite Hb, H. reflexivity.
Qed.

Lemma parse_layout_inv (s : string) (c : Clock) :
  parse_layout s = Some c -> valid_clock c = true /\ layout_shape s c.
Proof.
  unfold parse_layout.
  destruct (getyear s) as [[y s1]|] eqn:Hy; [|discriminate].
  cbn [mbind option_bind].
  destruct (skip_char "-" s1) as [s2|] eqn:H1; [|discriminate].
  cbn [mbind option_bind].
  destruct (getnum s2 true) as [[mo s3]|] eqn:Hmo; [|discriminate].
  cbn [mbind option_bind].
  destruct (in_range 1 13 mo) eqn:Rmo; [|discriminate]. cbn [negb].
  destruct (skip_char "-" s3) as [s4|] eqn:H2; [|discriminate].
  cbn [mbind option_bind].
  destruct (getnum s4 true) as [[d s5]|] eqn:Hd; [|discriminate].
  cbn [mbind option_bind].
  destruct (skip_space s5) as [s6|] eqn:Hsp; [|discriminate].
  cbn [mbind option_bind].
  destruct (getnum s6 false) as [[h s7]|] eqn:Hh; [|discriminate].
  cbn [mbind option_bind].
  destruct (in_range 0 24 h) eqn:Rh; [|discriminate]. cbn [negb].
  destruct (skip_char ":" s7) as [s8|] eqn:H3; [|discriminate].
  cbn [mbind option_bind].
  destruct (getnum s8 true) as [[mi s9]|] eqn:Hmi; [|discriminate].
  cbn [mbind option_bind].
  destruct (in_range 0 60 mi) eqn:Rmi; [|discriminate]. cbn [negb].
  destruct (skip_char ":" s9) as [s10|] eqn:H4; [|discriminate].
  cbn [mbind option_bind].
  destruct (getnum s10 true) as [[se s11]|] eqn:Hse; [|discriminate].
  cbn [mbind option_bind].
  destruct (in_range 0 60 se) eqn:Rse; [|discriminate]. cbn [negb].
  destruct (skip_fraction s11) eqn:Hfr; [|discriminate].
  destruct ((1 <=? d) && (d <=? daysIn mo y)) eqn:Rd; [|discriminate].
  intros H. injection H as <-.
  apply getyear_inv in Hy. destruct Hy as [-> Hy].
  apply skip_char_inv in H1, H2, H3, H4. subst s1 s3 s7 s9.
  apply getnum_inv in Hmo, Hd, Hh, Hmi, Hse.
  destruct Hmo as [_ [->|(? & _)]]; [|discriminate].
  destruct Hd as [_ [->|(? & _)]]; [|discriminate].
  destruct Hmi as [_ [->|(? & _)]]; [|discriminate].
  destruct Hse as [_ [->|(? & _)]]; [|discriminate].
  apply skip_fraction_inv in Hfr.
  unfold in_range in *.
  apply andb_true_iff in Rmo, Rh, Rmi, Rse, Rd.
  rewrite Z.leb_le, Z.ltb_lt in Rmo, Rh, Rmi, Rse. rewrite !Z.leb_le in Rd.
  split.
  - unfold valid_clock. cbn [year month day hour minute second].
    repeat (apply andb_true_iff; split);
      first [apply Z.leb_le; lia | apply Z.ltb_lt; lia].
  - destruct (skip_space_inv _ _ Hsp) as [[-> ->]|(gap & -> & Hgap)].
    { destruct Hh as [_ [Hh|(_ & _ & Hh)]]; discriminate Hh. }
    exists gap.
    destruct Hh as [_ [->|(_ & Hh9 & ->)]].
    + exists (pad2 h), s11. split.
      * unfold format_date. cbn [year month day hour minute second].
        rewrite !string_app_assoc. reflexivity.
      * split; [exact Hgap|]. split; [left; reflexivity | exact Hfr].
    + exists (String (digit_char h) EmptyString), s11. split.
      * unfold format_date. cbn [year month day hour minute second].
        rewrite !string_app_assoc. reflexivity.
      * split; [exact Hgap|]. split; [right; split; [exact Hh9|reflexivity] | exact Hfr].
Qed.

Lemma two_digits (a b : ascii) :
  is_digit a = true -> is_digit b = true ->
  exists n, 0 <= n <= 99 /\ forall r, String a (String b r) = pad2 n +:+ r.
Proof.
  intros Ha Hb. exists (digit_val a * 10 + digit_val b).
  pose proof (is_digit_inv a Ha) as [_ Ha'].
  pose proof (is_digit_inv b Hb) as [_ Hb'].
  split; [lia|]. intros r.
  assert (Hg : getnum (String a (String b r)) true
               = Some (digit_val a * 10 + digit_val b, r)).
  { unfold getnum. rewrite Ha, Hb. reflexivity. }
  destruct (getnum_inv _ _ _ _ Hg) as [_ [H|(H & _)]];
    [exact H | discriminate H].
Qed.

Lemma four_digits (a b c d : ascii) :
  is_digit a = true -> is_digit b = true ->
  is_digit c = true -> is_digit d = true ->
  exists y, 0 <= y <= 9999
            /\ forall r, String a (String b (String c (String d r))) = pad4 y +:+ r.
Proof.
  intros Ha Hb Hc Hd.
  exists (((digit_val a * 10 + digit_val b) * 10 + digit_val c) * 10
          + digit_val d).
  assert (Hg : forall r, getyear (String a (String b (String c (String d r))))
               = Some (((digit_val a * 10 + digit_val b) * 10 + digit_val c) * 10
                       + digit_val d, r)).
  { intros r. unfold getyear. rewrite Ha, Hb, Hc, Hd. reflexivity. }
  split; [exact (proj2 (getyear_inv _ _ _ (Hg EmptyString)))|].
  intros r. exact (proj1 (getyear_inv _ _ _ (Hg r))).
Qed.

(** A value in the literal form is the literal form of some reading,
    whose fields may be out of range. *)
Lemma literal_format_inv (s : string) :
  literal_format s = true -> exists c, s = format_clock c.
Proof.
  destruct s as [|y1 [|y2 [|y3 [|y4 [|a [|m1 [|m2 [|b [|d1 [|d2 [|sp [|h1 [|h2
    [|c1 [|n1 [|n2 [|c2 [|s1 [|s2 [|x s]]]]]]]]]]]]]]]]]]]];
    try discriminate.
  unfold literal_format. rewrite !andb_true_iff, !Ascii.eqb_eq.
  intros H.
  repeat match type of H with _ /\ _ => destruct H as [H ?] end. subst.
  destruct (four_digits y1 y2 y3 y4) as (y & _ & Hy); try assumption.
  destruct (two_digits m1 m2) as (mo & _ & Hmo); try assumption.
  destruct (two_digits d1 d2) as (d & _ & Hd); try assumption.
  destruct (two_digits h1 h2) as (h & _ & Hh); try assumption.
  destruct (two_digits n1 n2) as (mi & _ & Hmi); try assumption.
  destruct (two_digits s1 s2) as (se & _ & Hse); try assumption.
  exists (MkClock y mo d h mi se).
  unfold format_clock, format_date. cbn [year month day hour minute second].
  rewrite !string_app_assoc, Hy. norm_app. do 5 f_equal.
  rewrite Hmo. norm_app. do 3 f_equal.
  rewrite Hd. norm_app. do 3 f_equal.
  rewrite Hh. norm_app. do 3 f_equal.
  rewrite Hmi. norm_app. do 3 f_equal.
  rewrite Hse. unfold pad2. reflexivity.
Qed.

Lemma literal_format_format_clock (c : Clock) :
  valid_clock c = true -> literal_format (format_clock c) = true.
Proof.
  intros Hv. apply valid_clock_fields in Hv.
  destruct Hv as (Hy & Hm & Hd & Hh & Hmi & Hs).
  destruct c as [y mo d h mi se]. cbn [year month day hour minute second] in *.
  assert (Hd99 : 0 <= d <= 99).
  { unfold daysIn in Hd.
    repeat match type of Hd with
           | context [if ?b then _ else _] => destruct b
           end; lia. }
  unfold format_clock, format_date, pad4, pad2.
  cbn [year month day hour minute second].
  rewrite !string_app_assoc. norm_app. unfold literal_format.
  repeat match goal with
         | |- context [is_digit (digit_char ?k)] =>
             rewrite (proj1 (digit_char_facts k ltac:(Z.div_mod_to_equations; lia)))
         end.
  reflexivity.
Qed.

Lemma year_start_next (y : Z) :
  days_from_civil (y + 1) 1 1 = days_from_civil y 1 1 + year_length y.
Proof.
  unfold days_from_civil, year_length, is_leap, days_before_month. simpl.
  replace (y + 1 - 1) with y by lia.
  bool_cases; simpl; Z.div_mod_to_equations; lia.
Qed.

Lemma year_start_mono (y y' : Z) :
  y <= y' -> days_from_civil y 1 1 <= days_from_civil y' 1 1.
Proof.
  unfold days_from_civil, days_before_month. simpl.
  intros H. Z.div_mod_to_equations. lia.
Qed.

Lemma days_from_year_start (y m d : Z) :
  days_from_civil y m d
  = days_from_civil y 1 1 + (days_before_month y m + (d - 1)).
Proof. unfold days_from_civil, days_before_month. simpl. lia. Qed.

Lemma month_start_mono (y m m' : Z) :
  1 <= m -> m < m' -> m' <= 12 ->
  days_before_month y m + daysIn m y <= days_before_month y m'.
Proof.
  intros H1 H2 H3.
  assert (Hm : 1 <= m < 1 + Z.of_nat 12) by lia.
  assert (Hm' : 1 <= m' < 1 + Z.of_nat 12) by lia.
  clear H1 H3. revert m' Hm' H2. pattern m. apply (Z_between 1 12); [|lia].
  clear m Hm. intros i Hi m' Hm'. pattern m'. apply (Z_between 1 12); [|lia].
  clear m' Hm'. intros j Hj Hlt. unfold days_before_month, daysIn.
  do 12 (destruct i as [|i];
         [do 12 (destruct j as [|j];
                 [try lia; destruct (is_leap y); simpl; lia|]); lia|]).
  lia.
Qed.

Lemma clock_seconds_range (c : Clock) :
  valid_clock c = true ->
  -62167219200 <= clock_seconds c <= 253402300799.
Proof.
  intros Hv. apply valid_clock_fields in Hv.
  destruct c as [y m d h mi s]. unfold clock_seconds. simpl in *.
  destruct Hv as (Hy & Hm & Hd & Hh & Hmi & Hs).
  rewrite (days_from_year_start y m d).
  pose proof (days_before_month_bound y m d Hm Hd) as Hb.
  pose proof (year_start_next y) as Hn.
  pose proof (year_start_mono 0 y ltac:(lia)) as Hlo.
  pose proof (year_start_mono (y + 1) 10000 ltac:(lia)) as Hhi.
  change (days_from_civil 0 1 1) with (-719528) in Hlo.
  change (days_from_civil 10000 1 1) with 2932897 in Hhi.
  lia.
Qed.

Lemma lookup_from_offset (tx : list (Z * Z)) (off start sec : Z) :
  (lookup_from off start tx sec).1.1 ∈ off :: (snd <$> tx).
Proof.
  revert off start. induction tx as [|[w o] tx IH]; intros off start; simpl.
  - apply elem_of_cons. left. reflexivity.
  - destruct (sec <? w); simpl; [apply elem_of_cons; left; reflexivity|].
    apply elem_of_cons. right. apply IH.
Qed.

Lemma offset_at_member (loc : Location) (sec : Z) :
  offset_at loc sec ∈ zone_offsets loc.
Proof. apply lookup_from_offset. Qed.

Lemma Date_unix_offset (loc : Location) (c : Clock) :
  exists o, o ∈ zone_offsets loc /\ Date_unix loc c = clock_seconds c - o.
Proof.
  unfold Date_unix.
  pose proof (offset_at_member loc (clock_seconds c)) as Hm.
  unfold offset_at in Hm.
  destruct (Time.lookup loc (clock_seconds c)) as [[off start] end_].
  simpl in Hm.
  destruct (Z.eqb_spec off 0) as [->|Hne].
  - exists 0. split; [exact Hm | lia].
  - destruct ((clock_seconds c - off <? start) || (end_ <=? clock_seconds c - off)).
    + eexists. split; [apply offset_at_member | reflexivity].
    + exists off. split; [exact Hm | reflexivity].
Qed.

Lemma cycle_year_inv (r : Z) :
  0 <= r < 146097 ->
  0 <= (cycle_year r).1 < 400
  /\ 0 <= (cycle_year r).2 < year_length ((cycle_year r).1 + 1)
  /\ r = cycle_start (cycle_year r).1 + (cycle_year r).2.
Proof.
  intros Hr. unfold cycle_year, cycle_start, year_length, is_leap,
    daysPer100Years, daysPer4Years. cbn [fst snd].
  set (n100 := Z.min (r / 36524) 3).
  assert (H100 : 0 <= n100 <= 3 /\ 0 <= r - 36524 * n100 <= 36524
                 /\ (n100 < 3 -> r - 36524 * n100 < 36524)).
  { subst n100. Z.div_mod_to_equations. lia. }
  clearbody n100.
  set (n4 := (r - 36524 * n100) / 1461).
  assert (H4 : 0 <= n4 <= 24
               /\ 0 <= r - 36524 * n100 - 1461 * n4 <= 1460
               /\ (n4 = 24 -> n100 < 3 -> r - 36524 * n100 - 1461 * n4 < 1460)).
  { subst n4. Z.div_mod_to_equations. lia. }
  clearbody n4.
  set (n1 := Z.min ((r - 36524 * n100 - 1461 * n4) / 365) 3).
  assert (H1 : 0 <= n1 <= 3
               /\ 0 <= r - 36524 * n100 - 1461 * n4 - 365 * n1 <= 365
               /\ (n1 < 3 -> r - 36524 * n100 - 1461 * n4 - 365 * n1 < 365)
               /\ (r - 36524 * n100 - 1461 * n4 < 1460 ->
                   r - 36524 * n100 - 1461 * n4 - 365 * n1 < 365)).
  { subst n1. Z.div_mod_to_equations. lia. }
  clearbody n1.
  bool_cases; simpl; Z.div_mod_to_equations; lia.
Qed.

Lemma month_day_inv (y yd : Z) :
  0 <= yd < year_length y ->
  1 <= (month_day (is_leap y) yd).1 <= 12
  /\ 1 <= (month_day (is_leap y) yd).2
     <= daysIn (month_day (is_leap y) yd).1 y
  /\ days_before_month y (month_day (is_leap y) yd).1
     + ((month_day (is_leap y) yd).2 - 1) = yd.
Proof.
  unfold month_day, year_length.
  destruct (is_leap y) eqn:Hleap; intros H; bool_cases; cbn [fst snd];
    unfold daysIn, days_before_month; rewrite Hleap; simpl; lia.
Qed.

Lemma civil_from_days_inv (n : Z) :
  1 <= (civil_from_days n).1.2 <= 12
  /\ 1 <= (civil_from_days n).2
     <= daysIn (civil_from_days n).1.2 (civil_from_days n).1.1
  /\ days_from_civil (civil_from_days n).1.1 (civil_from_days n).1.2
       (civil_from_days n).2 = n.
Proof.
  unfold civil_from_days, daysPer400Years.
  set (D := n + unix_epoch_days).
  pose proof (Z.mod_pos_bound D 146097 ltac:(lia)) as Hr.
  destruct (cycle_year_inv (D mod 146097) Hr) as (Hyc & Hyd & Hsum).
  destruct (cycle_year (D mod 146097)) as [yc yd]. cbn [fst snd] in *.
  set (y := 400 * (D / 146097) + yc + 1).
  assert (Hleap : is_leap y = is_leap (yc + 1)) by apply is_leap_cycle.
  assert (Hyd' : 0 <= yd < year_length y).
  { unfold year_length in *. rewrite Hleap. exact Hyd. }
  destruct (month_day_inv y yd Hyd') as (Hm & Hd & Hs).
  destruct (month_day (is_leap y) yd) as [m d]. cbn [fst snd] in *.
  split; [exact Hm|]. split; [exact Hd|].
  unfold days_from_civil.
  replace (y - 1) with (400 * (D / 146097) + yc) by (subst y; lia).
  pose proof (Z.div_mod D 146097 ltac:(lia)) as HD.
  unfold cycle_start in Hsum. subst D.
  revert Hs Hsum HD. generalize (days_before_month y m). intros z Hs Hsum HD.
  unfold unix_epoch_days in *. Z.div_mod_to_equations. lia.
Qed.

Lemma clock_of_seconds_inv (u : Z) :
  1 <= month (clock_of_seconds u) <= 12
  /\ 1 <= day (clock_of_seconds u)
     <= daysIn (month (clock_of_seconds u)) (year (clock_of_seconds u))
  /\ 0 <= hour (clock_of_seconds u) < 24
  /\ 0 <= minute (clock_of_seconds u) < 60
  /\ 0 <= second (clock_of_seconds u) < 60
  /\ clock_seconds (clock_of_seconds u) = u.
Proof.
  unfold clock_of_seconds, clock_seconds.
  destruct (civil_from_days_inv (u / 86400)) as (Hm & Hd & Hn).
  destruct (civil_from_days (u / 86400)) as [[y m] d].
  cbn [fst snd year month day hour minute second] in *.
  rewrite Hn. repeat split; try assumption; Z.div_mod_to_equations; lia.
Qed.




(** * Further properties *)

(** ** The dates are checked before anything else is done *)

(** X1. The dates are checked before anything else is done.  When the
    local zone cannot be loaded or the start text is not accepted, the
    run consists of [log.Fatal] alone, with the error under the context
    of the start; the end text is looked at only when the start is
    accepted, and its error comes under the context of the end.  Nothing
    is printed, requested or read in these runs.  When both texts are
    accepted, the run begins by printing the two timestamps. *)
Theorem bad_date_aborts_first (w : World) (c : Flags) :
  (local_zone w = None ->
   main w c
   = [EvFatal (Wrap "error parsing start date and time" ErrLoadLocation)])
  /\ (local_zone w <> None ->
      parse_layout (start_datetime c) = None ->
      main w c
      = [EvFatal (Wrap "error parsing start date and time"
                    (ErrParseTime (start_datetime c)))])
  /\ (local_zone w <> None ->
      parse_layout (start_datetime c) <> None ->
      parse_layout (end_datetime c) = None ->
      main w c
      = [EvFatal (Wrap "error parsing end date and time"
                    (ErrParseTime (end_datetime c)))])
  /\ (forall loc c0 c1,
        local_zone w = Some loc ->
        parse_layout (start_datetime c) = Some c0 ->
        parse_layout (end_datetime c) = Some c1 ->
        take 2 (main w c)
        = [EvPrint ("Start timestamp: " +:+ Strconv.Itoa (Date_unix loc c0) +:+ nl);
           EvPrint ("End timestamp: " +:+ Strconv.Itoa (Date_unix loc c1) +:+ nl)]).
Proof.
  repeat split.
  - intros Hz. unfold main, action, parseDateTime. rewrite Hz. reflexivity.
  - intros Hz Hs. unfold main, action, parseDateTime.
    destruct (local_zone w); [|congruence]. rewrite Hs. reflexivity.
  - intros Hz Hs He. unfold main, action, parseDateTime.
    destruct (local_zone w); [|congruence].
    destruct (parse_layout (start_datetime c)); [|congruence].
    rewrite He. reflexivity.
  - intros loc c0 c1 Hz Hs He. revert Hz Hs He.
    run_cases; intros Hz Hs He; try discriminate.
    all: injection Hz as <-; injection Hs as <-; injection He as <-.
    all: reflexivity.
Qed.

Lemma bad_date_aborts_first_witness :
  local_zone sample_world <> None
  /\ parse_layout (start_datetime bad_start_flags) = None
  /\ main sample_world bad_start_flags
     = [EvFatal (Wrap "error parsing start date and time"
                   (ErrParseTime "2023-13-01 00:00:00"))].
Proof.
  assert (Hz : local_zone sample_world <> None) by discriminate.
  assert (Hs : parse_layout (start_datetime bad_start_flags) = None)
    by (vm_compute; reflexivity).
  split; [exact Hz|]. split; [exact Hs|].
  destruct (bad_date_aborts_first sample_world bad_start_flags) as (_ & H & _).
  exact (H Hz Hs).
Defined.

(** ** The request of a run *)

(** X2. The program gives one request to the HTTP client in a run and
    does not call the client again: nothing is retried.  This request is
    the third effect of the run, after the two prints; it is a [POST] to
    the URL of the command line and its body carries the timestamps of
    the start and of the end, in this order.  The two are not compared: a
    window whose end lies before its start is requested as it is.  Every
    other request of the run is one that the client sends on its own
    while it follows the redirects of this call, right after it. *)
Theorem one_call_of_the_client (w : World) (c : Flags) :
  (forall (i : nat) (url body : string),
     main w c !! i = Some (EvPost url body) ->
     i = 2%nat /\ url = api_url c
     /\ exists loc c0 c1,
          local_zone w = Some loc
          /\ parse_layout (start_datetime c) = Some c0
          /\ parse_layout (end_datetime c) = Some c1
          /\ body = payload (Date_unix loc c0) (Date_unix loc c1))
  /\ (forall (i : nat) (hops : list Hop),
        main w c !! i = Some (EvFollow hops) ->
        i = 3%nat /\ hops <> []
        /\ exists body,
             main w c !! 2%nat = Some (EvPost (api_url c) body)
             /\ hops = redirects w (api_url c) body)
  /\ (forall (i : nat) (ev : Event),
        main w c !! i = Some ev -> is_post ev = true ->
        i = 2%nat \/ i = 3%nat).
Proof.
  split; [|split].
  - intros i url body.
    run_cases; intros H; at_index H; try discriminate.
    all: split; [reflexivity|]; split; [reflexivity|].
    all: do 3 eexists; repeat split; reflexivity.
  - intros i hops.
    run_cases; intros H; at_index H; try discriminate.
    all: split; [reflexivity|]; split; [discriminate|].
    all: eexists; split; [reflexivity | congruence].
  - intros i ev.
    run_cases; intros H Hp; at_index H; try discriminate Hp; auto.
Qed.

Lemma one_call_of_the_client_witness :
  main redirecting_world reversed_flags !! 2%nat
  = Some (EvPost (api_url reversed_flags) (payload 1672617600 1672531200))
  /\ main redirecting_world reversed_flags !! 3%nat
     = Some (EvFollow [HopPost "http://localhost:8088/final"])
  /\ exists loc c0 c1,
       local_zone redirecting_world = Some loc
       /\ parse_layout (start_datetime reversed_flags) = Some c0
       /\ parse_layout (end_datetime reversed_flags) = Some c1
       /\ Date_unix loc c1 < Date_unix loc c0.
Proof.
  assert (H : main redirecting_world reversed_flags !! 2%nat
              = Some (EvPost (api_url reversed_flags)
                        (payload 1672617600 1672531200)))
    by (vm_compute; reflexivity).
  split; [exact H|]. split; [vm_compute; reflexivity|].
  destruct (one_call_of_the_client redirecting_world reversed_flags)
    as [Hp _].
  destruct (Hp _ _ _ H) as (_ & _ & loc & c0 & c1 & Hz & Hs & He & Hb).
  exists loc, c0, c1. repeat split; try assumption.
  injection Hz as <-.
  vm_compute in Hs, He. injection Hs as <-. injection He as <-.
  vm_compute. reflexivity.
Defined.

(** ** What the label loader returns *)

Lemma label_of_from (results : list Csv.ReadResult) (address : string)
    (found : option string) :
  label_from found results address
  = match label_of results address with
    | Some name => Some name
    | None => found
    end.
Proof.
  unfold label_of. revert found.
  induction results as [|[record e] results IH]; intros found; [reflexivity|].
  destruct record as [|name [|a more]]; cbn [label_from]; try apply IH.
  rewrite IH. symmetry. rewrite IH.
  destruct (label_from None results address); [reflexivity|].
  destruct (String.eqb a address); reflexivity.
Qed.

Lemma clusterLoop_lookup (results : list Csv.ReadResult)
    (m m' : gmap string string) (address : string) :
  clusterLoop results m = inr m' ->
  m' !! address = match label_of results address with
                  | Some name => Some name
                  | None => m !! address
                  end.
Proof.
  revert m. induction results as [|[record [e|]] results IH]; intros m; simpl.
  - intros H. injection H as <-. reflexivity.
  - discriminate.
  - intros H. unfold label_of.
    destruct record as [|name [|a more]]; cbn [label_from];
      try (apply IH; exact H).
    apply IH in H. rewrite H, label_of_from.
    destruct (label_of results address); [reflexivity|].
    destruct (String.eqb_spec a address) as [->|Hne].
    + apply lookup_insert_eq.
    + apply lookup_insert_ne. exact Hne.
Qed.

Lemma clusterLoop_no_error (results : list Csv.ReadResult)
    (m m' : gmap string string) :
  clusterLoop results m = inr m' -> Forall (fun r => r.2 = None) results.
Proof.
  revert m. induction results as [|[record [e|]] results IH]; intros m; simpl.
  - constructor.
  - discriminate.
  - intros H. constructor; [reflexivity|].
    destruct record as [|name [|a more]]; eapply IH; exact H.
Qed.

(** X3. The map that the label loader returns gives to every address
    the first field of the last record whose second field is this
    address, and nothing to an address that is the second field of no
    record; fields after the second are not looked at.  The label cell
    of a row therefore holds the label of the last such record for the
    address of the row, or the empty text. *)
Theorem labels_are_last_records (w : World) (path : string) (t : list Event)
    (m : gmap string string) :
  readClusterNames w path = (t, inr m) ->
  exists text fault,
    open_file w path = Opens text fault
    /\ (forall address,
          m !! address = label_of (Csv.read_results text fault) address)
    /\ (forall i p,
          proverRow m i p !! 1%nat
          = Some (TextCell
                    (default EmptyString
                       (label_of (Csv.read_results text fault) (Address p)))
                    false)).
Proof.
  unfold readClusterNames.
  destruct (open_file w path) as [|text fault]; [discriminate|].
  intros H. injection H as _ H.
  exists text, fault. split; [reflexivity|].
  assert (Hm : forall address,
             m !! address = label_of (Csv.read_results text fault) address).
  { intros address. rewrite (clusterLoop_lookup _ _ _ address H).
    rewrite lookup_empty. destruct (label_of _ address); reflexivity. }
  split; [exact Hm|].
  intros i p. simpl. rewrite Hm. reflexivity.
Qed.

Lemma labels_are_last_records_witness :
  exists t m,
    readClusterNames (labels_world relabelled) "cluster.csv" = (t, inr m)
    /\ m !! "addr1" = Some "Carol"
    /\ m !! "addr2" = Some "Bob"
    /\ m !! "x" = None.
Proof.
  destruct (readClusterNames (labels_world relabelled) "cluster.csv")
    as [t [e|m]] eqn:H; [vm_compute in H; discriminate|].
  exists t, m. split; [reflexivity|].
  destruct (labels_are_last_records _ _ _ _ H) as (text & fault & Ho & Hm & _).
  vm_compute in Ho. injection Ho as <- <-.
  rewrite !Hm. repeat split; vm_compute; reflexivity.
Defined.

(** ** The rows of a label file that is loaded have one width *)

Lemma parse_line_nonempty (line : string) (fields : list string)
    (st : Csv.field_state) (record : list string) :
  Csv.parse_line fields st line = Csv.RecordDone record ->
  (1 <= List.length record)%nat.
Proof.
  revert fields st.
  induction line as [|c rest IH]; intros fields st; simpl.
  - destruct st; intros H; try discriminate; injection H as <-;
      rewrite length_app; simpl; lia.
  - destruct st;
      repeat match goal with
             | |- context [if ?b then _ else _] => destruct b
             end;
      intros H; try discriminate; try (apply IH in H; exact H);
      injection H as <-; rewrite length_app; simpl; lia.
Qed.

Lemma read_lines_fixed (ls : list string) (fpr : nat)
    (pending : option (list string * string)) :
  fpr <> 0%nat ->
  Forall (fun r => r.2 = None -> List.length r.1 = fpr)
    (Csv.read_lines fpr pending ls).
Proof.
  intros Hfpr. revert pending.
  induction ls as [|l ls IH]; intros pending; simpl.
  - destruct pending as [[fields acc]|]; repeat constructor; discriminate.
  - destruct (match pending with
              | Some (fields, acc) => _
              | None => _
              end) as [[record|fields acc|fields e]|].
    + unfold Csv.check_count.
      destruct (Nat.eqb_spec fpr 0); [contradiction|].
      destruct (Nat.eqb_spec (List.length record) fpr).
      * constructor; [intros _; assumption | apply IH].
      * repeat constructor. discriminate.
    + apply IH.
    + repeat constructor. discriminate.
    + apply IH.
Qed.

Lemma read_lines_width (ls : list string)
    (pending : option (list string * string)) :
  exists n : nat,
    Forall (fun r => r.2 = None -> List.length r.1 = n)
      (Csv.read_lines 0 pending ls).
Proof.
  revert pending.
  induction ls as [|l ls IH]; intros pending; simpl.
  - exists 0%nat.
    destruct pending as [[fields acc]|]; repeat constructor; discriminate.
  - destruct (match pending with
              | Some (fields, acc) => _
              | None => _
              end) as [[record|fields acc|fields e]|] eqn:Hr.
    + cbn [Csv.check_count Nat.eqb].
      exists (List.length record).
      constructor; [reflexivity|].
      apply read_lines_fixed.
      assert (1 <= List.length record)%nat; [|lia].
      destruct pending as [[fields acc]|].
      * injection Hr as Hr. exact (parse_line_nonempty _ _ _ _ Hr).
      * destruct (Csv.is_empty_line l); [discriminate|].
        injection Hr as Hr. exact (parse_line_nonempty _ _ _ _ Hr).
    + apply IH.
    + exists 0%nat. repeat constructor. discriminate.
    + apply IH.
Qed.

Lemma read_results_width (text : string) (fault : bool) :
  exists n : nat,
    Forall (fun r => r.2 = None -> List.length r.1 = n)
      (Csv.read_results text fault).
Proof.
  unfold Csv.read_results.
  destruct (read_lines_width (Csv.lines text) None) as [n Hn].
  exists n.
  assert (Forall (fun r : Csv.ReadResult => r.2 = None -> List.length r.1 = n)
            (Csv.read_lines 0 None (Csv.lines text) ++ [([], Some Csv.ErrRead)])).
  { apply Forall_app. split; [exact Hn|]. repeat constructor. discriminate. }
  destruct (last _) as [[record [e|]]|]; destruct fault; assumption.
Qed.

Lemma clusterLoop_short (results : list Csv.ReadResult)
    (m m' : gmap string string) :
  Forall (fun r => (List.length r.1 < 2)%nat) results ->
  clusterLoop results m = inr m' -> m' = m.
Proof.
  induction 1 as [|[record e] results Hr _ IH]; simpl.
  - intros H. injection H as <-. reflexivity.
  - destruct e; [discriminate|].
    destruct record as [|name [|a more]]; try exact IH.
    simpl in Hr. lia.
Qed.

Lemma label_of_member (results : list Csv.ReadResult)
    (name address : string) (more : list string) (e : option Csv.CsvError) :
  (name :: address :: more, e) ∈ results ->
  label_of results address <> None.
Proof.
  unfold label_of. intros Hin.
  enough (H : forall found, label_from found results address <> None)
    by apply H.
  induction results as [|[record e'] results IH]; intros found.
  - apply elem_of_nil in Hin. contradiction.
  - apply elem_of_cons in Hin. destruct Hin as [Heq|Hin].
    + injection Heq as <- <-. cbn [label_from].
      rewrite String.eqb_refl, label_of_from.
      destruct (label_of results address); discriminate.
    + destruct record as [|n [|a m]]; cbn [label_from]; apply IH; exact Hin.
Qed.

(** X4. When the label loader succeeds, all records of the file have
    the same number of fields, since the reader is left with
    [FieldsPerRecord = 0].  The test [len(record) < 2] thus passes over
    either no record or every record: with fewer than two fields per
    record the map is empty, and with two or more every record puts its
    address into the map. *)
Theorem loaded_rows_have_one_width (w : World) (path : string)
    (t : list Event) (m : gmap string string) :
  readClusterNames w path = (t, inr m) ->
  exists text fault (n : nat),
    open_file w path = Opens text fault
    /\ Forall (fun r => r.2 = None /\ List.length r.1 = n)
         (Csv.read_results text fault)
    /\ ((n < 2)%nat -> m = ∅)
    /\ ((2 <= n)%nat ->
        forall r, r ∈ Csv.read_results text fault ->
        exists name address,
          r.1 !! 0%nat = Some name /\ r.1 !! 1%nat = Some address
          /\ m !! address <> None).
Proof.
  unfold readClusterNames.
  destruct (open_file w path) as [|text fault]; [discriminate|].
  intros H. injection H as _ H.
  destruct (read_results_width text fault) as [n Hn].
  pose proof (clusterLoop_no_error _ _ _ H) as Hok.
  assert (Hall : Forall (fun r : Csv.ReadResult =>
                           r.2 = None /\ List.length r.1 = n)
                   (Csv.read_results text fault)).
  { rewrite Forall_forall in *. intros r Hr. split; auto. }
  exists text, fault, n. split; [reflexivity|]. split; [exact Hall|]. split.
  - intros Hlt. eapply clusterLoop_short; [|exact H].
    eapply Forall_impl; [exact Hall|]. intros r [_ Hr]. simpl. lia.
  - intros Hge r Hr.
    rewrite Forall_forall in Hall. destruct (Hall r Hr) as [_ Hlen].
    destruct r as [[|name [|address more]] e]; simpl in Hlen; try lia.
    exists name, address. repeat split.
    rewrite (clusterLoop_lookup _ _ _ address H).
    pose proof (label_of_member _ _ _ _ _ Hr) as Hl.
    destruct (label_of _ address); [discriminate | contradiction].
Qed.

Lemma loaded_rows_have_one_width_witness :
  exists t m,
    readClusterNames (labels_world relabelled) "cluster.csv" = (t, inr m)
    /\ Forall (fun r => r.2 = None /\ List.length r.1 = 3%nat)
         (Csv.read_results relabelled false).
Proof.
  destruct (readClusterNames (labels_world relabelled) "cluster.csv")
    as [t [e|m]] eqn:H; [vm_compute in H; discriminate|].
  exists t, m. split; [reflexivity|].
  destruct (loaded_rows_have_one_width _ _ _ _ H)
    as (text & fault & n & Ho & Hall & _).
  change (Opens relabelled false = Opens text fault) in Ho.
  injection Ho as <- <-.
  assert (Hn : n = 3%nat).
  { assert (Hr : Csv.read_results relabelled false
                 = [(["Alice"; "addr1"; "x"], None);
                    (["Bob"; "addr2"; "y"], None);
                    (["Carol"; "addr1"; "z"], None)])
      by (vm_compute; reflexivity).
    rewrite Hr in Hall. inversion Hall as [|r rs [_ Hlen] _].
    symmetry. exact Hlen. }
  rewrite <- Hn. exact Hall.
Defined.

(** ** The errors of the label loader *)

Lemma clusterLoop_error (results : list Csv.ReadResult)
    (m : gmap string string) (e : Error) :
  clusterLoop results m = inl e ->
  exists before record err after,
    results = before ++ (record, Some err) :: after
    /\ Forall (fun r => r.2 = None) before
    /\ e = ErrCsv err.
Proof.
  revert m. induction results as [|[record [err|]] results IH]; intros m; simpl.
  - discriminate.
  - intros H. injection H as <-.
    exists [], record, err, results. repeat split. constructor.
  - intros H.
    assert (Hrest : exists m1, clusterLoop results m1 = inl e).
    { destruct record as [|name [|a more]]; eexists; exact H. }
    destruct Hrest as [m1 H1].
    destruct (IH _ H1) as (before & r & err & after & -> & Hb & ->).
    exists ((record, None) :: before), r, err, after.
    repeat split. constructor; [reflexivity | exact Hb].
Qed.

Lemma read_results_fault (text : string) :
  exists before record err,
    Csv.read_results text true = before ++ [(record, Some err)].
Proof.
  unfold Csv.read_results.
  destruct (last _) as [[record [e|]]|] eqn:Hl.
  - apply last_Some in Hl. destruct Hl as [before Hl].
    exists before, record, e. exact Hl.
  - do 3 eexists. reflexivity.
  - do 3 eexists. reflexivity.
Qed.

(** X5. The errors of the label loader.  A file that cannot be opened
    gives the error of [os.Open] and no effect on the file.  A file
    that is opened is read and closed on every path; the loader returns
    an error exactly when some call of [Read] does, it is the error of
    the first such call, and the labels gathered from the records before
    are dropped with it.  In particular a file whose reading fails at
    the end gives no map, however many records were read. *)
Theorem loader_returns_first_read_error (w : World) (path : string) :
  (open_file w path = OpenFails ->
   readClusterNames w path = ([], inl (ErrOpen path)))
  /\ (forall text fault,
        open_file w path = Opens text fault ->
        exists r,
          readClusterNames w path
          = ([EvOpen path; EvRead path; EvClose path], r)
          /\ match r with
             | inl e =>
                 exists before record err after,
                   Csv.read_results text fault
                   = before ++ (record, Some err) :: after
                   /\ Forall (fun r => r.2 = None) before
                   /\ e = ErrCsv err
             | inr _ => Forall (fun r => r.2 = None) (Csv.read_results text fault)
             end)
  /\ (forall text,
        open_file w path = Opens text true ->
        exists e, snd (readClusterNames w path) = inl e).
Proof.
  unfold readClusterNames. split; [intros ->; reflexivity|]. split.
  - intros text fault ->. eexists. split; [reflexivity|].
    destruct (clusterLoop _ ∅) as [e|m] eqn:H.
    + exact (clusterLoop_error _ _ _ H).
    + exact (clusterLoop_no_error _ _ _ H).
  - intros text ->. simpl.
    destruct (clusterLoop _ ∅) as [e|m] eqn:H; [exists e; reflexivity|].
    apply clusterLoop_no_error in H.
    destruct (read_results_fault text) as (before & record & err & Hr).
    rewrite Hr in H. apply Forall_app in H. destruct H as [_ H].
    inversion H as [|x xs Hx _]. discriminate Hx.
Qed.

Lemma loader_returns_first_read_error_witness :
  open_file (faulty_world sample_labels) "cluster.csv" = Opens sample_labels true
  /\ Csv.read_results sample_labels true
     = [(["Alice"; "addr1"], None); (["Bob"; "addr2"], None);
        ([], Some Csv.ErrRead)]
  /\ exists e, snd (readClusterNames (faulty_world sample_labels) "cluster.csv")
               = inl e.
Proof.
  split; [reflexivity|]. split; [vm_compute; reflexivity|].
  destruct (loader_returns_first_read_error (faulty_world sample_labels)
              "cluster.csv") as (_ & _ & H).
  exact (H sample_labels eq_refl).
Defined.

(** ** The values that the layout accepts *)

Lemma cutspace_gap (gap : string) (a : ascii) (r : string) :
  all_spaces gap = true -> Ascii.eqb a " "%char = false ->
  cutspace (gap +:+ String a r) = String a r.
Proof.
  intros Hg Ha. induction gap as [|b gap IH]; norm_app.
  - simpl. rewrite Ha. reflexivity.
  - simpl in Hg. apply andb_true_iff in Hg. destruct Hg as [Hb Hg].
    simpl. rewrite Hb. apply IH. exact Hg.
Qed.

Lemma cutdigits_all (s : string) :
  all_digits s = true -> cutdigits s = EmptyString.
Proof.
  induction s as [|a s IH]; simpl; [reflexivity|].
  intros H. apply andb_true_iff in H. destruct H as [-> H]. apply IH. exact H.
Qed.

Lemma skip_fraction_all (frac : string) :
  is_fraction frac = true -> skip_fraction frac = EmptyString.
Proof.
  destruct frac as [|sep [|d ds]]; simpl; try reflexivity.
  - rewrite andb_false_r. discriminate.
  - intros H. apply andb_true_iff in H. destruct H as [-> H].
    apply andb_true_iff in H. destruct H as [-> H]. simpl.
    apply cutdigits_all. exact H.
Qed.

Lemma getnum_hour (h : Z) (hh r : string) :
  0 <= h < 24 -> hour_text h hh ->
  getnum (hh +:+ ":" +:+ r) false = Some (h, ":" +:+ r)
  /\ exists a t, hh = String a t /\ Ascii.eqb a " "%char = false.
Proof.
  intros Hh [->| [H9 ->]].
  - split; [apply getnum_pad2; lia|].
    unfold pad2. do 2 eexists. split; [reflexivity|].
    apply digit_char_facts. Z.div_mod_to_equations. lia.
  - destruct (digit_char_facts h H9) as (Hd & Hv & Hs).
    split; [|do 2 eexists; split; [reflexivity | exact Hs]].
    norm_app. simpl. rewrite Hd, Hv. reflexivity.
Qed.

(** X6. The texts that [parseDateTime] accepts are exactly the texts of
    the shape of the layout for a reading within the ranges: the literal
    form, with further spaces after the date, an hour of one digit, and
    a fraction of a second allowed.  Such a text gives the timestamp of
    its reading in the literal form: the further spaces and the fraction
    change nothing, and the fraction is dropped, not rounded. *)
Theorem layout_shape_is_accepted (s : string) (c : Clock) :
  (parse_layout s = Some c <-> valid_clock c = true /\ layout_shape s c)
  /\ (forall w loc,
        local_zone w = Some loc -> valid_clock c = true -> layout_shape s c ->
        parseDateTime w s = parseDateTime w (format_clock c)).
Proof.
  assert (Hacc : valid_clock c = true -> layout_shape s c ->
                 parse_layout s = Some c).
  { intros Hv (gap & hh & frac & -> & Hgap & Hhh & Hfrac).
    pose proof Hv as Hf. apply valid_clock_fields in Hf.
    destruct Hf as (Hy & Hm & Hd & Hh & Hmi & Hs).
    destruct c as [y mo d h mi se]. cbn [year month day hour minute second] in *.
    assert (Hd99 : 0 <= d <= 99).
    { unfold daysIn in Hd.
      repeat match type of Hd with
             | context [if ?b then _ else _] => destruct b
             end; lia. }
    destruct (getnum_hour h hh (pad2 mi +:+ ":" +:+ pad2 se +:+ frac) Hh Hhh)
      as (Hnum & a & t & -> & Ha).
    unfold format_date. cbn [year month day hour minute second].
    rewrite !string_app_assoc. unfold parse_layout.
    rewrite getyear_pad4 by lia. cbn [mbind option_bind].
    rewrite skip_char_here. cbn [mbind option_bind].
    rewrite getnum_pad2 by lia. cbn [mbind option_bind].
    rewrite in_range_true by lia. cbn [negb].
    rewrite skip_char_here. cbn [mbind option_bind].
    rewrite getnum_pad2 by lia. cbn [mbind option_bind].
    rewrite (app_String " "%char), app_Empty.
    cbn [skip_space Ascii.eqb Bool.eqb]. cbn [cutspace Ascii.eqb Bool.eqb].
    rewrite (app_String a t), cutspace_gap by assumption.
    rewrite <- (app_String a t). cbn [mbind option_bind].
    rewrite Hnum.
    cbn [mbind option_bind].
    rewrite in_range_true by lia. cbn [negb].
    rewrite skip_char_here. cbn [mbind option_bind].
    rewrite getnum_pad2 by lia. cbn [mbind option_bind].
    rewrite in_range_true by lia. cbn [negb].
    rewrite skip_char_here. cbn [mbind option_bind].
    rewrite getnum_pad2 by lia. cbn [mbind option_bind].
    rewrite in_range_true by lia. cbn [negb].
    rewrite skip_fraction_all by assumption.
    destruct Hd as [Hd1 Hd2].
    apply Z.leb_le in Hd1, Hd2. rewrite Hd1, Hd2. reflexivity. }
  split.
  - split; [apply parse_layout_inv | intros [Hv Hl]; auto].
  - intros w loc Hz Hv Hl. unfold parseDateTime. rewrite Hz.
    rewrite (Hacc Hv Hl), (parse_format c Hv). reflexivity.
Qed.

Lemma layout_shape_is_accepted_witness :
  valid_clock (MkClock 2023 1 1 7 5 9) = true
  /\ layout_shape "2023-01-01   7:05:09.999" (MkClock 2023 1 1 7 5 9)
  /\ parseDateTime (zone_world UTC) "2023-01-01   7:05:09.999"
     = ([], inr 1672556709).
Proof.
  assert (Hv : valid_clock (MkClock 2023 1 1 7 5 9) = true) by reflexivity.
  assert (Hl : layout_shape "2023-01-01   7:05:09.999" (MkClock 2023 1 1 7 5 9)).
  { exists "  ", "7", ".999". repeat split.
    right. split; [simpl; lia | reflexivity]. }
  split; [exact Hv|]. split; [exact Hl|].
  destruct (layout_shape_is_accepted "2023-01-01   7:05:09.999"
              (MkClock 2023 1 1 7 5 9)) as [_ H].
  rewrite (H (zone_world UTC) UTC eq_refl Hv Hl).
  vm_compute. reflexivity.
Defined.

(** ** The order and the range of the timestamps *)

Lemma days_from_civil_mono (y m d y' m' d' : Z) :
  1 <= m <= 12 -> 1 <= d <= daysIn m y ->
  1 <= m' <= 12 -> 1 <= d' <= daysIn m' y' ->
  y < y' \/ (y = y' /\ (m < m' \/ (m = m' /\ d < d'))) ->
  days_from_civil y m d < days_from_civil y' m' d'.
Proof.
  intros Hm Hd Hm' Hd' Hlt.
  rewrite (days_from_year_start y m d), (days_from_year_start y' m' d').
  pose proof (days_before_month_bound y m d Hm Hd) as Hb.
  pose proof (days_before_month_bound y' m' d' Hm' Hd') as Hb'.
  destruct Hlt as [Hy|[<- [Hmm|[<- Hdd]]]].
  - pose proof (year_start_next y) as Hn.
    pose proof (year_start_mono (y + 1) y' ltac:(lia)). lia.
  - pose proof (month_start_mono y m m' ltac:(lia) Hmm ltac:(lia)). lia.
  - lia.
Qed.

Lemma clock_seconds_mono (c1 c2 : Clock) :
  valid_clock c1 = true -> valid_clock c2 = true ->
  clock_before c1 c2 -> clock_seconds c1 < clock_seconds c2.
Proof.
  intros H1 H2. apply valid_clock_fields in H1, H2.
  destruct c1 as [y m d h mi s], c2 as [y' m' d' h' mi' s'].
  unfold clock_before, clock_seconds. simpl in *.
  destruct H1 as (_ & Hm & Hd & Hh & Hmi & Hs).
  destruct H2 as (_ & Hm' & Hd' & Hh' & Hmi' & Hs').
  intros Hlt.
  assert (Hcase : days_from_civil y m d < days_from_civil y' m' d'
                  \/ (days_from_civil y m d = days_from_civil y' m' d'
                      /\ h * 3600 + mi * 60 + s < h' * 3600 + mi' * 60 + s')).
  { destruct Hlt as [Hy|[<- [Ht|[<- [Ht|[<- Ht]]]]]].
    - left. apply days_from_civil_mono; auto.
    - left. apply days_from_civil_mono; auto.
    - left. apply days_from_civil_mono; auto.
    - right. split; [reflexivity | lia]. }
  lia.
Qed.

Lemma clock_trichotomy (c1 c2 : Clock) :
  clock_before c1 c2 \/ c1 = c2 \/ clock_before c2 c1.
Proof.
  destruct c1 as [y m d h mi s], c2 as [y' m' d' h' mi' s'].
  unfold clock_before. simpl.
  destruct (Z.lt_trichotomy y y') as [?|[->|?]]; [tauto| |tauto].
  destruct (Z.lt_trichotomy m m') as [?|[->|?]]; [tauto| |tauto].
  destruct (Z.lt_trichotomy d d') as [?|[->|?]]; [tauto| |tauto].
  destruct (Z.lt_trichotomy h h') as [?|[->|?]]; [tauto| |tauto].
  destruct (Z.lt_trichotomy mi mi') as [?|[->|?]]; [tauto| |tauto].
  destruct (Z.lt_trichotomy s s') as [?|[->|?]]; tauto.
Qed.

(** X7. The timestamps keep the order of the readings.  For two
    readings within the ranges at which the zone has the same offset,
    with no transition next to either, the earlier reading (by year,
    month, day, hour, minute, second) has the smaller timestamp, and
    equal timestamps come from equal readings only. *)
Theorem timestamps_keep_order (loc : Location) (c1 c2 : Clock) :
  valid_clock c1 = true -> valid_clock c2 = true ->
  steady loc c1 -> steady loc c2 ->
  offset_at loc (clock_seconds c1) = offset_at loc (clock_seconds c2) ->
  (clock_before c1 c2 <-> Date_unix loc c1 < Date_unix loc c2)
  /\ (c1 = c2 <-> Date_unix loc c1 = Date_unix loc c2).
Proof.
  intros Hv1 Hv2 Hs1 Hs2 Ho.
  destruct (Date_unix_steady loc c1 Hs1) as [E1 _].
  destruct (Date_unix_steady loc c2 Hs2) as [E2 _].
  rewrite E1, E2, Ho.
  pose proof (clock_seconds_mono c1 c2 Hv1 Hv2) as H12.
  pose proof (clock_seconds_mono c2 c1 Hv2 Hv1) as H21.
  destruct (clock_trichotomy c1 c2) as [Hlt|[Heq|Hgt]].
  - split; split; intros; try subst c2; try tauto; specialize (H12 Hlt); lia.
  - subst c2. split; split; intros; try reflexivity; try lia.
    specialize (H12 H). lia.
  - specialize (H21 Hgt). split; split; intros; try lia.
    + specialize (H12 H). lia.
    + subst c2. lia.
Qed.

Lemma timestamps_keep_order_witness :
  valid_clock (MkClock 2023 7 4 12 0 0) = true
  /\ valid_clock (MkClock 2023 7 5 0 0 0) = true
  /\ steady new_york (MkClock 2023 7 4 12 0 0)
  /\ steady new_york (MkClock 2023 7 5 0 0 0)
  /\ clock_before (MkClock 2023 7 4 12 0 0) (MkClock 2023 7 5 0 0 0)
  /\ Date_unix new_york (MkClock 2023 7 4 12 0 0)
     < Date_unix new_york (MkClock 2023 7 5 0 0 0).
Proof.
  assert (Hb : clock_before (MkClock 2023 7 4 12 0 0) (MkClock 2023 7 5 0 0 0)).
  { unfold clock_before. simpl. lia. }
  do 4 (split; [reflexivity|]). split; [exact Hb|].
  apply (timestamps_keep_order new_york (MkClock 2023 7 4 12 0 0)
           (MkClock 2023 7 5 0 0 0)); try reflexivity.
  exact Hb.
Defined.

(** X8. The range of the timestamps.  Years run from 0 to 9999, so in a
    zone whose offsets stay within a day of UTC every timestamp that
    [parseDateTime] returns lies between -62167305600 and 253402387199,
    far inside [int64]; in a zone without transitions the bounds are
    those of 0000-01-01 00:00:00 and 9999-12-31 23:59:59 moved by the
    offset. *)
Theorem timestamps_fit_int64 (w : World) (loc : Location) (s : string)
    (t : list Event) (u : Z) :
  local_zone w = Some loc ->
  Forall (fun o => -86400 <= o <= 86400) (zone_offsets loc) ->
  parseDateTime w s = (t, inr u) ->
  -62167305600 <= u <= 253402387199
  /\ min_int64 <= u <= max_int64
  /\ (zone_trans loc = [] ->
      -62167219200 - zone_first loc <= u <= 253402300799 - zone_first loc).
Proof.
  intros Hz Hoff. unfold parseDateTime. rewrite Hz.
  destruct (parse_layout s) as [c|] eqn:Hp; [|discriminate].
  intros H. injection H as _ <-.
  apply parse_layout_inv in Hp. destruct Hp as [Hv _].
  pose proof (clock_seconds_range c Hv) as Hr.
  destruct (Date_unix_offset loc c) as (o & Ho & ->).
  rewrite Forall_forall in Hoff. specialize (Hoff o Ho).
  unfold min_int64, max_int64.
  split; [lia|]. split; [lia|].
  intros Hnil. unfold zone_offsets in Ho. rewrite Hnil in Ho.
  apply elem_of_cons in Ho. destruct Ho as [->|Ho]; [lia|].
  apply elem_of_nil in Ho. contradiction.
Qed.

Lemma timestamps_fit_int64_witness :
  local_zone (zone_world new_york) = Some new_york
  /\ Forall (fun o => -86400 <= o <= 86400) (zone_offsets new_york)
  /\ parseDateTime (zone_world new_york) "9999-12-31 23:59:59"
     = ([], inr 253402318799)
  /\ -62167305600 <= 253402318799 <= 253402387199.
Proof.
  assert (Hoff : Forall (fun o => -86400 <= o <= 86400) (zone_offsets new_york)).
  { repeat constructor; simpl; lia. }
  assert (Hp : parseDateTime (zone_world new_york) "9999-12-31 23:59:59"
               = ([], inr 253402318799)) by (vm_compute; reflexivity).
  split; [reflexivity|]. split; [exact Hoff|]. split; [exact Hp|].
  exact (proj1 (timestamps_fit_int64 (zone_world new_york) new_york _ _ _
                  eq_refl Hoff Hp)).
Defined.

(** ** The shape of the sheet *)

(** X9. The shape of the sheet.  It has one row more than there are
    records; every row has as many cells as the header has titles; the
    first row holds the titles in bold; and every other row holds, from
    left to right, three texts, a number with the format [0.00], a text,
    a number, a text, a number, a text and two integers, whatever the
    record and the labels are. *)
Theorem sheet_is_rectangular (clusterNames : gmap string string)
    (provers : list Prover) :
  List.length (buildSheet clusterNames provers) = S (List.length provers)
  /\ Forall (fun row => List.length row = List.length header)
       (buildSheet clusterNames provers)
  /\ buildSheet clusterNames provers !! 0%nat
     = Some ((fun h => TextCell h true) <$> header)
  /\ forall (i : nat) (row : Row),
       buildSheet clusterNames provers !! S i = Some row ->
       kind_of <$> row
       = [KText false; KText false; KText false; KFloat "0.00"; KText false;
          KFloat "0.00"; KText false; KFloat "0.00"; KText false; KInt; KInt].
Proof.
  unfold buildSheet.
  assert (Hrow : forall (i : nat) (row : Row),
             dataRows clusterNames provers !! i = Some row ->
             exists p, row = proverRow clusterNames i p).
  { intros i row. rewrite dataRows_lookup.
    destruct (provers !! i) as [p|]; [|discriminate].
    intros H. injection H as <-. exists p. reflexivity. }
  split; [simpl; f_equal; apply dataRows_length|].
  split; [|split; [reflexivity|]].
  - constructor; [reflexivity|].
    apply Forall_lookup. intros i row Hi.
    destruct (Hrow i row Hi) as [p ->]. reflexivity.
  - intros i row Hi. destruct (Hrow i row Hi) as [p ->]. reflexivity.
Qed.

Lemma sheet_is_rectangular_witness :
  buildSheet ∅ sample_provers !! 2%nat
  = Some (proverRow ∅ 1 (MkProver "addr2" "7" "1%" "0.5" "1%" "-45000" "0%"))
  /\ kind_of <$> proverRow ∅ 1 (MkProver "addr2" "7" "1%" "0.5" "1%" "-45000" "0%")
     = [KText false; KText false; KText false; KFloat "0.00"; KText false;
        KFloat "0.00"; KText false; KFloat "0.00"; KText false; KInt; KInt].
Proof.
  assert (H : buildSheet ∅ sample_provers !! 2%nat
              = Some (proverRow ∅ 1
                        (MkProver "addr2" "7" "1%" "0.5" "1%" "-45000" "0%")))
    by reflexivity.
  split; [exact H|].
  destruct (sheet_is_rectangular ∅ sample_provers) as (_ & _ & _ & Hk).
  exact (Hk 1%nat _ H).
Defined.

(** ** The name of the output file *)

Lemma string_app_inv_head (p x y : string) : p +:+ x = p +:+ y -> x = y.
Proof.
  induction p as [|a p IH]; norm_app; [auto|].
  intros H. injection H as H. auto.
Qed.

Lemma some_pair_eq {A B} (a a' : A) (b b' : B) :
  Some (a, b) = Some (a', b') -> a = a' /\ b = b'.
Proof. intros H. split; congruence. Qed.

Lemma format_date_inj (c c' : Clock) (r r' : string) :
  0 <= year c <= 9999 -> 0 <= month c <= 99 -> 0 <= day c <= 99 ->
  0 <= year c' <= 9999 -> 0 <= month c' <= 99 -> 0 <= day c' <= 99 ->
  format_date c +:+ r = format_date c' +:+ r' ->
  year c = year c' /\ month c = month c' /\ day c = day c' /\ r = r'.
Proof.
  intros Hy Hm Hd Hy' Hm' Hd'. unfold format_date.
  rewrite !string_app_assoc. intros H.
  apply (f_equal getyear) in H. rewrite !getyear_pad4 in H by assumption.
  apply some_pair_eq in H. destruct H as [Hyy H]. split; [exact Hyy|].
  apply (f_equal (skip_char "-"%char)) in H. rewrite !skip_char_here in H.
  apply (f_equal (fun s => s ≫= fun s => getnum s true)) in H.
  cbn [mbind option_bind] in H.
  rewrite !getnum_pad2 in H by assumption.
  apply some_pair_eq in H. destruct H as [Hmm H]. split; [exact Hmm|].
  apply (f_equal (skip_char "-"%char)) in H. rewrite !skip_char_here in H.
  apply (f_equal (fun s => s ≫= fun s => getnum s true)) in H.
  cbn [mbind option_bind] in H.
  rewrite !getnum_pad2 in H by assumption.
  apply some_pair_eq in H. destruct H as [Hdd H]. split; assumption.
Qed.

Lemma local_clock_date (loc : Location) (sec : Z) :
  1 <= month (local_clock loc sec) <= 12
  /\ 1 <= day (local_clock loc sec) <= 31.
Proof.
  unfold local_clock, clock_of_seconds.
  destruct (civil_from_days_inv ((sec + offset_at loc sec) / 86400))
    as (Hm & Hd & _).
  destruct (civil_from_days _) as [[y m] d]. cbn [fst snd month day] in *.
  split; [exact Hm|].
  unfold daysIn in Hd.
  repeat match type of Hd with
         | context [if ?b then _ else _] => destruct b
         end; lia.
Qed.

(** X10. The name of the output file names the local day of the run and
    nothing else: two runs (in years 0 to 9999) write to the same file
    name exactly when they take place on the same local date.  A second
    run on the same day thus writes over the file of the first, and runs
    on different days never share a file. *)
Theorem output_name_names_the_day (w w' : World) :
  0 <= (run_date w).1.1 <= 9999 ->
  0 <= (run_date w').1.1 <= 9999 ->
  (outputFileName w = outputFileName w' <-> run_date w = run_date w').
Proof.
  unfold run_date, outputFileName. cbn [fst snd].
  set (c := local_clock (default UTC (local_zone w)) (now w)).
  set (c' := local_clock (default UTC (local_zone w')) (now w')).
  intros Hy Hy'.
  pose proof (local_clock_date (default UTC (local_zone w)) (now w)) as [Hm Hd].
  pose proof (local_clock_date (default UTC (local_zone w')) (now w'))
    as [Hm' Hd'].
  fold c in Hm, Hd. fold c' in Hm', Hd'.
  split.
  - intros H. apply string_app_inv_head in H.
    apply format_date_inj in H; try lia.
    destruct H as (-> & -> & -> & _). reflexivity.
  - intros H. injection H as Hyy Hmm Hdd.
    unfold format_date. rewrite Hyy, Hmm, Hdd. reflexivity.
Qed.

Lemma output_name_names_the_day_witness :
  0 <= (run_date sample_world).1.1 <= 9999
  /\ 0 <= (run_date later_world).1.1 <= 9999
  /\ run_date sample_world = (2023, 11, 14)
  /\ run_date later_world = (2023, 11, 14)
  /\ outputFileName later_world = outputFileName sample_world.
Proof.
  assert (H1 : run_date sample_world = (2023, 11, 14)) by (vm_compute; reflexivity).
  assert (H2 : run_date later_world = (2023, 11, 14)) by (vm_compute; reflexivity).
  assert (Hy : 0 <= (run_date sample_world).1.1 <= 9999)
    by (rewrite H1; simpl; lia).
  assert (Hy' : 0 <= (run_date later_world).1.1 <= 9999)
    by (rewrite H2; simpl; lia).
  repeat (split; [assumption|]).
  apply (output_name_names_the_day later_world sample_world Hy' Hy).
  rewrite H1, H2. reflexivity.
Defined.

(** ** The number texts of the records that are fetched *)

Lemma word_token_wf (w : string) (t : token) :
  word_token w = Some t -> wf_token t = true.
Proof.
  unfold word_token.
  repeat match goal with
         | |- context [if ?b then _ else _] => destruct b eqn:?
         end; intros H; try discriminate; injection H as <-; auto.
Qed.

Lemma start_char_wf (c : ascii) (st : lex_state) (ts : list token) :
  start_char c = Some (st, ts) -> forallb wf_token ts = true.
Proof.
  unfold start_char.
  repeat match goal with
         | |- context [if ?b then _ else _] => destruct b
         end; intros H; try discriminate; injection H as <- <-; reflexivity.
Qed.

Lemma lex_wf (s : string) (st : lex_state) (ts : list token) :
  lex st s = Some ts -> forallb wf_token ts = true.
Proof.
  revert st ts. induction s as [|c s IH]; intros st ts; simpl.
  - destruct st; try discriminate.
    + intros H. injection H as <-. reflexivity.
    + destruct (word_token w) as [t|] eqn:Hw; [|discriminate].
      intros H. injection H as <-. simpl.
      rewrite (word_token_wf _ _ Hw). reflexivity.
  - destruct st.
    + destruct (start_char c) as [[st' ts']|] eqn:Hc; [|discriminate].
      destruct (lex st' s) as [r|] eqn:Hr; [|discriminate].
      intros H. injection H as <-. rewrite forallb_app.
      rewrite (start_char_wf _ _ _ Hc), (IH _ _ Hr). reflexivity.
    + destruct (is_word_char c); [apply IH|].
      destruct (word_token w) as [t|] eqn:Hw; [|discriminate].
      destruct (start_char c) as [[st' ts']|] eqn:Hc; [|discriminate].
      destruct (lex st' s) as [r|] eqn:Hr; [|discriminate].
      intros H. injection H as <-. simpl. rewrite forallb_app.
      rewrite (word_token_wf _ _ Hw), (start_char_wf _ _ _ Hc), (IH _ _ Hr).
      reflexivity.
    + destruct (Ascii.eqb c dquote).
      * destruct (lex LStart s) as [r|] eqn:Hr; [|discriminate].
        intros H. injection H as <-. simpl. exact (IH _ _ Hr).
      * destruct (Ascii.eqb c bslash); [apply IH|].
        destruct (code c <? 32); [discriminate | apply IH].
    + destruct (is_escape_char c); [apply IH|].
      destruct (Ascii.eqb c "u"%char); [apply IH | discriminate].
    + destruct (hex_val c); [|discriminate].
      destruct n as [|[|n]]; [discriminate | apply IH | apply IH].
Qed.

Lemma complete_wf (v : json) (stk stk' : list frame) (m' : pmode) :
  wf_json v = true -> forallb wf_frame stk = true ->
  complete v stk = Some (stk', m') ->
  forallb wf_frame stk' = true /\ wf_mode m' = true.
Proof.
  intros Hv Hs. destruct stk as [|[items|fields|fields k] rest]; simpl;
    intros H; try discriminate; injection H as <- <-; simpl in *.
  - split; [reflexivity | exact Hv].
  - apply andb_true_iff in Hs. destruct Hs as [Hi Hr].
    rewrite forallb_app, Hi, Hr. simpl. rewrite Hv. split; reflexivity.
  - apply andb_true_iff in Hs. destruct Hs as [Hi Hr].
    rewrite forallb_app, Hi, Hr. simpl. rewrite Hv. split; reflexivity.
Qed.

Lemma begin_value_wf (t : token) (stk stk' : list frame) (m' : pmode) :
  wf_token t = true -> forallb wf_frame stk = true ->
  begin_value t stk = Some (stk', m') ->
  forallb wf_frame stk' = true /\ wf_mode m' = true.
Proof.
  intros Ht Hs. destruct t; simpl; try discriminate;
    try (apply complete_wf; [assumption || reflexivity | exact Hs]).
  all: unfold push; destruct (_ <=? _); intros H; try discriminate;
    injection H as <- <-; simpl; rewrite Hs; split; reflexivity.
Qed.

Lemma step_wf (stk stk' : list frame) (m m' : pmode) (t : token) :
  wf_token t = true -> forallb wf_frame stk = true ->
  step stk m t = Some (stk', m') ->
  forallb wf_frame stk' = true /\ wf_mode m' = true.
Proof.
  intros Ht Hs.
  assert (Hclose : forall v rest,
             wf_json v = true -> forallb wf_frame rest = true ->
             complete v rest = Some (stk', m') ->
             forallb wf_frame stk' = true /\ wf_mode m' = true).
  { intros v rest. apply complete_wf. }
  assert (Hbegin : begin_value t stk = Some (stk', m') ->
                   forallb wf_frame stk' = true /\ wf_mode m' = true).
  { apply begin_value_wf; assumption. }
  unfold step.
  destruct m; try discriminate.
  all: destruct t; try discriminate; try exact Hbegin.
  all: destruct stk as [|[items|fields|fields k] rest];
    try discriminate; try exact Hbegin.
  all: try (intros H; injection H as <- <-; split; [exact Hs | reflexivity]).
  all: simpl in Hs; apply andb_true_iff in Hs; destruct Hs as [Hf Hr].
  all: try (apply Hclose; simpl; assumption).
  all: intros H; injection H as <- <-; simpl; rewrite ?Hf, ?Hr;
    split; reflexivity.
Qed.

Lemma parse_tokens_wf (ts : list token) (stk : list frame) (m : pmode)
    (v : json) :
  forallb wf_token ts = true -> forallb wf_frame stk = true ->
  wf_mode m = true ->
  parse_tokens stk m ts = Some v -> wf_json v = true.
Proof.
  revert stk m. induction ts as [|t ts IH]; intros stk m Hts Hs Hm; simpl.
  - destruct m; try discriminate. intros H. injection H as <-. exact Hm.
  - simpl in Hts. apply andb_true_iff in Hts. destruct Hts as [Ht Hts].
    destruct (step stk m t) as [[stk' m']|] eqn:Hst; [|discriminate].
    destruct (step_wf _ _ _ _ _ Ht Hs Hst) as [Hs' Hm'].
    apply IH; assumption.
Qed.

Lemma parse_wf (body : string) (v : json) :
  parse body = Some v -> wf_json v = true.
Proof.
  unfold parse. destruct (lex LStart body) as [ts|] eqn:Hl; [|discriminate].
  apply parse_tokens_wf; try reflexivity. exact (lex_wf _ _ _ Hl).
Qed.

Lemma store_number_text (old : string) (v : json) (s : string)
    (sv : option Decode.DecodeError) :
  number_text old = true -> wf_json v = true ->
  Decode.store_number old v = Decode.Soft s sv -> number_text s = true.
Proof.
  intros Ho Hv. unfold number_text.
  destruct v; simpl in *; try (intros H; injection H as <- _; exact Ho).
  - intros H. injection H as <- _. rewrite Hv. apply orb_true_r.
  - destruct (Strconv.isValidNumber s0) eqn:Hs;
      intros H; injection H as <- _; [|exact Ho].
    rewrite Hs. apply orb_true_r.
Qed.

Lemma seq_inv {A B} (r : Decode.dres A) (k : A -> Decode.dres B) (b : B)
    (sv : option Decode.DecodeError) :
  Decode.seq r k = Decode.Soft b sv ->
  exists a sv1 sv2, r = Decode.Soft a sv1 /\ k a = Decode.Soft b sv2.
Proof.
  destruct r as [a sv1]; simpl. destruct (k a) as [x sv2] eqn:Hk.
  intros H. injection H as <- _. eauto.
Qed.

Lemma decode_field_numbers (p p' : Prover) (k : string) (v : json)
    (sv : option Decode.DecodeError) :
  numbers_ok p = true -> wf_json v = true ->
  Decode.decode_field p k v = Decode.Soft p' sv -> numbers_ok p' = true.
Proof.
  destruct p as [a tc tcp dc dcp ns nsp]. unfold numbers_ok. simpl.
  intros Hp Hv.
  apply andb_true_iff in Hp. destruct Hp as [Hp Hns].
  apply andb_true_iff in Hp. destruct Hp as [Htc Hdc].
  unfold Decode.set_string, Decode.set_number.
  repeat match goal with
         | |- context [if Decode.key_is ?n ?x then _ else _] =>
             destruct (Decode.key_is n x)
         end.
  all: try (destruct (Decode.store_string _ _); intros H;
            injection H as <- _; simpl; rewrite Htc, Hdc, Hns; reflexivity).
  all: try (intros H; injection H as <- _; simpl; rewrite Htc, Hdc, Hns;
            reflexivity).
  all: match goal with
       | |- context [Decode.store_number ?old ?x] =>
           destruct (Decode.store_number old x) as [s sv0] eqn:Hst;
           pose proof (store_number_text old x s sv0 ltac:(assumption) Hv Hst)
             as Hs
       end;
    intros H; injection H as <- _; simpl; rewrite ?Htc, ?Hdc, ?Hns, ?Hs;
    reflexivity.
Qed.

Lemma decode_fields_numbers (fields : list (string * json)) (p p' : Prover)
    (sv : option Decode.DecodeError) :
  numbers_ok p = true -> forallb (fun kv => wf_json (snd kv)) fields = true ->
  Decode.decode_fields p fields = Decode.Soft p' sv -> numbers_ok p' = true.
Proof.
  revert p sv. induction fields as [|[k v] fields IH]; intros p sv Hp Hf; simpl.
  - intros H. injection H as <- _. exact Hp.
  - simpl in Hf. apply andb_true_iff in Hf. destruct Hf as [Hv Hf].
    intros H. apply seq_inv in H. destruct H as (p1 & sv1 & sv2 & H1 & H2).
    eapply IH; [|exact Hf|exact H2].
    exact (decode_field_numbers _ _ _ _ _ Hp Hv H1).
Qed.

Lemma decode_prover_numbers (old p : Prover) (v : json)
    (sv : option Decode.DecodeError) :
  numbers_ok old = true -> wf_json v = true ->
  Decode.decode_prover old v = Decode.Soft p sv -> numbers_ok p = true.
Proof.
  intros Ho Hv.
  destruct v; simpl; try (intros H; injection H as <- _; exact Ho).
  apply decode_fields_numbers; assumption.
Qed.

(** The elements of the backing array, those beyond the length of the
    slice among them, were all stored by the decoder. *)
Lemma decode_items_numbers (items : list json) (store ps : list Prover)
    (sv : option Decode.DecodeError) :
  Forall (fun p => numbers_ok p = true) store ->
  forallb wf_json items = true ->
  Decode.decode_items store items = Decode.Soft ps sv ->
  Forall (fun p => numbers_ok p = true) ps.
Proof.
  revert store ps sv.
  induction items as [|v items IH]; intros store ps sv Ho Hi;
    cbn [Decode.decode_items].
  - intros H. injection H as <- _. constructor.
  - simpl in Hi. apply andb_true_iff in Hi. destruct Hi as [Hv Hi].
    intros H. apply seq_inv in H. destruct H as (p & sv1 & sv2 & H1 & H).
    apply seq_inv in H. destruct H as (ps' & sv3 & sv4 & H2 & H).
    injection H as <- _.
    assert (Hhd : numbers_ok (hd zeroProver store) = true
                  /\ Forall (fun p => numbers_ok p = true) (tl store)).
    { destruct Ho; simpl; [split; [reflexivity | constructor] | auto]. }
    destruct Hhd as [Hhd Htl].
    constructor.
    + exact (decode_prover_numbers _ _ _ _ Hhd Hv H1).
    + exact (IH _ _ _ Htl Hi H2).
Qed.

Lemma decode_slice_numbers (s s' : Decode.slice) (v : json)
    (sv : option Decode.DecodeError) :
  Forall (fun p => numbers_ok p = true) (Decode.backing s) ->
  wf_json v = true ->
  Decode.decode_slice s v = Decode.Soft s' sv ->
  Forall (fun p => numbers_ok p = true) (Decode.backing s').
Proof.
  intros Hs Hv.
  destruct v as [| | | |[|x items]|]; cbn [Decode.decode_slice];
    try (intros H; injection H as <- _; first [exact Hs | constructor]).
  intros H. apply seq_inv in H. destruct H as (ps & sv1 & sv2 & H1 & H).
  injection H as <- _. cbn [Decode.backing].
  apply Forall_app. split.
  - exact (decode_items_numbers _ _ _ _ Hs Hv H1).
  - apply Forall_drop. exact Hs.
Qed.

Lemma decode_envelope_fields_numbers (fields : list (string * json))
    (data data' : Decode.slice) (sv : option Decode.DecodeError) :
  Forall (fun p => numbers_ok p = true) (Decode.backing data) ->
  forallb (fun kv => wf_json (snd kv)) fields = true ->
  Decode.decode_envelope_fields data fields = Decode.Soft data' sv ->
  Forall (fun p => numbers_ok p = true) (Decode.backing data').
Proof.
  revert data sv.
  induction fields as [|[k v] fields IH]; intros data sv Hd Hf;
    cbn [Decode.decode_envelope_fields].
  - intros H. injection H as <- _. exact Hd.
  - simpl in Hf. apply andb_true_iff in Hf. destruct Hf as [Hv Hf].
    intros H. apply seq_inv in H. destruct H as (d1 & sv1 & sv2 & H1 & H2).
    eapply IH; [|exact Hf|exact H2].
    destruct (Decode.key_is "data" k).
    + exact (decode_slice_numbers _ _ _ _ Hd Hv H1).
    + injection H1 as <- _. exact Hd.
Qed.

Lemma Unmarshal_numbers (body : string) (data : list Prover) :
  Decode.Unmarshal body = inr data ->
  Forall (fun p => numbers_ok p = true) data.
Proof.
  unfold Decode.Unmarshal.
  destruct (parse body) as [v|] eqn:Hp; [|discriminate].
  apply parse_wf in Hp.
  destruct (Decode.decode_envelope v) as [d [e|]] eqn:Hd; try discriminate.
  intros H. injection H as <-.
  destruct v; simpl in Hd; try (injection Hd as <-; constructor).
  apply seq_inv in Hd. destruct Hd as (s & sv1 & sv2 & H1 & Hd).
  injection Hd as <- _. unfold Decode.elements. apply Forall_take.
  apply (decode_envelope_fields_numbers fields Decode.nil_slice s sv1);
    [constructor | exact Hp | exact H1].
Qed.

Lemma Float64_of_number_text (s : string) :
  number_text s = true ->
  (s = EmptyString /\ Float64 s = (fzero, Some Strconv.ErrSyntax))
  \/ (Strconv.isValidNumber s = true
      /\ snd (Float64 s) <> Some Strconv.ErrSyntax).
Proof.
  unfold number_text. intros H. apply orb_true_iff in H.
  destruct H as [H|H].
  - apply String.eqb_eq in H. subst s. left. split; reflexivity.
  - right. split; [exact H|].
    unfold Float64, Strconv.ParseFloat, Strconv.isValidNumber in *.
    destruct (Strconv.parse_number s); [|discriminate].
    destruct (Strconv.float_of_numlit n); discriminate.
Qed.

(** X11. The number texts of the records that the fetch stage returns.
    Each of the three fields of type [json.Number] holds either the
    empty text (the field was absent or [null]) or a number literal of
    the JSON grammar.  So the error of [Float64] that the main loop
    drops is a syntax error only for the empty text, for which the
    value is 0; for every other field the conversion gives the nearest
    [float64], with at most a range error. *)
Theorem fetched_numbers_are_numbers (w : World) (url : string)
    (startTime endTime : Z) (t : list Event) (provers : list Prover) :
  fetchProverRankList w url startTime endTime = (t, inr provers) ->
  forall p, p ∈ provers ->
  forall field,
    field ∈ [TotalPuzzleCredits p; DailyPuzzleCredits p; NetworkSpeed p] ->
    (field = EmptyString /\ Float64 field = (fzero, Some Strconv.ErrSyntax))
    \/ (Strconv.isValidNumber field = true
        /\ snd (Float64 field) <> Some Strconv.ErrSyntax).
Proof.
  unfold fetchProverRankList, Do, bind, emit, fail, ret.
  destruct (http_post w url (payload startTime endTime))
    as [| |code status [text|]]; try discriminate.
  2: { destruct (negb (code =? StatusOK)); discriminate. }
  destruct (negb (code =? StatusOK)); [discriminate|].
  destruct (Decode.Unmarshal text) as [e|data] eqn:Hu; [discriminate|].
  intros H. injection H as _ <-.
  apply Unmarshal_numbers in Hu. rewrite Forall_forall in Hu.
  intros p Hp field Hf. specialize (Hu p Hp).
  unfold numbers_ok in Hu.
  apply andb_true_iff in Hu. destruct Hu as [Hu Hns].
  apply andb_true_iff in Hu. destruct Hu as [Htc Hdc].
  apply Float64_of_number_text.
  repeat (apply elem_of_cons in Hf; destruct Hf as [->|Hf]; [assumption|]).
  apply elem_of_nil in Hf. contradiction.
Qed.

Lemma fetched_numbers_are_numbers_witness :
  fetchProverRankList odd_world "u" 0 1
  = ([EvPost "u" (payload 0 1)], inr [MkProver "addr1" "1e999" "" "" "" "" ""])
  /\ Float64 EmptyString = (fzero, Some Strconv.ErrSyntax)
  /\ snd (Float64 "1e999") <> Some Strconv.ErrSyntax.
Proof.
  assert (H : fetchProverRankList odd_world "u" 0 1
              = ([EvPost "u" (payload 0 1)],
                 inr [MkProver "addr1" "1e999" "" "" "" "" ""]))
    by (vm_compute; reflexivity).
  split; [exact H|].
  pose proof (fetched_numbers_are_numbers _ _ _ _ _ _ H
                (MkProver "addr1" "1e999" "" "" "" "" "")
                ltac:(apply elem_of_cons; left; reflexivity)) as Hp.
  split.
  - destruct (Hp EmptyString) as [[_ H0]|[H0 _]].
    + apply elem_of_cons. right. apply elem_of_cons. left. reflexivity.
    + exact H0.
    + discriminate H0.
  - destruct (Hp "1e999") as [[H0 _]|[_ H0]].
    + apply elem_of_cons. left. reflexivity.
    + discriminate H0.
    + exact H0.
Defined.

(** ** The body of the request *)

Lemma digit_is_word (a : ascii) :
  is_digit a = true \/ a = "-"%char ->
  is_word_char a = true
  /\ start_char a = Some (LWord (String a EmptyString), [])
  /\ Ascii.eqb a "t"%char = false /\ Ascii.eqb a "f"%char = false
  /\ Ascii.eqb a "n"%char = false.
Proof.
  intros [H| ->]; [|repeat split; reflexivity].
  destruct a as [[] [] [] [] [] [] [] []]; try discriminate H;
    repeat split; reflexivity.
Qed.

Lemma all_digits_word (s : string) : all_digits s = true -> all_word s = true.
Proof.
  induction s as [|a s IH]; simpl; [reflexivity|].
  intros H. apply andb_true_iff in H. destruct H as [Ha Hs].
  destruct (digit_is_word a (or_introl Ha)) as (-> & _). auto.
Qed.

Lemma string_of_uint_digits (d : Decimal.uint) :
  all_digits (DecimalString.NilEmpty.string_of_uint d) = true.
Proof. induction d; simpl; auto. Qed.

Lemma to_uint_normal (p : positive) :
  Decimal.unorm (Pos.to_uint p) = Pos.to_uint p.
Proof.
  rewrite <- DecimalPos.Unsigned.to_of, DecimalPos.Unsigned.of_to.
  reflexivity.
Qed.

Lemma to_uint_head (p : positive) :
  exists c s,
    DecimalString.NilZero.string_of_uint (Pos.to_uint p) = String c s
    /\ is_digit c = true /\ Ascii.eqb c "0"%char = false
    /\ all_digits s = true.
Proof.
  pose proof (to_uint_normal p) as Hn.
  pose proof (DecimalPos.Unsigned.to_uint_nonzero p) as Hz.
  pose proof (DecimalPos.Unsigned.to_uint_nonnil p) as Hnil.
  destruct (Pos.to_uint p) as [|d|d|d|d|d|d|d|d|d|d] eqn:Hd;
    try (do 2 eexists; split; [reflexivity|]; repeat split;
         apply string_of_uint_digits).
  - contradiction.
  - exfalso. rewrite DecimalFacts.unorm_D0 in Hn.
    destruct d as [|d|d|d|d|d|d|d|d|d|d]; [contradiction| | | | | | | | | |].
    all: match type of Hn with
         | Decimal.unorm ?u = _ =>
             pose proof (DecimalFacts.nb_digits_unorm u ltac:(discriminate))
               as Hle
         end;
      rewrite Hn in Hle; simpl in Hle; lia.
Qed.

Lemma digits_all (s : string) (acc cnt : Z) :
  all_digits s = true ->
  exists v n, digits s acc cnt = (v, n, EmptyString).
Proof.
  revert acc cnt. induction s as [|a s IH]; intros acc cnt; simpl.
  - intros _. do 2 eexists. reflexivity.
  - intros H. apply andb_true_iff in H. destruct H as [-> H]. apply IH. exact H.
Qed.

Lemma natural_is_number (c : ascii) (s : string) :
  is_digit c = true -> Ascii.eqb c "0"%char = false -> all_digits s = true ->
  exists v, Strconv.scan_int (String c s) = Some (v, EmptyString).
Proof.
  intros Hc H0 Hs. unfold Strconv.scan_int. rewrite H0, Hc.
  destruct (digits_all s (digit_val c) 1 Hs) as (v & n & ->).
  exists v. reflexivity.
Qed.

Lemma Itoa_is_number (n : Z) :
  Strconv.isValidNumber (Strconv.Itoa n) = true
  /\ exists c s, Strconv.Itoa n = String c s
                 /\ (is_digit c = true \/ c = "-"%char)
                 /\ all_word s = true.
Proof.
  unfold Strconv.Itoa. destruct n as [|p|p].
  - split; [reflexivity|]. exists "0"%char, EmptyString.
    repeat split. left. reflexivity.
  - destruct (to_uint_head p) as (c & s & Hs & Hc & H0 & Hd).
    cbn [Z.to_int DecimalString.NilZero.string_of_int]. rewrite Hs.
    split; [|exists c, s; repeat split; [left; exact Hc
                                         | apply all_digits_word; exact Hd]].
    destruct (natural_is_number c s Hc H0 Hd) as [v Hv].
    unfold Strconv.isValidNumber, Strconv.parse_number, Strconv.scan_number.
    replace (Ascii.eqb c "-"%char) with false
      by (destruct c as [[] [] [] [] [] [] [] []]; try discriminate Hc;
          reflexivity).
    rewrite Hv. reflexivity.
  - destruct (to_uint_head p) as (c & s & Hs & Hc & H0 & Hd).
    cbn [Z.to_int DecimalString.NilZero.string_of_int]. rewrite Hs.
    split; [|exists "-"%char, (String c s); repeat split;
             [right; reflexivity|]].
    + destruct (natural_is_number c s Hc H0 Hd) as [v Hv].
      unfold Strconv.isValidNumber, Strconv.parse_number, Strconv.scan_number.
      cbn [Ascii.eqb Bool.eqb]. rewrite Hv. reflexivity.
    + simpl. destruct (digit_is_word c (or_introl Hc)) as (-> & _).
      apply all_digits_word. exact Hd.
Qed.

Lemma Itoa_token (n : Z) :
  word_token (Strconv.Itoa n) = Some (TNumber (Strconv.Itoa n)).
Proof.
  destruct (Itoa_is_number n) as (Hv & c & s & Hs & Hc & _).
  unfold word_token. rewrite Hv, Hs.
  destruct (digit_is_word c Hc) as (_ & _ & Ht & Hf & Hn).
  simpl. rewrite Ht, Hf, Hn. reflexivity.
Qed.

Lemma lex_word_run (w' w : string) (c : ascii) (rest : string) :
  all_word w' = true -> is_word_char c = false ->
  lex (LWord w) (w' +:+ String c rest)
  = match word_token (w +:+ w'), start_char c with
    | Some t, Some (st', ts) => (fun r => t :: ts ++ r) <$> lex st' rest
    | _, _ => None
    end.
Proof.
  revert w. induction w' as [|a w' IH]; intros w Hw Hc; norm_app.
  - simpl. rewrite Hc.
    replace (w +:+ EmptyString) with w; [reflexivity|].
    clear. induction w as [|b w IH]; norm_app; [reflexivity | congruence].
  - simpl in Hw. apply andb_true_iff in Hw. destruct Hw as [Ha Hw].
    simpl. rewrite Ha, (IH _ Hw Hc). unfold snoc.
    rewrite string_app_assoc. norm_app. reflexivity.
Qed.

Lemma lex_string_body (b raw : string) (rest : string) :
  all_plain b = true ->
  lex (LStr raw) (b +:+ String dquote rest)
  = (fun r => TString (unquote (raw +:+ b)) :: r) <$> lex LStart rest.
Proof.
  revert raw. induction b as [|a b IH]; intros raw Hb; norm_app.
  - simpl.
    replace (raw +:+ EmptyString) with raw; [reflexivity|].
    clear. induction raw as [|c w IH]; norm_app; [reflexivity | congruence].
  - simpl in Hb. repeat (apply andb_true_iff in Hb; destruct Hb as [Hb ?]).
    apply negb_true_iff in Hb.
    repeat match goal with H : negb _ = true |- _ => apply negb_true_iff in H end.
    simpl.
    repeat match goal with H : _ = false |- _ => rewrite H end.
    rewrite IH by assumption. unfold snoc.
    rewrite string_app_assoc. norm_app. reflexivity.
Qed.

Lemma lex_number (n : Z) (c : ascii) (rest : string) :
  is_word_char c = false ->
  lex LStart (Strconv.Itoa n +:+ String c rest)
  = match start_char c with
    | Some (st', ts) =>
        (fun r => TNumber (Strconv.Itoa n) :: ts ++ r) <$> lex st' rest
    | None => None
    end.
Proof.
  intros Hc. pose proof (Itoa_token n) as Ht.
  destruct (Itoa_is_number n) as (_ & a & s & Hs & Ha & Hw).
  rewrite Hs in *. norm_app.
  destruct (digit_is_word a Ha) as (_ & Hst & _).
  cbn [lex]. rewrite Hst. rewrite (lex_word_run s _ c rest Hw Hc).
  norm_app. rewrite Ht.
  destruct (start_char c) as [[st' ts]|]; [|reflexivity].
  destruct (lex st' rest); reflexivity.
Qed.

Lemma lex_start (c : ascii) (s : string) (st : lex_state) (ts : list token) :
  start_char c = Some (st, ts) ->
  lex LStart (String c s) = (fun r => ts ++ r) <$> lex st s.
Proof. intros H. simpl. rewrite H. reflexivity. Qed.

(** X12. The body of the request is a JSON text for every pair of
    timestamps, negative ones included: it reads as an object with the
    two members [start_time] and [end_time], in this order, whose values
    are number literals that read back as the two timestamps. *)
Theorem payload_is_json (startTime endTime : Z) :
  Json.parse (payload startTime endTime)
  = Some (JObj [("start_time", JNum (Strconv.Itoa startTime));
                ("end_time", JNum (Strconv.Itoa endTime))])
  /\ Atoi (Strconv.Itoa startTime) = Some startTime
  /\ Atoi (Strconv.Itoa endTime) = Some endTime.
Proof.
  split; [|split; apply Atoi_Itoa].
  change (payload startTime endTime)
    with (String "{"
            (String dquote
               ("start_time"
                +:+ String dquote
                      (String ":"
                         (String " "
                            (Strconv.Itoa startTime
                             +:+ String ","
                                   (String " "
                                      (String dquote
                                         ("end_time"
                                          +:+ String dquote
                                                (String ":"
                                                   (String " "
                                                      (Strconv.Itoa endTime
                                                       +:+ String "}" EmptyString)))))))))))).
  unfold parse.
  rewrite (lex_start "{" _ LStart [TLBrace]) by reflexivity.
  rewrite (lex_start dquote _ (LStr EmptyString) []) by reflexivity.
  rewrite (lex_string_body "start_time") by reflexivity.
  rewrite (lex_start ":" _ LStart [TColon]) by reflexivity.
  rewrite (lex_start " " _ LStart []) by reflexivity.
  rewrite lex_number by reflexivity.
  change (start_char ",") with (Some (LStart, [TComma])). cbv iota beta.
  rewrite (lex_start " " _ LStart []) by reflexivity.
  rewrite (lex_start dquote _ (LStr EmptyString) []) by reflexivity.
  rewrite (lex_string_body "end_time") by reflexivity.
  rewrite (lex_start ":" _ LStart [TColon]) by reflexivity.
  rewrite (lex_start " " _ LStart []) by reflexivity.
  rewrite lex_number by reflexivity.
  reflexivity.
Qed.

(** ** Line endings of the label file *)

Lemma lines_from_crlf (s cur : string) :
  no_cr s = true -> Csv.lines_from cur (crlf s) = Csv.lines_from cur s.
Proof.
  revert cur. induction s as [|c s IH]; intros cur; [reflexivity|].
  cbn [no_cr crlf]. intros H. apply andb_true_iff in H. destruct H as [Hc Hs].
  apply negb_true_iff in Hc.
  destruct (Ascii.eqb c newline) eqn:Hn.
  - apply Ascii.eqb_eq in Hn. subst c.
    cbn [Csv.lines_from].
    change (Ascii.eqb creturn newline) with false.
    change (Ascii.eqb creturn creturn) with true.
    change (Ascii.eqb newline newline) with true.
    cbv iota. rewrite IH by exact Hs. reflexivity.
  - cbn [Csv.lines_from]. rewrite Hn, Hc. apply IH. exact Hs.
Qed.

(** X13. The line endings of the label file do not matter: a file in
    which every newline is preceded by a carriage return gives the same
    records, and the loader returns the same map or the same error, as
    the file without the carriage returns. *)
Theorem crlf_gives_the_same_labels (w w' : World) (path text : string)
    (fault : bool) :
  no_cr text = true ->
  open_file w path = Opens text fault ->
  open_file w' path = Opens (crlf text) fault ->
  Csv.read_results (crlf text) fault = Csv.read_results text fault
  /\ readClusterNames w' path = readClusterNames w path.
Proof.
  intros Hcr Ho Ho'.
  assert (Hr : Csv.read_results (crlf text) fault = Csv.read_results text fault).
  { unfold Csv.read_results, Csv.lines. rewrite lines_from_crlf by exact Hcr.
    reflexivity. }
  split; [exact Hr|].
  unfold readClusterNames. rewrite Ho, Ho', Hr. reflexivity.
Qed.

Lemma crlf_gives_the_same_labels_witness :
  no_cr sample_labels = true
  /\ crlf sample_labels
     = "Alice,addr1" +:+ String creturn nl +:+ "Bob,addr2" +:+ String creturn nl
  /\ readClusterNames (labels_world (crlf sample_labels)) "cluster.csv"
     = readClusterNames (labels_world sample_labels) "cluster.csv".
Proof.
  split; [reflexivity|]. split; [reflexivity|].
  apply (crlf_gives_the_same_labels (labels_world sample_labels)
           (labels_world (crlf sample_labels)) "cluster.csv" sample_labels false);
    reflexivity.
Defined.

(** ** Which texts of the literal form are accepted *)

Lemma in_range_bounds (lo hi x : Z) (b : bool) :
  in_range lo hi x = b -> if b then lo <= x < hi else ~ (lo <= x < hi).
Proof.
  unfold in_range. intros <-.
  destruct (Z.leb_spec lo x), (Z.ltb_spec x hi); simpl; lia.
Qed.

(** X14. A text of the literal form [YYYY-MM-DD HH:MM:SS] is accepted
    exactly when its fields form a date and a time that exist: the month
    is from 1 to 12, the day is from 1 to the length of the month in
    that year (29 February only in a leap year), the hour is below 24,
    the minute and the second are below 60.  Every other text of this
    form makes [parseDateTime] return the error of [time.Parse]. *)
Theorem literal_is_accepted_iff_valid (c : Clock) :
  0 <= year c <= 9999 -> 0 <= month c <= 99 -> 0 <= day c <= 99 ->
  0 <= hour c <= 99 -> 0 <= minute c <= 99 -> 0 <= second c <= 99 ->
  parse_layout (format_clock c) = (if valid_clock c then Some c else None)
  /\ forall w, local_zone w <> None -> valid_clock c = false ->
       parseDateTime w (format_clock c)
       = ([], inl (ErrParseTime (format_clock c))).
Proof.
  intros Hy Hm Hd Hh Hmi Hs.
  assert (Hp : parse_layout (format_clock c)
               = (if valid_clock c then Some c else None)).
  { destruct (valid_clock c) eqn:Hv; [apply parse_format; exact Hv|].
    destruct c as [y mo d h mi se]. cbn [year month day hour minute second] in *.
    unfold format_clock, format_date. cbn [year month day hour minute second].
    rewrite !string_app_assoc. unfold parse_layout.
    rewrite getyear_pad4 by lia. cbn [mbind option_bind].
    rewrite skip_char_here. cbn [mbind option_bind].
    rewrite getnum_pad2 by lia. cbn [mbind option_bind].
    destruct (in_range 1 13 mo) eqn:R1; [|reflexivity]. cbn [negb].
    rewrite skip_char_here. cbn [mbind option_bind].
    rewrite getnum_pad2 by lia. cbn [mbind option_bind].
    rewrite skip_space_pad2 by lia. cbn [mbind option_bind].
    rewrite getnum_pad2 by lia. cbn [mbind option_bind].
    destruct (in_range 0 24 h) eqn:R2; [|reflexivity]. cbn [negb].
    rewrite skip_char_here. cbn [mbind option_bind].
    rewrite getnum_pad2 by lia. cbn [mbind option_bind].
    destruct (in_range 0 60 mi) eqn:R3; [|reflexivity]. cbn [negb].
    rewrite skip_char_here. cbn [mbind option_bind].
    replace (pad2 se) with (pad2 se +:+ "") by (unfold pad2; reflexivity).
    rewrite getnum_pad2 by lia. cbn [mbind option_bind].
    destruct (in_range 0 60 se) eqn:R4; [|reflexivity]. cbn [negb skip_fraction].
    destruct ((1 <=? d) && (d <=? daysIn mo y)) eqn:R5; [|reflexivity].
    exfalso.
    apply in_range_bounds in R1, R2, R3, R4.
    apply andb_true_iff in R5. destruct R5 as [D1 D2].
    apply Z.leb_le in D1, D2.
    assert (Hv' : valid_clock (MkClock y mo d h mi se) = true).
    { unfold valid_clock. cbn [year month day hour minute second].
      rewrite !andb_true_iff, !Z.leb_le, !Z.ltb_lt. lia. }
    congruence. }
  split; [exact Hp|].
  intros w Hz Hv. unfold parseDateTime.
  destruct (local_zone w); [|congruence].
  rewrite Hp, Hv. reflexivity.
Qed.

Lemma literal_is_accepted_iff_valid_witness :
  format_clock no_such_day = "2023-02-29 12:00:00"
  /\ valid_clock no_such_day = false
  /\ parseDateTime (zone_world UTC) "2023-02-29 12:00:00"
     = ([], inl (ErrParseTime "2023-02-29 12:00:00")).
Proof.
  split; [reflexivity|]. split; [reflexivity|].
  destruct (literal_is_accepted_iff_valid no_such_day) as [_ H];
    try (simpl; lia).
  apply (H (zone_world UTC)); [discriminate | reflexivity].
Defined.

(** ** Every second has a text *)

Lemma offset_at_fixed (loc : Location) (sec : Z) :
  zone_trans loc = [] -> offset_at loc sec = zone_first loc.
Proof.
  intros H. unfold offset_at, Time.lookup. rewrite H. reflexivity.
Qed.

(** X15. In a zone without transitions every second whose local year is
    from 0 to 9999 can be asked for: the literal form of its local
    reading is accepted by [parseDateTime] and gives back this very
    second. *)
Theorem every_second_has_a_text (w : World) (loc : Location) (u : Z) :
  local_zone w = Some loc -> zone_trans loc = [] ->
  0 <= year (local_clock loc u) <= 9999 ->
  valid_clock (local_clock loc u) = true
  /\ parseDateTime w (format_clock (local_clock loc u)) = ([], inr u).
Proof.
  intros Hz Hnil Hy.
  assert (Hv : valid_clock (local_clock loc u) = true).
  { unfold local_clock in *.
    destruct (clock_of_seconds_inv (u + offset_at loc u))
      as (Hm & Hd & Hh & Hmi & Hs & _).
    unfold valid_clock.
    rewrite !andb_true_iff, !Z.leb_le, !Z.ltb_lt. lia. }
  split; [exact Hv|].
  unfold parseDateTime. rewrite Hz, (parse_format _ Hv).
  unfold ret. do 2 f_equal.
  destruct (Date_unix_steady loc (local_clock loc u)
              (steady_without_transitions loc _ Hnil)) as [-> _].
  unfold local_clock.
  destruct (clock_of_seconds_inv (u + offset_at loc u))
    as (_ & _ & _ & _ & _ & ->).
  rewrite !offset_at_fixed by exact Hnil. lia.
Qed.

Lemma every_second_has_a_text_witness :
  local_zone (zone_world shanghai) = Some shanghai
  /\ zone_trans shanghai = []
  /\ format_clock (local_clock shanghai 1700000000) = "2023-11-15 06:13:20"
  /\ parseDateTime (zone_world shanghai) "2023-11-15 06:13:20"
     = ([], inr 1700000000).
Proof.
  split; [reflexivity|]. split; [reflexivity|].
  assert (Hf : format_clock (local_clock shanghai 1700000000)
               = "2023-11-15 06:13:20") by (vm_compute; reflexivity).
  split; [exact Hf|].
  rewrite <- Hf.
  apply (every_second_has_a_text (zone_world shanghai) shanghai 1700000000);
    try reflexivity.
  vm_compute. split; discriminate.
Defined.

(** ** Credits that are integers *)

Lemma Float64_integer (text : string) (s : Z) :
  integer_literal text s -> Z.abs s <= 2 ^ 53 ->
  exists neg m e,
    Float64 text = (FFin neg m e, None)
    /\ represents m e (Z.abs s)
    /\ (s < 0 -> neg = true) /\ (0 < s -> neg = false).
Proof.
  intros (neg & a & Hparse & Ha & Hs) Habs.
  assert (Ha53 : 0 <= a <= 2 ^ 53) by (destruct neg; lia).
  destruct (round_q_int a Ha53) as (m & e & Hr & Hrep & _).
  exists neg, m, e.
  unfold Float64, Strconv.ParseFloat. rewrite Hparse.
  unfold Strconv.float_of_numlit. simpl. rewrite Z.mul_1_r, Hr. simpl.
  replace (Z.abs s) with a by (destruct neg; lia).
  repeat split; try assumption; destruct neg; intros; try reflexivity; lia.
Qed.

(** X16. Credits that are integers lose nothing.  When the text of the
    total or of the daily credits is an integer literal of magnitude at
    most 2^53, the conversion reports no error and the number cell holds
    exactly this integer, with its sign. *)
Theorem integer_credits_are_exact
    (clusterNames : gmap string string) (i : nat) (p : Prover) :
  (forall s, integer_literal (TotalPuzzleCredits p) s -> Z.abs s <= 2 ^ 53 ->
     exists neg m e,
       proverRow clusterNames i p !! 3%nat = Some (FloatCell (FFin neg m e) "0.00")
       /\ snd (Float64 (TotalPuzzleCredits p)) = None
       /\ represents m e (Z.abs s)
       /\ (s < 0 -> neg = true) /\ (0 < s -> neg = false))
  /\ (forall s, integer_literal (DailyPuzzleCredits p) s -> Z.abs s <= 2 ^ 53 ->
        exists neg m e,
          proverRow clusterNames i p !! 5%nat
          = Some (FloatCell (FFin neg m e) "0.00")
          /\ snd (Float64 (DailyPuzzleCredits p)) = None
          /\ represents m e (Z.abs s)
          /\ (s < 0 -> neg = true) /\ (0 < s -> neg = false)).
Proof.
  split; intros s Hl Hs;
    destruct (Float64_integer _ s Hl Hs) as (neg & m & e & Hf & Hrep & Hsign);
    exists neg, m, e; cbn [proverRow Time.lookup list_lookup];
    simpl; rewrite Hf; repeat split; try apply Hsign; exact Hrep.
Qed.

Lemma integer_credits_are_exact_witness :
  integer_literal "9007199254740992" 9007199254740992
  /\ Z.abs 9007199254740992 <= 2 ^ 53
  /\ exists neg m e,
       proverRow ∅ 0 (MkProver "a" "9007199254740992" "" "1" "" "1" "") !! 3%nat
       = Some (FloatCell (FFin neg m e) "0.00")
       /\ represents m e 9007199254740992.
Proof.
  assert (Hl : integer_literal "9007199254740992" 9007199254740992).
  { exists false, 9007199254740992. repeat split. lia. }
  assert (Hs : Z.abs 9007199254740992 <= 2 ^ 53) by (simpl; lia).
  split; [exact Hl|]. split; [exact Hs|].
  destruct (integer_credits_are_exact ∅ 0
              (MkProver "a" "9007199254740992" "" "1" "" "1" "")) as [H _].
  destruct (H _ Hl Hs) as (neg & m & e & Hc & _ & Hrep & _).
  exists neg, m, e. split; [exact Hc | exact Hrep].
Defined.

(** ** How a run ends *)

(** X17. How a run ends.  The trace of every run ends either with
    [log.Fatal] or with the message that names the saved file, and
    [log.Fatal] occurs nowhere else.  In the first case no file has been
    written and the error carries the context of the stage that failed;
    in the second case the message comes right after the one write of
    the file, and no other attempt to write has been made. *)
Theorem run_ends_once (w : World) (c : Flags) :
  exists pre final,
    main w c = pre ++ [final]
    /\ forallb (fun ev => negb (is_fatal ev)) pre = true
    /\ ((exists context e,
           final = EvFatal (Wrap context e)
           /\ reported_as context e = true
           /\ forallb (fun ev => negb (is_written ev)) pre = true)
        \/ (final = EvPrint ("数据已保存到 " +:+ outputFileName w +:+ nl)
            /\ exists pre' sheet,
                 pre = pre' ++ [EvSave (outputFileName w) sheet]
                 /\ forallb (fun ev => negb (is_save ev)) pre' = true)).
Proof.
  run_cases;
    try match goal with
        | H : clusterLoop _ _ = inl _ |- _ =>
            apply clusterLoop_error in H;
            destruct H as (? & ? & ? & ? & _ & _ & ->)
        end;
    split_last; (split; [reflexivity|]).
  all: try (left; do 2 eexists; repeat split; reflexivity).
  all: right; split; [reflexivity|].
  all: match goal with
       | |- exists pre' sheet, ?l = _ /\ _ =>
           let p := eval cbn [removelast] in (removelast l) in
           exists p; eexists; split; reflexivity
       end.
Qed.
